(** * AnyRead: the dispatch-and-normalisation engine

    A shallow embedding of the TypeScript sources of AnyRead:

    - [src/parsers/csv.ts]: [parseCSV], [parseCSVLine] and the
      formatters (module [Csv]),
    - [src/parsers/excel.ts]: [parseExcel] and the formatters (module
      [Excel]),
    - [src/providers/openai.ts], [gemini.ts], [anthropic.ts] and
      [index.ts]: [analyzeImage] and [createAIProvider] (module
      [Provider]),
    - [src/parser.ts]: the class [FileParser] with [parse],
      [parseWithAI], [parseMany] and [format] (module [Parser]),
    - [src/types.ts]: the records and options,

    followed by the properties of the specification that concern them.
    Where the tree holds two versions of a file, the later one is
    embedded: the one with the raw output format, the unlimited default
    of [maxRows] and [parseWithAI].

    Conventions of the embedding.
    - A JavaScript string is the [string] of the bytes of its UTF-8
      encoding.  What the code does by UTF-16 code unit is written out on
      these bytes: a character of the basic plane, of one to three bytes,
      is one code unit, and the white space [trim] removes is that of
      ECMAScript, whatever its number of bytes.  A [Buffer] is the
      [string] of its bytes, which [buffer.toString("utf8")] decodes
      ([Js.toString]).
    - JavaScript numbers that the code uses as counts and limits are
      integers of [Z] (or [nat] where the source can only produce a
      length).  The [concurrency] of [parseMany], which the code adds to
      the index of its loop, is also given as any number, a binary64
      value of [SpecFloat] (module [Number]).
    - A call that may throw returns an [Outcome]; [Throw m] carries the
      [message] of the thrown error.  A text with a lone surrogate has no
      UTF-8 encoding: [encodeURI] and [decodeURIComponent], which throw on
      what is malformed, are fields of [Host] and may throw on any
      argument.
    - The network, the third-party decoders and the builtins of the
      JavaScript runtime are the fields of the class [Host].
    - Logging has no influence on any returned value and is left out. *)

From Stdlib Require Import String Ascii List ZArith NArith Lia DecimalString Bool.
From Stdlib Require SpecFloat.
From stdpp Require Import base option list strings gmap.
Import ListNotations.

Local Open Scope Z_scope.

(** ** Outcomes of calls that may throw *)

Inductive Outcome (A : Type) : Type :=
| Return (a : A)
| Throw (message : string).

Arguments Return {A} a.
Arguments Throw {A} message.

Definition isReturn {A} (o : Outcome A) : bool :=
  match o with Return _ => true | Throw _ => false end.

(** ** Strings as the runtime handles them *)

Module Js.

Definition dquote : ascii := ascii_of_nat 34.
Definition newline : ascii := ascii_of_nat 10.
Definition creturn : ascii := ascii_of_nat 13.
Definition comma : ascii := ascii_of_nat 44.
Definition pipe : ascii := ascii_of_nat 124.
Definition backslash : ascii := ascii_of_nat 92.
Definition slash : ascii := ascii_of_nat 47.
Definition qmark : ascii := ascii_of_nat 63.

(** A one-character string, the value of [s[i]]. *)
Definition chr (c : ascii) : string := String c EmptyString.

(** [a === b] on characters. *)
Definition ceq (a b : ascii) : bool := bool_decide (a = b).

(** [a === b] on strings. *)
Definition seq (a b : string) : bool := bool_decide (a = b).

(** Truthiness of a string: non-empty. *)
Definition truthy (s : string) : bool :=
  match s with EmptyString => false | String _ _ => true end.

(** [a || b] on strings. *)
Definition orElse (a b : string) : string := if truthy a then a else b.

(** The UTF-8 bytes of a character of the basic plane. *)
Definition utf8 (codePoint : N) : string :=
  let byte (n : N) := ascii_of_N n in
  if (codePoint <? 128)%N then chr (byte codePoint)
  else if (codePoint <? 2048)%N then
    String (byte (192 + codePoint / 64)%N)
      (chr (byte (128 + codePoint mod 64)%N))
  else
    String (byte (224 + codePoint / 4096)%N)
      (String (byte (128 + (codePoint / 64) mod 64)%N)
         (chr (byte (128 + codePoint mod 64)%N))).

(** [lo <= c <= hi] on bytes. *)
Definition byteIn (lo hi : nat) (c : ascii) : bool :=
  bool_decide (lo ≤ nat_of_ascii c ≤ hi)%nat.

(** The replacement character, U+FFFD. *)
Definition replacement : string := utf8 0xFFFD.

(** The state of the UTF-8 decoder: the bytes read of a character that
    is not complete yet, the number of bytes it still needs, and the
    range its next byte must be in. *)
Record Decoder : Type := {
  pending : string;
  needed : nat;
  lower : nat;
  upper : nat
}.

Definition idle : Decoder :=
  {| pending := EmptyString; needed := 0; lower := 0; upper := 0 |}.

(** The byte [c] read as the first byte of a character: what the
    decoder emits, and its state after it. *)
Definition firstByte (c : ascii) : string * Decoder :=
  let expect (more lo hi : nat) :=
    (EmptyString,
     {| pending := chr c; needed := more; lower := lo; upper := hi |}) in
  if byteIn 0x00 0x7F c then (chr c, idle)
  else if byteIn 0xC2 0xDF c then expect 1%nat 0x80%nat 0xBF%nat
  else if byteIn 0xE0 0xE0 c then expect 2%nat 0xA0%nat 0xBF%nat
  else if byteIn 0xED 0xED c then expect 2%nat 0x80%nat 0x9F%nat
  else if byteIn 0xE1 0xEF c then expect 2%nat 0x80%nat 0xBF%nat
  else if byteIn 0xF0 0xF0 c then expect 3%nat 0x90%nat 0xBF%nat
  else if byteIn 0xF4 0xF4 c then expect 3%nat 0x80%nat 0x8F%nat
  else if byteIn 0xF1 0xF3 c then expect 3%nat 0x80%nat 0xBF%nat
  else (replacement, idle).

(** The UTF-8 decoder from the state [st] on: a well-formed character
    is emitted as it is, and U+FFFD stands for each byte that starts no
    character and for each character that is cut short, the byte that
    cuts it being read as a first byte. *)
Fixpoint decode (st : Decoder) (bytes : string) : string :=
  match bytes with
  | EmptyString =>
      if bool_decide (needed st = 0%nat) then EmptyString else replacement
  | String c rest =>
      let '(text, st') :=
        match needed st with
        | O => firstByte c
        | S more =>
            if byteIn (lower st) (upper st) c then
              match more with
              | O => (pending st +:+ chr c, idle)
              | S _ =>
                  (EmptyString,
                   {| pending := pending st +:+ chr c; needed := more;
                      lower := 0x80; upper := 0xBF |})
              end
            else
              let '(text, st') := firstByte c in (replacement +:+ text, st')
        end in
      text +:+ decode st' rest
  end.

(** [buffer.toString("utf8")]: the text of a buffer, the byte order mark
    kept. *)
Definition toString (buffer : string) : string := decode idle buffer.

(** The characters [trim] removes: the WhiteSpace and LineTerminator
    code points of ECMAScript (tab, line feed, vertical tab, form feed,
    carriage return, space, no-break space, the space separators of
    Unicode, the line and paragraph separators, and the byte order
    mark). *)
Definition whiteSpace : list string :=
  map utf8
    [ 0x0009; 0x000A; 0x000B; 0x000C; 0x000D; 0x0020; 0x00A0; 0x1680;
      0x2000; 0x2001; 0x2002; 0x2003; 0x2004; 0x2005; 0x2006; 0x2007;
      0x2008; 0x2009; 0x200A; 0x2028; 0x2029; 0x202F; 0x205F; 0x3000;
      0xFEFF ]%N.

Definition isWhiteSpace (u : string) : bool := bool_decide (u ∈ whiteSpace).

(** What follows the white space character [s] starts with, if it
    starts with one. *)
Definition whiteSpaceAt (s : string) : option string :=
  match s with
  | EmptyString => None
  | String a s1 =>
      if isWhiteSpace (chr a) then Some s1 else
      match s1 with
      | EmptyString => None
      | String b s2 =>
          if isWhiteSpace (String a (chr b)) then Some s2 else
          match s2 with
          | EmptyString => None
          | String c s3 =>
              if isWhiteSpace (String a (String b (chr c))) then Some s3
              else None
          end
      end
  end.

(** [s.trimStart()]: [s] without the white space characters, of one,
    two or three bytes, it starts with. *)
Fixpoint trimStart (s : string) : string :=
  match s with
  | EmptyString => EmptyString
  | String a s1 =>
      if isWhiteSpace (chr a) then trimStart s1 else
      match s1 with
      | EmptyString => s
      | String b s2 =>
          if isWhiteSpace (String a (chr b)) then trimStart s2 else
          match s2 with
          | EmptyString => s
          | String c s3 =>
              if isWhiteSpace (String a (String b (chr c))) then trimStart s3
              else s
          end
      end
  end.

(** The text has nothing but white space in it. *)
Definition blank (s : string) : bool := negb (truthy (trimStart s)).

(** [s.trimEnd()]: [s] up to the white space it ends with. *)
Fixpoint trimEnd (s : string) : string :=
  match s with
  | EmptyString => EmptyString
  | String c s' => if blank s then EmptyString else String c (trimEnd s')
  end.

(** [s.trim()]. *)
Definition trim (s : string) : string := trimEnd (trimStart s).

(** The last byte of a text. *)
Fixpoint lastByte (s : string) : option ascii :=
  match s with
  | EmptyString => None
  | String c s' => match lastByte s' with Some d => Some d | None => Some c end
  end.

(** The byte [c] is the last one of a white space character. *)
Definition endsWhiteSpace (c : ascii) : bool :=
  bool_decide (Some c ∈ map lastByte whiteSpace).

(** A byte that goes on with a character of several bytes. *)
Definition isContinuation (c : ascii) : bool :=
  bool_decide (128 ≤ nat_of_ascii c < 192)%nat.

(** [s.length === 1]: [s] is one UTF-16 code unit, that is one byte or
    the two or three bytes of a character of the basic plane. *)
Definition isUnit (s : string) : bool :=
  match s with
  | String a EmptyString => true
  | String a (String b EmptyString) =>
      bool_decide (192 ≤ nat_of_ascii a < 224)%nat && isContinuation b
  | String a (String b (String c EmptyString)) =>
      bool_decide (224 ≤ nat_of_ascii a < 240)%nat
      && isContinuation b && isContinuation c
  | _ => false
  end.

(** [s.startsWith(prefix)]. *)
Fixpoint startsWith (prefix s : string) : bool :=
  match prefix, s with
  | EmptyString, _ => true
  | String a prefix', String b s' => ceq a b && startsWith prefix' s'
  | String _ _, EmptyString => false
  end.

(** [l.join(sep)]. *)
Definition join (sep : string) (l : list string) : string :=
  String.concat sep l.

(** [s.includes(c)] for a one-character [c]. *)
Fixpoint includes (c : ascii) (s : string) : bool :=
  match s with
  | EmptyString => false
  | String d s' => ceq d c || includes c s'
  end.

(** [s.replace(/c/g, r)] for a one-character pattern [c]. *)
Fixpoint replaceAll (c : ascii) (r : string) (s : string) : string :=
  match s with
  | EmptyString => EmptyString
  | String d s' =>
      if ceq d c then r +:+ replaceAll c r s'
      else String d (replaceAll c r s')
  end.

(** [s.split(c)] for a one-character separator [c]: never empty. *)
Fixpoint splitOn (c : ascii) (s : string) : list string :=
  match s with
  | EmptyString => [EmptyString]
  | String d s' =>
      if ceq d c then EmptyString :: splitOn c s'
      else match splitOn c s' with
           | [] => [chr d]
           | p :: ps => String d p :: ps
           end
  end.

(** [s.split(/\r?\n/)]: a line ends at a line feed, and a carriage
    return just before it goes with it. *)
Fixpoint splitLines (s : string) : list string :=
  match s with
  | EmptyString => [EmptyString]
  | String d s' =>
      if ceq d newline then EmptyString :: splitLines s'
      else
        match s' with
        | String e s'' =>
            if ceq d creturn && ceq e newline then
              EmptyString :: splitLines s''
            else
              match splitLines s' with
              | [] => [chr d]
              | p :: ps => String d p :: ps
              end
        | EmptyString => [chr d]
        end
  end.

(** [String(n)] and [`${n}`] for an integer [n]. *)
Definition ofZ (n : Z) : string := NilZero.string_of_int (Z.to_int n).

Definition ofNat (n : nat) : string := ofZ (Z.of_nat n).

(** [s] occurs in [t]. *)
Definition occursIn (s t : string) : Prop :=
  ∃ pre post : string, t = pre +:+ s +:+ post.

End Js.

(** ** Numbers as the runtime handles them *)

Module Number.

(** A number of JavaScript: an IEEE 754 binary64 value. *)
Definition number : Type := SpecFloat.spec_float.

Definition prec : Z := 53.
Definition emax : Z := 1024.

(** The number nearest to [m * 2 ^ e]. *)
Definition make (m e : Z) : number :=
  SpecFloat.binary_normalize prec emax m e false.

Definition ofZ (n : Z) : number := make n 0.

Definition ofNat (n : nat) : number := ofZ (Z.of_nat n).

(** [a + b]. *)
Definition add (a b : number) : number := SpecFloat.SFadd prec emax a b.

(** [a < b]. *)
Definition ltb (a b : number) : bool := SpecFloat.SFltb a b.

(** The index that [Array.prototype.slice] makes of a bound [x] for an
    array of [len] elements: [x] is cut to an integer towards zero (0
    for [NaN]), counted from the end when that integer is negative, and
    kept within 0 and [len]. *)
Definition sliceIndex (len : nat) (x : number) : nat :=
  match x with
  | SpecFloat.S754_nan | SpecFloat.S754_zero _ => 0%nat
  | SpecFloat.S754_infinity negative => if negative then 0%nat else len
  | SpecFloat.S754_finite negative m e =>
      let k := Z.shiftl (Z.pos m) e in
      Z.to_nat (if negative && bool_decide (k ≠ 0)
                then Z.max (Z.of_nat len - k) 0
                else Z.min k (Z.of_nat len))
  end.

(** [l.slice(from, to)]. *)
Definition slice {A} (l : list A) (from to : number) : list A :=
  let k := sliceIndex (length l) from in
  let final := sliceIndex (length l) to in
  take (final - k) (drop k l).

End Number.

(** ** The data model ([src/types.ts]) *)

Inductive FileType : Type :=
| excel | csv | word | text | pdf | json | yaml | xml | html | markdown
| image | audio | video | unknown.

Global Instance FileType_eq_dec : EqDecision FileType.
Proof. solve_decision. Defined.

(** A cell of a sheet ([any] in the source). *)
Inductive Cell : Type :=
| CUndefined
| CNull
| CString (s : string)
| CNumber (n : Z)
| CBool (b : bool).

Record RawSheetData : Type := {
  name : string;
  headers : list string;
  rows : list (list Cell);
  totalRows : Z
}.

Record RawOutput : Type := { sheets : list RawSheetData }.

Record Metadata : Type := {
  size : option nat;
  mimeType : option string;
  sheetNames : option (list string);
  rowCount : option Z;
  truncated : option bool
}.

Record ParsedFile : Type := {
  fileName : string;
  url : string;
  type : FileType;
  content : string;
  success : bool;
  error : option string;
  rawData : option RawOutput;
  metadata : option Metadata
}.

Inductive OutputFormat : Type := FmtMarkdown | FmtJson | FmtCsv | FmtRaw.

Inductive AIProviderKind : Type := openai | gemini | anthropic | custom.

Record AIConfig : Type := {
  provider : AIProviderKind;
  maxRetries : option Z
}.

Record ExcelConfig : Type := {
  excel_maxRows : option Z;
  excel_allSheets : option bool;
  excel_outputFormat : option OutputFormat
}.

Record CsvConfig : Type := {
  csv_delimiter : option string;
  csv_maxRows : option Z;
  csv_outputFormat : option OutputFormat
}.

Record ParserConfig : Type := {
  ai : option AIConfig;
  excel_cfg : option ExcelConfig;
  csv_cfg : option CsvConfig
}.

Inductive OnError : Type := skip | include | error_.

Record BatchParseOptions : Type := {
  concurrency : option nat;
  continueOnError : option bool;
  onProgress : bool
}.

Record FormatOptions : Type := {
  includeTitle : option bool;
  includeUrl : option bool;
  separator : option string;
  onError : option OnError
}.

(** [a ?? b]. *)
Definition nullish {A} (a : option A) (b : A) : A := default b a.

(** [{ ...a, ...b }] on metadata: a field of [b] that is present wins. *)
Definition mergeMetadata (a b : Metadata) : Metadata :=
  {| size := from_option Some (size a) (size b);
     mimeType := from_option Some (mimeType a) (mimeType b);
     sheetNames := from_option Some (sheetNames a) (sheetNames b);
     rowCount := from_option Some (rowCount a) (rowCount b);
     truncated := from_option Some (truncated a) (truncated b) |}.

Definition noMetadata : Metadata :=
  {| size := None; mimeType := None; sheetNames := None;
     rowCount := None; truncated := None |}.

(** ** The collaborators of the engine *)

(** A decoded workbook: what [XLSX.read] returns, each worksheet already
    as the row matrix [XLSX.utils.sheet_to_json(ws, { header: 1 })] gives
    for it.  A row can be missing ([row || []] in the source). *)
Record Workbook : Type := {
  SheetNames : list string;
  Sheets : gmap string (list (option (list Cell)))
}.

(** What a chat endpoint answers to one POST: an error (network, status
    code), or a body with the text found at the place the provider reads
    ([EmptyString] when there is none). *)
Inductive Reply : Type :=
| ReplyError (message : string)
| ReplyText (text_ : string).

(** An object as [JSON.stringify] receives it: the assignments
    [row[key] = cell] in the order the code makes them. *)
Definition Assignments : Type := list (string * Cell).

Class Host : Type := {
  (** builtins of the runtime; [encodeURI] and [decodeURIComponent]
      throw a [URIError] on what they cannot encode or decode *)
  encodeURI : string → Outcome string;
  decodeURIComponent : string → Outcome string;
  path_extname : string → string;
  toLowerCase : string → string;
  JSON_stringify_rows : list Assignments → string;
  JSON_stringify_sheet : string → list Assignments → string;
  (** third-party and sibling decoders *)
  XLSX_read : string → Outcome Workbook;
  parseWord : string → string → Outcome (string * Metadata);
  parseText : string → string → Outcome (string * Metadata);
  parsePDF : string → string → Outcome (string * Metadata);
  parseJSON : string → string → Outcome (string * Metadata);
  parseYAML : string → string → Outcome (string * Metadata);
  parseXML : string → string → Outcome (string * Metadata);
  parseHTML : string → string → Outcome (string * Metadata);
  parseMarkdown : string → string → Outcome (string * Metadata);
  (** the network: the byte fetcher, the image download of the Gemini
      and Anthropic providers, and the reply to the [attempt]-th POST of
      a provider for an image, which the body gives by its encoded URL
      (OpenAI) or by the bytes downloaded from its URL (the others) *)
  axios_download : string → Outcome string;
  axios_get_image : string → Outcome unit;
  client_post : AIProviderKind → string → Z → Reply
}.

(** ** [src/parsers/csv.ts] *)

Module Csv.

Record CSVMetadata : Type := {
  rowCount : Z;
  truncated : bool
}.

Record CSVParseResult : Type := {
  content : string;
  rawData : option RawOutput;
  metadata : CSVMetadata
}.

(** The loop of [parseCSVLine] from position [i], where [line] is what
    is left of the line from [i] on.  The code reads the line by code
    unit: [char === delimiter] holds where the delimiter is one code
    unit and the line goes on with its bytes, and [skip] counts the
    bytes the loop passes over, those left of the unit just read and
    those of the unit that [i++] jumps. *)
Fixpoint parseCSVLine_from (line : string) (delimiter : string)
    (result : list string) (current : string) (inQuotes : bool)
    (skip : nat) : list string :=
  match line with
  | EmptyString => result ++ [Js.trim current]
  | String char rest =>
      match skip with
      | S skip' =>
          parseCSVLine_from rest delimiter result current inQuotes skip'
      | O =>
          if inQuotes then
            if Js.ceq char Js.dquote then
              match rest with
              | String nextChar _ =>
                  if Js.ceq nextChar Js.dquote then
                    parseCSVLine_from rest delimiter result
                      (current +:+ Js.chr Js.dquote) true 1
                  else
                    parseCSVLine_from rest delimiter result current false 0
              | EmptyString =>
                  parseCSVLine_from rest delimiter result current false 0
              end
            else
              parseCSVLine_from rest delimiter result
                (current +:+ Js.chr char) true 0
          else
            if Js.ceq char Js.dquote then
              parseCSVLine_from rest delimiter result current true 0
            else if Js.isUnit delimiter && Js.startsWith delimiter line then
              parseCSVLine_from rest delimiter
                (result ++ [Js.trim current]) EmptyString false
                (String.length delimiter - 1)
            else
              parseCSVLine_from rest delimiter result
                (current +:+ Js.chr char) false 0
      end
  end.

Definition parseCSVLine (line : string) (delimiter : string) : list string :=
  parseCSVLine_from line delimiter [] EmptyString false 0.

Definition escapeCell (cell : string) : string :=
  Js.replaceAll Js.pipe (Js.chr Js.backslash +:+ Js.chr Js.pipe) cell.

(** One line of the table: ["| " + cells.join(" | ") + " |\n"]. *)
Definition tableLine (cells : list string) : string :=
  "| " +:+ Js.join " | " cells +:+ " |" +:+ Js.chr Js.newline.

Definition formatAsMarkdown (rows : list (list string)) : string :=
  match rows with
  | [] => EmptyString
  | row0 :: body =>
      let header := map escapeCell row0 in
      tableLine header
      +:+ tableLine (map (λ _, "---"%string) header)
      +:+ String.concat EmptyString
            (map (λ row, tableLine (map escapeCell row)) body)
  end.

(** The object built for one row: [row[headers[idx] || `col${idx}`] = cell]. *)
Definition rowObject (headers : list string) (row : list string) : Assignments :=
  imap (λ idx cell,
          (Js.orElse (default EmptyString (headers !! idx))
             ("col" +:+ Js.ofNat idx),
           CString cell)) row.

Definition formatAsJSON `{Host} (rows : list (list string)) : string :=
  match rows with
  | [] => "[]"
  | headers :: body => JSON_stringify_rows (map (rowObject headers) body)
  end.

Definition parseCSV `{Host} (buffer : string) (fileName : string)
    (config : option CsvConfig) : CSVParseResult :=
  let delimiter := nullish (config ≫= csv_delimiter) "," in
  let maxRows := nullish (config ≫= csv_maxRows) (-1) in
  let outputFormat := nullish (config ≫= csv_outputFormat) FmtMarkdown in
  let text := Js.toString buffer in
  let lines := filter (λ line, Js.truthy (Js.trim line) = true)
                 (Js.splitLines text) in
  if bool_decide (length lines = 0%nat) then
    {| content := "空文件";
       rawData := None;
       metadata := {| rowCount := 0; truncated := false |} |}
  else
    let effectiveMaxRows :=
      if bool_decide (maxRows > 0) then maxRows else Z.of_nat (length lines) in
    let rowsToInclude := Z.min (Z.of_nat (length lines)) effectiveMaxRows in
    let truncated :=
      bool_decide (maxRows > 0) && bool_decide (Z.of_nat (length lines) > maxRows) in
    let parsedRows :=
      map (λ line, parseCSVLine line delimiter)
        (take (Z.to_nat rowsToInclude) lines) in
    let '(content, rawData) :=
      match outputFormat with
      | FmtRaw =>
          let headers := default [] (parsedRows !! 0%nat) in
          let rows := drop 1 parsedRows in
          ("【CSV】" +:+ Js.ofNat (length headers) +:+ " 列, "
             +:+ Js.ofNat (length rows) +:+ " 行",
           Some {| sheets :=
                     [ {| name := "CSV";
                          headers := headers;
                          rows := map (map CString) rows;
                          totalRows := Z.of_nat (length rows) |} ] |})
      | FmtMarkdown => (formatAsMarkdown parsedRows, None)
      | FmtJson => (formatAsJSON parsedRows, None)
      | FmtCsv =>
          (Js.join (Js.chr Js.newline)
             (map (λ row, Js.join delimiter row) parsedRows), None)
      end in
    let content :=
      if truncated then
        content +:+ Js.chr Js.newline +:+ Js.chr Js.newline
          +:+ "... 省略了 " +:+ Js.ofZ (Z.of_nat (length lines) - maxRows)
          +:+ " 行数据"
      else content in
    {| content := Js.trim content;
       rawData := rawData;
       metadata := {| rowCount := rowsToInclude; truncated := truncated |} |}.

End Csv.

(** ** [src/parsers/excel.ts] *)

Module Excel.

Record ExcelMetadata : Type := {
  sheetNames : list string;
  rowCount : Z;
  truncated : bool
}.

Record ExcelParseResult : Type := {
  content : string;
  rawData : option RawOutput;
  metadata : ExcelMetadata
}.

(** [String(cell)]. *)
Definition String_ (cell : Cell) : string :=
  match cell with
  | CUndefined => "undefined"
  | CNull => "null"
  | CString s => s
  | CNumber n => Js.ofZ n
  | CBool true => "true"
  | CBool false => "false"
  end.

(** [cell !== undefined && cell !== null]. *)
Definition present (cell : Cell) : bool :=
  match cell with CUndefined | CNull => false | _ => true end.

(** [row || []]. *)
Definition orEmpty (row : option (list Cell)) : list Cell := default [] row.

Definition markdownCell (cell : Cell) : string :=
  if present cell then Csv.escapeCell (Js.trim (String_ cell))
  else EmptyString.

Definition formatAsMarkdown (sheetName : string)
    (data : list (option (list Cell))) (maxRows : Z) : string :=
  let content :=
    Js.chr Js.newline +:+ "【工作表: " +:+ sheetName +:+ "】"
      +:+ Js.chr Js.newline in
  let content :=
    match data with
    | [] => content
    | row0 :: _ =>
        let header := map markdownCell (orEmpty row0) in
        let content :=
          content +:+ Csv.tableLine header
            +:+ Csv.tableLine (map (λ _, "---"%string) header) in
        (* for (i = 1; i < maxRows && i < data.length; i++) *)
        let content :=
          content +:+ String.concat EmptyString
            (map (λ row, Csv.tableLine (map markdownCell (orEmpty row)))
               (drop 1 (take (Z.to_nat maxRows) data))) in
        if bool_decide (Z.of_nat (length data) > maxRows) then
          content +:+ Js.chr Js.newline +:+ "... 省略了 "
            +:+ Js.ofZ (Z.of_nat (length data) - maxRows) +:+ " 行数据"
            +:+ Js.chr Js.newline
        else content
    end in
  content +:+ Js.chr Js.newline.

(** The object built for one row:
    [row[headers[idx] !== undefined ? String(headers[idx]) : `col${idx}`] = cell]. *)
Definition rowObject (headers : list Cell) (row : list Cell) : Assignments :=
  imap (λ idx cell,
          (match headers !! idx with
           | None | Some CUndefined => "col" +:+ Js.ofNat idx
           | Some h => String_ h
           end, cell)) row.

Definition formatAsJSON `{Host} (sheetName : string)
    (data : list (option (list Cell))) (maxRows : Z) : string :=
  let headers := orEmpty (default None (data !! 0%nat)) in
  let rows :=
    map (λ row, rowObject headers (orEmpty row))
      (drop 1 (take (Z.to_nat maxRows) data)) in
  JSON_stringify_sheet sheetName rows +:+ Js.chr Js.newline.

Definition csvField (cell : Cell) : string :=
  if present cell then
    let str := String_ cell in
    if Js.includes Js.comma str || Js.includes Js.dquote str
       || Js.includes Js.newline str
    then Js.chr Js.dquote
           +:+ Js.replaceAll Js.dquote (Js.chr Js.dquote +:+ Js.chr Js.dquote) str
           +:+ Js.chr Js.dquote
    else str
  else EmptyString.

Definition formatAsCSV (data : list (option (list Cell))) (maxRows : Z) : string :=
  String.concat EmptyString
    (map (λ row, Js.join "," (map csvField (orEmpty row)) +:+ Js.chr Js.newline)
       (take (Z.to_nat maxRows) data)).

(** [`${sheetName}`] and the key of [workbook.Sheets[sheetName]]:
    [sheetNames[0]] of a workbook without sheets is [undefined]. *)
Definition nameText (sheetName : option string) : string :=
  default "undefined"%string sheetName.

(** [XLSX.utils.sheet_to_json(workbook.Sheets[sheetName], { header: 1 })];
    a worksheet that does not exist has no rows. *)
Definition sheet_to_json (workbook : Workbook) (sheetName : option string)
    : list (option (list Cell)) :=
  default [] (Sheets workbook !! nameText sheetName).

(** The variables the loop over the sheets updates. *)
Record LoopState : Type := {
  st_content : string;
  st_totalRows : Z;
  st_truncated : bool;
  st_rawSheets : list RawSheetData
}.

Definition initialState : LoopState :=
  {| st_content := EmptyString; st_totalRows := 0;
     st_truncated := false; st_rawSheets := [] |}.

(** One iteration of [for (const sheetName of sheetsToProcess)]. *)
Definition sheetStep `{Host} (workbook : Workbook) (maxRows : Z)
    (outputFormat : OutputFormat) (st : LoopState)
    (sheetName : option string) : LoopState :=
  let jsonData := sheet_to_json workbook sheetName in
  if bool_decide (length jsonData = 0%nat) then st
  else
    let len := Z.of_nat (length jsonData) in
    let effectiveMaxRows := if bool_decide (maxRows > 0) then maxRows else len in
    let rowsToInclude := Z.min len effectiveMaxRows in
    let truncated :=
      if bool_decide (maxRows > 0) && bool_decide (len > maxRows) then true
      else st_truncated st in
    let '(content, rawSheets) :=
      match outputFormat with
      | FmtRaw =>
          let rows := map orEmpty (take (Z.to_nat rowsToInclude) jsonData) in
          (st_content st +:+ "【工作表: " +:+ nameText sheetName +:+ "】"
             +:+ Js.ofZ len +:+ " 行" +:+ Js.chr Js.newline,
           st_rawSheets st ++
             [ {| name := nameText sheetName;
                  headers := [];
                  rows := rows;
                  totalRows := len |} ])
      | FmtMarkdown =>
          (st_content st
             +:+ formatAsMarkdown (nameText sheetName) jsonData rowsToInclude,
           st_rawSheets st)
      | FmtJson =>
          (st_content st
             +:+ formatAsJSON (nameText sheetName) jsonData rowsToInclude,
           st_rawSheets st)
      | FmtCsv =>
          (st_content st +:+ formatAsCSV jsonData rowsToInclude,
           st_rawSheets st)
      end in
    {| st_content := content;
       st_totalRows := st_totalRows st + rowsToInclude;
       st_truncated := truncated;
       st_rawSheets := rawSheets |}.

(** [allSheets ? sheetNames : [sheetNames[0]]]. *)
Definition sheetsToProcess (workbook : Workbook) (allSheets : bool)
    : list (option string) :=
  if allSheets then map Some (SheetNames workbook)
  else [head (SheetNames workbook)].

(** [parseExcel] once the workbook is decoded. *)
Definition parseWorkbook `{Host} (workbook : Workbook)
    (config : option ExcelConfig) : ExcelParseResult :=
  let maxRows := nullish (config ≫= excel_maxRows) (-1) in
  let allSheets := nullish (config ≫= excel_allSheets) true in
  let outputFormat := nullish (config ≫= excel_outputFormat) FmtMarkdown in
  let st :=
    foldl (sheetStep workbook maxRows outputFormat) initialState
      (sheetsToProcess workbook allSheets) in
  {| content := Js.trim (st_content st);
     rawData :=
       match outputFormat with
       | FmtRaw => Some {| sheets := st_rawSheets st |}
       | _ => None
       end;
     metadata := {| sheetNames := SheetNames workbook;
                    rowCount := st_totalRows st;
                    truncated := st_truncated st |} |}.

Definition parseExcel `{Host} (buffer : string) (fileName : string)
    (config : option ExcelConfig) : Outcome ExcelParseResult :=
  match XLSX_read buffer with
  | Throw m => Throw m
  | Return workbook => Return (parseWorkbook workbook config)
  end.

End Excel.

(** ** [src/providers/openai.ts], [gemini.ts], [anthropic.ts], [index.ts] *)

Module Provider.

Record VisionRequest : Type := {
  imageUrl : string;
  prompt : option string;
  maxTokens : option Z
}.

(** What a provider does that the outside can observe. *)
Inductive Event : Type :=
| EvGetImage (url : string)
| EvPost (attempt : Z)
| EvSleep (ms : Z).

(** [this.config.maxRetries || 3]. *)
Definition effectiveRetries (config : AIConfig) : Z :=
  match maxRetries config with
  | Some n => if bool_decide (n = 0) then 3 else n
  | None => 3
  end.

(** [`图片识别失败: ${lastError?.message || "未知错误"}`]. *)
Definition failureMessage (lastError : option string) : string :=
  "图片识别失败: " +:+ Js.orElse (default EmptyString lastError) "未知错误".

Definition emptyReply : string := "AI 返回内容为空".

(** The iterations of
    [for (let attempt = 1; attempt <= maxRetries; attempt++)]
    that are left, with the statement after the loop. *)
Fixpoint attemptLoop (post : Z → Reply) (maxRetries : Z)
    (attempts : list Z) (lastError : option string)
    : Outcome string * list Event :=
  match attempts with
  | [] => (Throw (failureMessage lastError), [])
  | attempt :: rest =>
      let catch (message : string) :=
        let sleep :=
          if bool_decide (attempt < maxRetries)
          then [EvSleep (500 * attempt)] else [] in
        let '(result, trace) :=
          attemptLoop post maxRetries rest (Some message) in
        (result, EvPost attempt :: sleep ++ trace) in
      match post attempt with
      | ReplyText t =>
          if Js.truthy t then (Return t, [EvPost attempt])
          else catch emptyReply
      | ReplyError message => catch message
      end
  end.

(** The loop of a provider whose body carries [image]. *)
Definition retry `{Host} (kind : AIProviderKind) (config : AIConfig)
    (image : string) : Outcome string * list Event :=
  let maxRetries := effectiveRetries config in
  attemptLoop (client_post kind image) maxRetries (seqZ 1 maxRetries) None.

(** [fetchImageAsBase64] comes before the loop and outside any [try]. *)
Definition withImage `{Host} (kind : AIProviderKind) (config : AIConfig)
    (request : VisionRequest) : Outcome string * list Event :=
  match axios_get_image (imageUrl request) with
  | Throw message => (Throw message, [EvGetImage (imageUrl request)])
  | Return _ =>
      let '(result, trace) := retry kind config (imageUrl request) in
      (result, EvGetImage (imageUrl request) :: trace)
  end.

(** [encodeURI(request.imageUrl)] is evaluated for the body, before the
    loop and outside any [try]. *)
Definition OpenAIProvider_analyzeImage `{Host} (config : AIConfig)
    (request : VisionRequest) : Outcome string * list Event :=
  match encodeURI (imageUrl request) with
  | Throw message => (Throw message, [])
  | Return url => retry (provider config) config url
  end.

Definition GeminiProvider_analyzeImage `{Host} (config : AIConfig)
    (request : VisionRequest) : Outcome string * list Event :=
  withImage gemini config request.

Definition AnthropicProvider_analyzeImage `{Host} (config : AIConfig)
    (request : VisionRequest) : Outcome string * list Event :=
  withImage anthropic config request.

(** [createAIProvider(config).analyzeImage(request)]: the content of
    the response, or the error thrown, and what was done. *)
Definition analyzeImage `{Host} (config : AIConfig)
    (request : VisionRequest) : Outcome string * list Event :=
  match provider config with
  | openai | custom => OpenAIProvider_analyzeImage config request
  | gemini => GeminiProvider_analyzeImage config request
  | anthropic => AnthropicProvider_analyzeImage config request
  end.

Definition posts (trace : list Event) : list Z :=
  omap (λ e, match e with EvPost a => Some a | _ => None end) trace.

Definition sleeps (trace : list Event) : list Z :=
  omap (λ e, match e with EvSleep ms => Some ms | _ => None end) trace.

(** The attempts [a], ..., [k] of a call that stops at attempt [k]: a
    POST each, and a sleep of [500 * attempt] between two consecutive
    ones. *)
Definition attemptsFrom (a k : Z) : list Event :=
  flat_map (λ j, EvPost j ::
                   if bool_decide (j < k) then [EvSleep (500 * j)] else [])
    (seqZ a (k - a + 1)).

Definition attemptsUpTo (k : Z) : list Event := attemptsFrom 1 k.

(** The outcome of one attempt, as the [try] block sees it. *)
Definition attemptFailure (r : Reply) : option string :=
  match r with
  | ReplyError message => Some message
  | ReplyText t => if Js.truthy t then None else Some emptyReply
  end.

End Provider.

(** ** [src/parser.ts] *)

Global Instance Outcome_ret : MRet Outcome := λ A a, Return a.

Global Instance Outcome_bind : MBind Outcome := λ A B f o,
  match o with
  | Return a => f a
  | Throw m => Throw m
  end.

Module Parser.

Definition EXTENSION_MAP : gmap string FileType :=
  list_to_map
    [ (".xlsx", excel); (".xls", excel); (".csv", csv);
      (".docx", word); (".doc", word); (".txt", text); (".rtf", text);
      (".json", json); (".yaml", yaml); (".yml", yaml); (".xml", xml);
      (".html", html); (".htm", html); (".md", markdown);
      (".markdown", markdown);
      (".pdf", pdf);
      (".jpg", image); (".jpeg", image); (".png", image); (".gif", image);
      (".webp", image); (".bmp", image); (".svg", image); (".ico", image);
      (".tiff", image); (".tif", image);
      (".mp3", audio); (".wav", audio); (".ogg", audio); (".m4a", audio);
      (".flac", audio); (".aac", audio);
      (".mp4", video); (".avi", video); (".mov", video); (".webm", video);
      (".mkv", video) ].

Definition detectFileType `{Host} (filename : string) : FileType :=
  let ext := toLowerCase (path_extname filename) in
  default unknown (EXTENSION_MAP !! ext).

(** [decoded.split("/").pop()?.split("?")[0] || "unknown"], and
    ["unknown"] when decoding throws. *)
Definition extractFileName `{Host} (url : string) : string :=
  match decodeURIComponent url with
  | Throw _ => "unknown"
  | Return decoded =>
      let segment := default EmptyString (last (Js.splitOn Js.slash decoded)) in
      let filename := default EmptyString (head (Js.splitOn Js.qmark segment)) in
      Js.orElse filename "unknown"
  end.

Definition downloadFile `{Host} (url : string) : Outcome string :=
  axios_download url.

Definition mimeTypes : gmap string string :=
  list_to_map
    [ (".jpg", "image/jpeg"); (".jpeg", "image/jpeg"); (".png", "image/png");
      (".gif", "image/gif"); (".webp", "image/webp"); (".bmp", "image/bmp");
      (".svg", "image/svg+xml"); (".ico", "image/x-icon");
      (".pdf", "application/pdf");
      (".xlsx", "application/vnd.openxmlformats-officedocument.spreadsheetml.sheet");
      (".xls", "application/vnd.ms-excel");
      (".csv", "text/csv");
      (".docx", "application/vnd.openxmlformats-officedocument.wordprocessingml.document");
      (".doc", "application/msword");
      (".txt", "text/plain");
      (".json", "application/json"); (".yaml", "text/yaml");
      (".yml", "text/yaml"); (".xml", "application/xml");
      (".html", "text/html"); (".htm", "text/html"); (".md", "text/markdown");
      (".mp3", "audio/mpeg"); (".wav", "audio/wav"); (".ogg", "audio/ogg");
      (".m4a", "audio/m4a");
      (".mp4", "video/mp4"); (".avi", "video/x-msvideo");
      (".mov", "video/quicktime"); (".webm", "video/webm") ]%string.

Definition guessMimeType `{Host} (filename : string) : string :=
  let ext := toLowerCase (path_extname filename) in
  Js.orElse (default EmptyString (mimeTypes !! ext)) "application/octet-stream".

(** [{ mimeType: m }]. *)
Definition mimeOnly (m : string) : Metadata :=
  {| size := None; mimeType := Some m; sheetNames := None;
     rowCount := None; truncated := None |}.

(** The kinds [parseWithAI] accepts. *)
Inductive AIKind : Type := ai_image | ai_audio | ai_video | ai_pdf.

Definition kindType (kind : AIKind) : FileType :=
  match kind with
  | ai_image => image | ai_audio => audio | ai_video => video | ai_pdf => pdf
  end.

Definition prompts (kind : AIKind) : string :=
  match kind with
  | ai_image => "请详细分析这张图片的内容，包括产品信息、文字、型号等。"
  | ai_audio => "请转写并分析这段音频的内容。"
  | ai_video => "请分析这段视频的内容，描述关键信息。"
  | ai_pdf => "请分析这个 PDF 文档的内容，提取关键信息。"
  end.

Definition labels (kind : AIKind) : string :=
  match kind with
  | ai_image => "图片文件"
  | ai_audio => "音频文件"
  | ai_video => "视频文件"
  | ai_pdf => "PDF文档"
  end.

(** The placeholder of a file that no AI has read. *)
Definition linkHint (kind : AIKind) (fileName url : string) : string :=
  "[" +:+ labels kind +:+ "] " +:+ fileName +:+ Js.chr Js.newline
    +:+ "文件链接: " +:+ url +:+ Js.chr Js.newline
    +:+ "（需要配置 AI 才能解析此类型文件）".

(** The request [parseWithAI] sends for a file. *)
Definition aiRequest (url : string) (kind : AIKind) : Provider.VisionRequest :=
  {| Provider.imageUrl := url;
     Provider.prompt := Some (prompts kind);
     Provider.maxTokens :=
       Some (match kind with ai_pdf => 4000 | _ => 2000 end) |}.

Definition parseWithAI `{Host} (config : ParserConfig)
    (url fileName : string) (kind : AIKind) : ParsedFile :=
  let fallback :=
    {| fileName := fileName; url := url; type := kindType kind;
       content := linkHint kind fileName url;
       success := true; error := None; rawData := None;
       metadata := Some (mimeOnly (guessMimeType fileName)) |} in
  match ai config with
  | Some aiConfig =>
      match fst (Provider.analyzeImage aiConfig (aiRequest url kind)) with
      | Return result_content =>
          {| fileName := fileName; url := url; type := kindType kind;
             content := result_content;
             success := true; error := None; rawData := None;
             metadata := Some (mimeOnly (guessMimeType fileName)) |}
      | Throw _ => fallback
      end
  | None => fallback
  end.

Definition ofCsvMetadata (m : Csv.CSVMetadata) : Metadata :=
  {| size := None; mimeType := None; sheetNames := None;
     rowCount := Some (Csv.rowCount m);
     truncated := Some (Csv.truncated m) |}.

Definition ofExcelMetadata (m : Excel.ExcelMetadata) : Metadata :=
  {| size := None; mimeType := None;
     sheetNames := Some (Excel.sheetNames m);
     rowCount := Some (Excel.rowCount m);
     truncated := Some (Excel.truncated m) |}.

(** The decoder of a type that is read locally from the downloaded
    bytes: its content and metadata, or what it throws.  [None] for
    the types the [switch] has no case for. *)
Definition localDecoder `{Host} (config : ParserConfig) (fileType : FileType)
    (buffer fileName : string) : option (Outcome (string * Metadata)) :=
  match fileType with
  | excel =>
      Some (result ← Excel.parseExcel buffer fileName (excel_cfg config);
            mret (Excel.content result,
                  ofExcelMetadata (Excel.metadata result)))
  | csv =>
      let result := Csv.parseCSV buffer fileName (csv_cfg config) in
      Some (mret (Csv.content result, ofCsvMetadata (Csv.metadata result)))
  | word => Some (parseWord buffer fileName)
  | text => Some (parseText buffer fileName)
  | pdf => Some (parsePDF buffer fileName)
  | json => Some (parseJSON buffer fileName)
  | yaml => Some (parseYAML buffer fileName)
  | xml => Some (parseXML buffer fileName)
  | html => Some (parseHTML buffer fileName)
  | markdown => Some (parseMarkdown buffer fileName)
  | image | audio | video | unknown => None
  end.

Definition unsupported : string := "不支持的文件格式".

(** The [try] block of [parse]. *)
Definition parse_try `{Host} (config : ParserConfig)
    (url fileName : string) (fileType : FileType) : Outcome ParsedFile :=
  match fileType with
  | image => mret (parseWithAI config url fileName ai_image)
  | audio => mret (parseWithAI config url fileName ai_audio)
  | video => mret (parseWithAI config url fileName ai_video)
  | unknown =>
      mret {| fileName := fileName; url := url; type := unknown;
              content := "[未知格式] " +:+ fileName;
              success := false; error := Some unsupported;
              rawData := None; metadata := None |}
  | _ =>
      buffer ← downloadFile url;
      let metadata0 :=
        {| size := Some (String.length buffer); mimeType := None;
           sheetNames := None; rowCount := None; truncated := None |} in
      let finish (content : string) (metadata : Metadata) :=
        {| fileName := fileName; url := url; type := fileType;
           content := content; success := true; error := None;
           rawData := None; metadata := Some metadata |} in
      match localDecoder config fileType buffer fileName with
      | None => mret (finish EmptyString metadata0)
      | Some decoded =>
          match fileType, decoded with
          | pdf, Throw _ => mret (parseWithAI config url fileName ai_pdf)
          | _, _ =>
              '(content, metadata) ← decoded;
              mret (finish content (mergeMetadata metadata0 metadata))
          end
      end
  end.

(** [parse]: the [catch] turns whatever the block throws into a
    record. *)
Definition parse `{Host} (config : ParserConfig) (url : string) : ParsedFile :=
  let fileName := extractFileName url in
  let fileType := detectFileType fileName in
  match parse_try config url fileName fileType with
  | Return file => file
  | Throw message =>
      {| fileName := fileName; url := url; type := fileType;
         content := EmptyString; success := false;
         error := Some message; rawData := None; metadata := None |}
  end.

(** *** [parseMany] *)

(** What the batch scheduler does that the outside can observe: a
    chunk handed to [Promise.all], and a call of [onProgress]. *)
Inductive BatchEvent : Type :=
| EvChunk (batch : list string)
| EvProgress (completed total : nat) (current : ParsedFile).

(** The callback given to [batch.map]. *)
Definition guarded `{Host} (parseFn : string → Outcome ParsedFile)
    (continueOnError : bool) (url : string) : Outcome ParsedFile :=
  match parseFn url with
  | Return file => Return file
  | Throw message =>
      if negb continueOnError then Throw message
      else
        Return {| fileName := extractFileName url; url := url;
                  type := unknown; content := EmptyString;
                  success := false; error := Some message;
                  rawData := None; metadata := None |}
  end.

(** [await Promise.all(promises)]: the values in the order of the
    promises, or a rejection (here the first in that order). *)
Fixpoint Promise_all {A} (promises : list (Outcome A)) : Outcome (list A) :=
  match promises with
  | [] => Return []
  | p :: ps => a ← p; as_ ← Promise_all ps; mret (a :: as_)
  end.

(** The variables the loops of [parseMany] update. *)
Record BatchState : Type := {
  results : list ParsedFile;
  completed : nat;
  trace : list BatchEvent
}.

(** One iteration of [for (const result of batchResults)]. *)
Definition settle (onProgress : bool) (total : nat) (st : BatchState)
    (result : ParsedFile) : BatchState :=
  {| results := results st ++ [result];
     completed := S (completed st);
     trace := trace st ++
                if onProgress
                then [EvProgress (S (completed st)) total result] else [] |}.

(** [for (let i = 0; i < urls.length; i += concurrency)] from [i] on;
    [None] when [fuel] iterations do not reach the end of the loop. *)
Fixpoint parseMany_from `{Host} (parseFn : string → Outcome ParsedFile)
    (urls : list string) (concurrency : nat) (continueOnError onProgress : bool)
    (fuel : nat) (i : nat) (st : BatchState)
    : option (Outcome (list ParsedFile) * list BatchEvent) :=
  if bool_decide (i < length urls)%nat then
    match fuel with
    | O => None
    | S fuel' =>
        let batch := take concurrency (drop i urls) in
        let st := {| results := results st; completed := completed st;
                     trace := trace st ++ [EvChunk batch] |} in
        match Promise_all (map (guarded parseFn continueOnError) batch) with
        | Throw message => Some (Throw message, trace st)
        | Return batchResults =>
            parseMany_from parseFn urls concurrency continueOnError
              onProgress fuel' (i + concurrency)%nat
              (foldl (settle onProgress (length urls)) st batchResults)
        end
    end
  else Some (Return (results st), trace st).

Definition parseManyWith `{Host} (parseFn : string → Outcome ParsedFile)
    (urls : list string) (options : option BatchParseOptions)
    : option (Outcome (list ParsedFile) * list BatchEvent) :=
  let concurrency := nullish (options ≫= concurrency) 3%nat in
  let continueOnError := nullish (options ≫= continueOnError) true in
  let onProgress := default false (onProgress <$> options) in
  parseMany_from parseFn urls concurrency continueOnError onProgress
    (length urls) 0%nat
    {| results := []; completed := 0%nat; trace := [] |}.

(** [parseMany]: the loop runs [this.parse], which returns a record
    whatever happens. *)
Definition parseMany `{Host} (config : ParserConfig)
    (urls : list string) (options : option BatchParseOptions)
    : option (Outcome (list ParsedFile) * list BatchEvent) :=
  parseManyWith (λ url, Return (parse config url)) urls options.

(** The same loop with [i] and [concurrency] as the runtime has them,
    any numbers: [i < urls.length], [urls.slice(i, i + concurrency)]
    and [i += concurrency] are those of binary64 values. *)
Fixpoint parseMany_number_from `{Host} (parseFn : string → Outcome ParsedFile)
    (urls : list string) (concurrency : Number.number)
    (continueOnError onProgress : bool)
    (fuel : nat) (i : Number.number) (st : BatchState)
    : option (Outcome (list ParsedFile) * list BatchEvent) :=
  if Number.ltb i (Number.ofNat (length urls)) then
    match fuel with
    | O => None
    | S fuel' =>
        let batch := Number.slice urls i (Number.add i concurrency) in
        let st := {| results := results st; completed := completed st;
                     trace := trace st ++ [EvChunk batch] |} in
        match Promise_all (map (guarded parseFn continueOnError) batch) with
        | Throw message => Some (Throw message, trace st)
        | Return batchResults =>
            parseMany_number_from parseFn urls concurrency continueOnError
              onProgress fuel' (Number.add i concurrency)
              (foldl (settle onProgress (length urls)) st batchResults)
        end
    end
  else Some (Return (results st), trace st).

(** [parseMany] for a [concurrency] that is any number, [None] when
    [fuel] iterations of the loop do not reach its end. *)
Definition parseMany_number `{Host} (config : ParserConfig)
    (urls : list string) (concurrency : option Number.number)
    (continueOnError : option bool) (onProgress : bool) (fuel : nat)
    : option (Outcome (list ParsedFile) * list BatchEvent) :=
  parseMany_number_from (λ url, Return (parse config url)) urls
    (nullish concurrency (Number.ofZ 3)) (nullish continueOnError true)
    onProgress fuel (Number.ofZ 0)
    {| results := []; completed := 0%nat; trace := [] |}.

Definition chunks (trace : list BatchEvent) : list (list string) :=
  omap (λ e, match e with EvChunk b => Some b | _ => None end) trace.

Definition progress (trace : list BatchEvent) : list (nat * nat * ParsedFile) :=
  omap (λ e, match e with
             | EvProgress c t r => Some (c, t, r)
             | _ => None
             end) trace.

(** *** [format] *)

Definition getTypeLabel (type : FileType) : string :=
  match type with
  | excel => "表格"
  | csv => "表格"
  | word => "文档"
  | text => "文本"
  | pdf => "PDF"
  | json => "JSON"
  | yaml => "YAML"
  | xml => "XML"
  | html => "网页"
  | markdown => "Markdown"
  | image => "图片"
  | audio => "音频"
  | video => "视频"
  | unknown => "文件"
  end.

(** [`${file.error}`]. *)
Definition errorText (file : ParsedFile) : string :=
  default "undefined"%string (error file).

Definition abortMessage (file : ParsedFile) : string :=
  "文件解析失败: " +:+ fileName file +:+ " - " +:+ errorText file.

Definition failureNote (file : ParsedFile) : string :=
  "【" +:+ fileName file +:+ "】解析失败: " +:+ errorText file.

(** The text pushed for a successful record. *)
Definition block (includeTitle includeUrl : bool) (file : ParsedFile) : string :=
  let text := EmptyString in
  let text :=
    if includeTitle
    then text +:+ "【" +:+ getTypeLabel (type file) +:+ "】"
           +:+ fileName file +:+ Js.chr Js.newline
    else text in
  let text :=
    if includeUrl
    then text +:+ "URL: " +:+ url file +:+ Js.chr Js.newline
    else text in
  text +:+ content file.

(** [for (const file of files)] with [parts] so far. *)
Fixpoint format_from (includeTitle includeUrl : bool) (onError : OnError)
    (files : list ParsedFile) (parts : list string) : Outcome (list string) :=
  match files with
  | [] => Return parts
  | file :: rest =>
      if negb (success file) then
        match onError with
        | skip => format_from includeTitle includeUrl onError rest parts
        | error_ => Throw (abortMessage file)
        | include =>
            format_from includeTitle includeUrl onError rest
              (parts ++ [failureNote file])
        end
      else
        format_from includeTitle includeUrl onError rest
          (parts ++ [block includeTitle includeUrl file])
  end.

Definition format (files : list ParsedFile) (options : option FormatOptions)
    : Outcome string :=
  let includeTitle := nullish (options ≫= includeTitle) true in
  let includeUrl := nullish (options ≫= includeUrl) false in
  let separator := nullish (options ≫= separator) "---"%string in
  let onError := nullish (options ≫= onError) skip in
  parts ← format_from includeTitle includeUrl onError files [];
  mret (Js.join (Js.chr Js.newline +:+ separator +:+ Js.chr Js.newline) parts).

End Parser.

(** ** Reading the results *)

Module Reading.

Definition startsWithPipe (line : string) : bool :=
  match line with
  | String c _ => Js.ceq c Js.pipe
  | EmptyString => false
  end.

(** The data rows of a rendered table: its lines after the header
    line and the separator line. *)
Definition dataRows (content : string) : list string :=
  filter (λ line, startsWithPipe line = true)
    (drop 2 (Js.splitOn Js.newline content)).

(** The rows of the text that [parseCSV] keeps: the lines that are
    not blank. *)
Definition sourceRows (buffer : string) : list string :=
  filter (λ line, Js.truthy (Js.trim line) = true)
    (Js.splitLines (Js.toString buffer)).

(** The sheets the loop of [parseExcel] goes through. *)
Definition processed (workbook : Workbook) (config : option ExcelConfig)
    : list (option string) :=
  Excel.sheetsToProcess workbook (nullish (config ≫= excel_allSheets) true).

(** [min(total, maxRows > 0 ? maxRows : total)]. *)
Definition included (total maxRows : Z) : Z :=
  Z.min total (if bool_decide (maxRows > 0) then maxRows else total).

(** What the loop of [parseExcel] adds to [rawSheets] for one sheet
    in raw format: nothing for a sheet without rows. *)
Definition rawSheetOf (workbook : Workbook) (maxRows : Z)
    (sheetName : option string) : list RawSheetData :=
  let jsonData := Excel.sheet_to_json workbook sheetName in
  let total := Z.of_nat (length jsonData) in
  if bool_decide (length jsonData = 0%nat) then []
  else [ {| name := Excel.nameText sheetName;
            headers := [];
            rows := map Excel.orEmpty
                      (take (Z.to_nat (included total maxRows)) jsonData);
            totalRows := total |} ].

(** The footer of a truncated table. *)
Definition omitted (n : Z) : string :=
  Js.chr Js.newline +:+ Js.chr Js.newline
    +:+ "... 省略了 " +:+ Js.ofZ n +:+ " 行数据".

(** What an observer of a batch sees when the chunks in [batches] are
    processed one after the other, [done] records being settled
    before: each chunk is handed over as a whole, then its records
    are reported in the order of its URLs. *)
Fixpoint schedule (parseFn : string → ParsedFile) (report : bool)
    (total : nat) (done : nat) (batches : list (list string))
    : list Parser.BatchEvent :=
  match batches with
  | [] => []
  | batch :: rest =>
      Parser.EvChunk batch
        :: (if report
            then imap (λ k u, Parser.EvProgress (done + k + 1) total (parseFn u))
                   batch
            else [])
        ++ schedule parseFn report total (done + length batch) rest
  end.

(** The step a provider makes before its loop has succeeded, and
    [image] is what the body of its POSTs carries for the image: the
    URL as [encodeURI] returns it for OpenAI, the URL the image was
    downloaded from for Gemini and Anthropic. *)
Definition imageReady `{Host} (config : AIConfig)
    (request : Provider.VisionRequest) (image : string) : Prop :=
  match provider config with
  | gemini | anthropic =>
      isReturn (axios_get_image (Provider.imageUrl request)) = true
      ∧ image = Provider.imageUrl request
  | openai | custom => encodeURI (Provider.imageUrl request) = Return image
  end.

(** The events of a call before its first attempt. *)
Definition preamble (config : AIConfig) (request : Provider.VisionRequest)
    : list Provider.Event :=
  match provider config with
  | gemini | anthropic => [Provider.EvGetImage (Provider.imageUrl request)]
  | openai | custom => []
  end.

(** No provider is configured, or the call of the provider that
    [parseWithAI] makes for [u] fails. *)
Definition aiUnavailable `{Host} (config : ParserConfig) (u : string)
    (kind : Parser.AIKind) : Prop :=
  match ai config with
  | None => True
  | Some aiConfig =>
      isReturn (fst (Provider.analyzeImage aiConfig (Parser.aiRequest u kind)))
      = false
  end.

(** The number [x] is the integer [k], which is not negative and is
    below [2 ^ 53]: zero, or a mantissa of 53 bits that is [k] shifted
    to the left. *)
Definition integer (x : Number.number) (k : Z) : Prop :=
  match x with
  | SpecFloat.S754_zero false => k = 0
  | SpecFloat.S754_finite false m e =>
      e ≤ 0 ∧ Z.pos (SpecFloat.digits2_pos m) = 53 ∧ Z.pos m = k * 2 ^ (- e)
  | _ => False
  end.

(** A list cut into consecutive pieces of [c] elements, the last one
    of what is left. *)
Fixpoint chunks_fuel {A} (fuel c : nat) (l : list A) : list (list A) :=
  match fuel with
  | O => []
  | S fuel' =>
      match l with
      | [] => []
      | _ :: _ => take c l :: chunks_fuel fuel' c (drop c l)
      end
  end.

Definition chunksOf {A} (c : nat) (l : list A) : list (list A) :=
  chunks_fuel (length l) c l.

(** The options of [parseMany] with their defaults. *)
Definition chunkSize (options : option BatchParseOptions) : nat :=
  nullish (options ≫= concurrency) 3%nat.

Definition reporting (options : option BatchParseOptions) : bool :=
  default false (onProgress <$> options).

(** The options of [format] with their defaults. *)
Definition policy (options : option FormatOptions) : OnError :=
  nullish (options ≫= onError) skip.

Definition blockOf (options : option FormatOptions) (file : ParsedFile) : string :=
  Parser.block (nullish (options ≫= includeTitle) true)
    (nullish (options ≫= includeUrl) false) file.

(** The blocks joined with ["\n<separator>\n"]. *)
Definition glue (options : option FormatOptions) (parts : list string) : string :=
  Js.join (Js.chr Js.newline +:+ nullish (options ≫= separator) "---"%string
             +:+ Js.chr Js.newline) parts.

End Reading.

(** ** A host to run the engine on *)

Module Sample.

(** The extension of a file name without directories: from its last
    dot on, when that dot is not its first character. *)
Fixpoint extname_from (s : string) : option string :=
  match s with
  | EmptyString => None
  | String c s' =>
      match extname_from s' with
      | Some e => Some e
      | None => if Js.ceq c "."%char then Some s else None
      end
  end.

Definition extname (s : string) : string :=
  match s with
  | EmptyString => EmptyString
  | String c s' => default EmptyString (extname_from s')
  end.

Definition lower (c : ascii) : ascii :=
  let n := nat_of_ascii c in
  if bool_decide (65 ≤ n)%nat && bool_decide (n ≤ 90)%nat
  then ascii_of_nat (n + 32) else c.

Fixpoint toLower (s : string) : string :=
  match s with
  | EmptyString => EmptyString
  | String c s' => String (lower c) (toLower s')
  end.

Definition noDecoder (buffer fileName : string) : Outcome (string * Metadata) :=
  Return (buffer, noMetadata).

(** The characters [encodeURI] leaves as they are: letters, digits and
    [;/?:@&=+$,-_.!~*'()#]. *)
Definition unescaped (c : ascii) : bool :=
  let n := nat_of_ascii c in
  bool_decide (48 ≤ n ≤ 57)%nat || bool_decide (65 ≤ n ≤ 90)%nat
  || bool_decide (97 ≤ n ≤ 122)%nat
  || Js.includes c ";/?:@&=+$,-_.!~*'()#".

Definition hexDigit (n : nat) : ascii :=
  ascii_of_nat (if bool_decide (n < 10)%nat then 48 + n else 55 + n).

(** [encodeURI] of a text: each of its other bytes as [%XX]. *)
Fixpoint encode (s : string) : string :=
  match s with
  | EmptyString => EmptyString
  | String c s' =>
      if unescaped c then String c (encode s')
      else
        let n := nat_of_ascii c in
        String "%" (String (hexDigit (n / 16)) (String (hexDigit (n mod 16))
                                                  (encode s')))
  end.

(** A host whose network answers [download] to the byte fetcher,
    [image] to the image download of a provider and [replies] to the
    POSTs of a provider, and whose workbook decoder finds [workbook]. *)
Definition host (download : string → Outcome string)
    (workbook : Outcome Workbook) (image : Outcome unit)
    (replies : Z → Reply) : Host :=
  {| encodeURI := λ s, Return (encode s);
     decodeURIComponent := λ s, Return s;
     path_extname := extname;
     toLowerCase := toLower;
     JSON_stringify_rows := λ _, "[]"%string;
     JSON_stringify_sheet := λ _ _, "{}"%string;
     XLSX_read := λ _, workbook;
     parseWord := noDecoder;
     parseText := noDecoder;
     parsePDF := noDecoder;
     parseJSON := noDecoder;
     parseYAML := noDecoder;
     parseXML := noDecoder;
     parseHTML := noDecoder;
     parseMarkdown := noDecoder;
     axios_download := download;
     axios_get_image := λ _, image;
     client_post := λ _ _, replies |}.

Definition offline : Host :=
  host (λ _, Throw "Network Error"%string) (Throw "no workbook"%string)
    (Throw "Network Error"%string) (λ _, ReplyError "Network Error"%string).

Definition serving (body : string) : Host :=
  host (λ _, Return body) (Throw "no workbook"%string)
    (Throw "Network Error"%string) (λ _, ReplyError "Network Error"%string).

Definition answering (replies : Z → Reply) : Host :=
  host (λ _, Throw "Network Error"%string) (Throw "no workbook"%string)
    (Return ()) replies.

Definition lines (l : list string) : string :=
  Js.join (Js.chr Js.newline) l.

Definition noAI : ParserConfig :=
  {| ai := None; excel_cfg := None; csv_cfg := None |}.

Definition withAI (kind : AIProviderKind) (n : option Z) : ParserConfig :=
  {| ai := Some {| provider := kind; maxRetries := n |};
     excel_cfg := None; csv_cfg := None |}.

Definition csvConfig (maxRows : Z) (fmt : OutputFormat) : option CsvConfig :=
  Some {| csv_delimiter := None; csv_maxRows := Some maxRows;
          csv_outputFormat := Some fmt |}.

Definition excelConfig (maxRows : Z) (fmt : OutputFormat) : option ExcelConfig :=
  Some {| excel_maxRows := Some maxRows; excel_allSheets := None;
          excel_outputFormat := Some fmt |}.

Definition record (fname : string) (ok : bool) : ParsedFile :=
  {| fileName := fname; url := "http://x.com/" +:+ fname; type := text;
     content := if ok then "content of " +:+ fname else EmptyString;
     success := ok;
     error := if ok then None else Some "timeout"%string;
     rawData := None; metadata := None |}.

Definition onlyPolicy (p : OnError) : option FormatOptions :=
  Some {| includeTitle := None; includeUrl := None; separator := None;
          onError := Some p |}.

Definition request : Provider.VisionRequest :=
  {| Provider.imageUrl := "http://x.com/a.png"; Provider.prompt := None;
     Provider.maxTokens := None |}.

Definition retries (kind : AIProviderKind) (n : Z) : AIConfig :=
  {| provider := kind; maxRetries := Some n |}.

(** Every POST fails but the [k]-th, which answers ["ok"]. *)
Definition okAt (k : Z) (attempt : Z) : Reply :=
  if bool_decide (attempt = k) then ReplyText "ok" else ReplyError "503".

Definition fiveUrls : list string :=
  ["a.png"; "b.xyz"; "c.csv"; "d.png"; "e.png"]%string.

Definition inChunksOf (c : nat) (report : bool) : option BatchParseOptions :=
  Some {| concurrency := Some c; continueOnError := None;
          onProgress := report |}.

Definition row (cells : list string) : option (list Cell) :=
  Some (map CString cells).

(** A workbook of three sheets with 2, 5 and 1 rows. *)
Definition threeSheets : Workbook :=
  {| SheetNames := ["S1"; "S2"; "S3"]%string;
     Sheets :=
       list_to_map
         [ ("S1", [row ["a"; "b"]; row ["1"; "2"]]);
           ("S2", [row ["h"]; row ["1"]; row ["2"]; row ["3"]; row ["4"]]);
           ("S3", [row ["x"]]) ]%string |}.

Definition threeRows : string := lines ["a,b"; "1,2"; "3,4"]%string.

(** The cells [x] and [He said 'hi', ok] with double quotes for the
    single ones, the second cell written between quotes with its
    quotes doubled. *)
Definition quotedLine : string :=
  "x," +:+ Js.chr Js.dquote +:+ "He said " +:+ Js.chr Js.dquote
    +:+ Js.chr Js.dquote +:+ "hi" +:+ Js.chr Js.dquote +:+ Js.chr Js.dquote
    +:+ ", ok" +:+ Js.chr Js.dquote.

Definition tenRows : string :=
  lines ["r1"; "r2"; "r3"; "r4"; "r5"; "r6"; "r7"; "r8"; "r9"; "r10"]%string.

End Sample.

(** ** Hosts that differ in one collaborator *)

Module Hosts.

(** The host [h] with another byte fetcher and other decoders. *)
Definition withLocal (h : Host) (download : string → Outcome string)
    (read : string → Outcome Workbook)
    (decode : string → string → Outcome (string * Metadata)) : Host :=
  {| encodeURI := @encodeURI h;
     decodeURIComponent := @decodeURIComponent h;
     path_extname := @path_extname h;
     toLowerCase := @toLowerCase h;
     JSON_stringify_rows := @JSON_stringify_rows h;
     JSON_stringify_sheet := @JSON_stringify_sheet h;
     XLSX_read := read;
     parseWord := decode;
     parseText := decode;
     parsePDF := decode;
     parseJSON := decode;
     parseYAML := decode;
     parseXML := decode;
     parseHTML := decode;
     parseMarkdown := decode;
     axios_download := download;
     axios_get_image := @axios_get_image h;
     client_post := @client_post h |}.

End Hosts.

(** ** The routes of [parse] *)

Module Routes.

(** The types [parse] reads from the downloaded bytes: those that are
    neither handed to [parseWithAI] at once nor refused. *)
Definition readLocally (fileType : FileType) : bool :=
  match fileType with
  | image | audio | video | unknown => false
  | _ => true
  end.

(** The record the [catch] of [parse] builds. *)
Definition failed (fname u : string) (fileType : FileType)
    (message : string) : ParsedFile :=
  {| fileName := fname; url := u; type := fileType;
     content := EmptyString; success := false;
     error := Some message; rawData := None; metadata := None |}.

(** The record [parse] builds from what a decoder returns. *)
Definition decoded (fname u : string) (fileType : FileType)
    (buffer content : string) (metadata : Metadata) : ParsedFile :=
  {| fileName := fname; url := u; type := fileType;
     content := content; success := true; error := None; rawData := None;
     metadata :=
       Some (mergeMetadata
               {| size := Some (String.length buffer); mimeType := None;
                  sheetNames := None; rowCount := None; truncated := None |}
               metadata) |}.

End Routes.

(** ** Counting in a text *)

Module Text.


(** How many pipes of [s] do not come right after a backslash, the
    character before [s] being a backslash or not. *)
Fixpoint barePipes_after (backslash : bool) (s : string) : nat :=
  match s with
  | EmptyString => 0
  | String c s' =>
      (if Js.ceq c Js.pipe && negb backslash then 1 else 0)
      + barePipes_after (Js.ceq c Js.backslash) s'
  end.

Definition barePipes (s : string) : nat := barePipes_after false s.

(** The text [formatAsCSV] writes for a cell, before quoting. *)
Definition ofCell (cell : Cell) : string :=
  if Excel.present cell then Excel.String_ cell else EmptyString.

End Text.

(** ** Counting rows *)

Module Counts.

(** The rows of the sheets [sheetNames] of a workbook, all together. *)
Definition sourceRows (workbook : Workbook)
    (sheetNames : list (option string)) : Z :=
  foldr (λ sheetName n,
           Z.of_nat (length (Excel.sheet_to_json workbook sheetName)) + n)
    0 sheetNames.

(** The rows of these sheets that are kept under [maxRows]. *)
Definition keptRows (workbook : Workbook) (maxRows : Z)
    (sheetNames : list (option string)) : Z :=
  foldr (λ sheetName n,
           Reading.included
             (Z.of_nat (length (Excel.sheet_to_json workbook sheetName)))
             maxRows + n)
    0 sheetNames.

End Counts.

(** ** Adding up *)

Module Sum.

Definition ofZ (l : list Z) : Z := foldr Z.add 0 l.

End Sum.

(** ** [src/index.ts] *)

Module Index.

(** The parser behind the functions of the package: [defaultParser],
    [null] until it is needed or configured.  A [FileParser] is known
    by the configuration it was made with. *)
Definition State : Type := option ParserConfig.

(** [new FileParser()]. *)
Definition emptyConfig : ParserConfig :=
  {| ai := None; excel_cfg := None; csv_cfg := None |}.

Definition getDefaultParser (st : State) : ParserConfig * State :=
  match st with
  | Some parser => (parser, st)
  | None => (emptyConfig, Some emptyConfig)
  end.

Definition configure (config : ParserConfig) (st : State)
    : ParserConfig * State :=
  (config, Some config).

(** [config ? new FileParser(config) : getDefaultParser()]. *)
Definition parserFor (config : option ParserConfig) (st : State)
    : ParserConfig * State :=
  match config with
  | Some c => (c, st)
  | None => getDefaultParser st
  end.

Definition parse `{Host} (u : string) (config : option ParserConfig)
    (st : State) : ParsedFile * State :=
  let '(parser, st) := parserFor config st in
  (Parser.parse parser u, st).

Definition parseMany `{Host} (urls : list string)
    (options : option BatchParseOptions) (config : option ParserConfig)
    (st : State)
    : option (Outcome (list ParsedFile) * list Parser.BatchEvent) * State :=
  let '(parser, st) := parserFor config st in
  (Parser.parseMany parser urls options, st).

(** [parseAndFormat]: [None] when [parseMany] does not return. *)
Definition parseAndFormat `{Host} (urls : list string)
    (formatOptions : option FormatOptions) (config : option ParserConfig)
    (st : State) : option (Outcome string) * State :=
  let '(parser, st) := parserFor config st in
  (match Parser.parseMany parser urls None with
   | None => None
   | Some (Throw message, _) => Some (Throw message)
   | Some (Return files, _) => Some (Parser.format files formatOptions)
   end, st).

Definition detectFileType `{Host} (filename : string) (st : State)
    : FileType * State :=
  let '(_, st) := getDefaultParser st in
  (Parser.detectFileType filename, st).

Definition extractFileName `{Host} (u : string) (st : State)
    : string * State :=
  let '(_, st) := getDefaultParser st in
  (Parser.extractFileName u, st).

End Index.

(** ** Records that stand for an exception *)

Module Rescue.

(** The record [parseMany] puts in the place of a URL whose parsing
    threw, when it goes on. *)
Definition converted `{Host} (u message : string) : ParsedFile :=
  {| fileName := Parser.extractFileName u; url := u; type := unknown;
     content := EmptyString; success := false; error := Some message;
     rawData := None; metadata := None |}.

Definition orConverted `{Host} (parseFn : string → Outcome ParsedFile)
    (u : string) : ParsedFile :=
  match parseFn u with
  | Return file => file
  | Throw message => converted u message
  end.

End Rescue.

(** ** [src/providers/gemini.ts]: the base URL and the image *)

Module Gemini.

(** [s.replace(/c+$/, empty)] for a character [c]: [s] without the [c]s
    at its end. *)
Fixpoint dropTrailing (c : ascii) (s : string) : string :=
  match s with
  | EmptyString => EmptyString
  | String d s' =>
      match dropTrailing c s' with
      | EmptyString => if Js.ceq d c then EmptyString else Js.chr d
      | t => String d t
      end
  end.

(** [s.endsWith(suffix)]. *)
Fixpoint endsWith (suffix s : string) : bool :=
  Js.seq s suffix ||
  match s with
  | EmptyString => false
  | String _ s' => endsWith suffix s'
  end.

Definition defaultBaseURL : string := "https://generativelanguage.googleapis.com".

(** The base URL the constructor of [GeminiProvider] gives its client,
    from [config.baseURL]. *)
Definition baseURL (configured : option string) : string :=
  let baseURL := Js.orElse (default EmptyString configured) defaultBaseURL in
  let baseURL := dropTrailing Js.slash baseURL in
  if negb (endsWith "/v1beta" baseURL) then baseURL +:+ "/v1beta"
  else baseURL.

Definition semicolon : ascii := ascii_of_nat 59.

(** The MIME type [fetchImageAsBase64] infers from the [content-type]
    header of the image (also in [anthropic.ts]). *)
Definition mimeType (contentType : option string) : string :=
  let mimeType := Js.orElse (default EmptyString contentType) "image/jpeg" in
  if Js.includes semicolon mimeType
  then Js.trim (default EmptyString (head (Js.splitOn semicolon mimeType)))
  else mimeType.

End Gemini.

(** ** [src/parser.ts]: the list of the supported formats *)

Module Formats.

(** The entries of [EXTENSION_MAP] in the order they are written, which
    is the order of [Object.entries]. *)
Definition EXTENSION_ENTRIES : list (string * FileType) :=
  [ (".xlsx", excel); (".xls", excel); (".csv", csv);
    (".docx", word); (".doc", word); (".txt", text); (".rtf", text);
    (".json", json); (".yaml", yaml); (".yml", yaml); (".xml", xml);
    (".html", html); (".htm", html); (".md", markdown);
    (".markdown", markdown);
    (".pdf", pdf);
    (".jpg", image); (".jpeg", image); (".png", image); (".gif", image);
    (".webp", image); (".bmp", image); (".svg", image); (".ico", image);
    (".tiff", image); (".tif", image);
    (".mp3", audio); (".wav", audio); (".ogg", audio); (".m4a", audio);
    (".flac", audio); (".aac", audio);
    (".mp4", video); (".avi", video); (".mov", video); (".webm", video);
    (".mkv", video) ]%string.

Definition method (type : FileType) : string :=
  match type with
  | image | audio | video => "AI 识别"
  | pdf => "本地解析 / AI 降级"
  | _ => "本地解析"
  end.

Record Format : Type := {
  extension : string;
  type_ : FileType;
  method_ : string
}.

Definition getSupportedFormats : list Format :=
  map (λ '(ext, type),
         {| extension := ext; type_ := type; method_ := method type |})
    EXTENSION_ENTRIES.

End Formats.

(** * Properties *)

(** ** Strings *)

Lemma append_nil_l (s : string) : EmptyString +:+ s = s.
Proof. reflexivity. Qed.

Lemma append_cons (c : ascii) (s t : string) :
  String c s +:+ t = String c (s +:+ t).
Proof. reflexivity. Qed.

Lemma append_nil_r (s : string) : s +:+ EmptyString = s.
Proof.
  induction s as [|c s IH]; [reflexivity|].
  rewrite append_cons. by rewrite IH.
Qed.

Lemma append_assoc (s t u : string) : (s +:+ t) +:+ u = s +:+ (t +:+ u).
Proof.
  induction s as [|c s IH]; [reflexivity|].
  rewrite !append_cons. by rewrite IH.
Qed.

Lemma occursIn_middle (pre s post : string) :
  Js.occursIn s (pre +:+ s +:+ post).
Proof. by exists pre, post. Qed.

Lemma length_append (s t : string) :
  String.length (s +:+ t) = (String.length s + String.length t)%nat.
Proof.
  induction s as [|c s IH]; [reflexivity|].
  rewrite append_cons. cbn [String.length]. by rewrite IH.
Qed.

(** ** White space *)

Section WhiteSpace.

(** A property of the white space characters holds for each of them. *)
Lemma whiteSpace_forall (P : string → Prop) (w : string) :
  Forall P Js.whiteSpace → Js.isWhiteSpace w = true → P w.
Proof.
  intros Hall Hw. apply bool_decide_eq_true_1 in Hw.
  by apply (proj1 (Forall_forall _ _) Hall).
Qed.

Lemma trimStart_eq (s : string) :
  Js.trimStart s
  = match Js.whiteSpaceAt s with Some r => Js.trimStart r | None => s end.
Proof.
  destruct s as [|a s1]; [reflexivity|]. cbn [Js.trimStart Js.whiteSpaceAt].
  destruct (Js.isWhiteSpace (Js.chr a)); [reflexivity|].
  destruct s1 as [|b s2]; [reflexivity|].
  destruct (Js.isWhiteSpace (String a (Js.chr b))); [reflexivity|].
  destruct s2 as [|c s3]; [reflexivity|].
  by destruct (Js.isWhiteSpace (String a (String b (Js.chr c)))).
Qed.

Lemma whiteSpaceAt_split (s r : string) :
  Js.whiteSpaceAt s = Some r →
  ∃ w, Js.isWhiteSpace w = true ∧ s = w +:+ r.
Proof.
  destruct s as [|a [|b [|c s3]]]; cbn [Js.whiteSpaceAt]; intros Hat;
    repeat match type of Hat with
      | context [if ?b then _ else _] => destruct b eqn:?
      end;
    try discriminate Hat; injection Hat as <-;
    eexists; (split; [eassumption|]); reflexivity.
Qed.

Lemma whiteSpaceAt_length (s r : string) :
  Js.whiteSpaceAt s = Some r → (String.length r < String.length s)%nat.
Proof.
  intros (w & Hw & ->)%whiteSpaceAt_split.
  rewrite length_append. destruct w; [done|cbn; lia].
Qed.

Lemma whiteSpaceAt_app (s r t : string) :
  Js.whiteSpaceAt s = Some r → Js.whiteSpaceAt (s +:+ t) = Some (r +:+ t).
Proof.
  destruct s as [|a [|b [|c s3]]]; cbn [Js.whiteSpaceAt]; intros Hat;
    rewrite ?append_cons; cbn [Js.whiteSpaceAt];
    repeat match type of Hat with
      | context [if ?b then _ else _] => destruct b eqn:?
      end;
    try discriminate Hat; injection Hat as <-; try reflexivity.
Qed.

Lemma whiteSpaceAt_whiteSpace (w r : string) :
  Js.isWhiteSpace w = true → Js.whiteSpaceAt (w +:+ r) = Some r.
Proof.
  intros Hw.
  enough (Js.whiteSpaceAt w = Some EmptyString) as Hat
    by apply (whiteSpaceAt_app _ _ r Hat).
  apply (whiteSpace_forall (λ w, Js.whiteSpaceAt w = Some EmptyString));
    [|exact Hw].
  unfold Js.whiteSpace. cbn [map].
  repeat (constructor; [by vm_compute|]). constructor.
Qed.

(** Induction along the white space a text starts with. *)
Lemma whiteSpace_ind (P : string → Prop) :
  (∀ s, (∀ r, Js.whiteSpaceAt s = Some r → P r) → P s) → ∀ s, P s.
Proof.
  intros Hstep s.
  remember (String.length s) as n eqn:Hn. revert s Hn.
  induction n as [n IH] using lt_wf_ind. intros s ->.
  apply Hstep. intros r Hr. apply (IH (String.length r)); [|reflexivity].
  by apply whiteSpaceAt_length.
Qed.

Lemma blank_trimStart (s : string) :
  Js.blank s = true ↔ Js.trimStart s = EmptyString.
Proof. unfold Js.blank. by destruct (Js.trimStart s). Qed.

Lemma trimStart_app_blank (p t : string) :
  Js.blank p = true → Js.trimStart (p +:+ t) = Js.trimStart t.
Proof.
  induction p as [p IH] using whiteSpace_ind. rewrite blank_trimStart.
  rewrite (trimStart_eq p).
  destruct (Js.whiteSpaceAt p) as [r|] eqn:Hat.
  - intros Hr. rewrite (trimStart_eq (p +:+ t)), (whiteSpaceAt_app _ _ _ Hat).
    apply IH; [done|]. by apply blank_trimStart.
  - by intros ->.
Qed.

Lemma blank_app (p t : string) :
  Js.blank p = true → Js.blank t = true → Js.blank (p +:+ t) = true.
Proof.
  intros Hp Ht. apply blank_trimStart. rewrite trimStart_app_blank by done.
  by apply blank_trimStart.
Qed.

Lemma blank_whiteSpace (w : string) :
  Js.isWhiteSpace w = true → Js.blank w = true.
Proof.
  intros Hw. apply blank_trimStart.
  rewrite <- (append_nil_r w), trimStart_eq.
  by rewrite whiteSpaceAt_whiteSpace.
Qed.

(** What [trimStart] removes is white space. *)
Lemma trimStart_suffix (s : string) :
  ∃ w, s = w +:+ Js.trimStart s ∧ Js.blank w = true.
Proof.
  induction s as [s IH] using whiteSpace_ind. rewrite (trimStart_eq s).
  destruct (Js.whiteSpaceAt s) as [r|] eqn:Hat; [|by exists EmptyString].
  destruct (IH r eq_refl) as (w & Hr & Hw).
  destruct (whiteSpaceAt_split _ _ Hat) as (w0 & Hw0 & ->).
  exists (w0 +:+ w). split; [by rewrite append_assoc, <- Hr|].
  apply blank_app; [|done]. by apply blank_whiteSpace.
Qed.

(** What [trimStart] leaves does not start with white space. *)
Lemma trimStart_fixed (s : string) : Js.whiteSpaceAt (Js.trimStart s) = None.
Proof.
  induction s as [s IH] using whiteSpace_ind. rewrite (trimStart_eq s).
  destruct (Js.whiteSpaceAt s) as [r|] eqn:Hat; [by apply IH | done].
Qed.

(** What [trimEnd] removes is white space. *)
Lemma trimEnd_prefix (s : string) :
  ∃ w, s = Js.trimEnd s +:+ w ∧ Js.blank w = true.
Proof.
  induction s as [|c s IH]; [by exists EmptyString|].
  cbn [Js.trimEnd]. destruct (Js.blank (String c s)) eqn:Hblank.
  - by exists (String c s).
  - destruct IH as (w & Hs & Hw). exists w. split; [|done].
    by rewrite append_cons, <- Hs.
Qed.

Lemma trimEnd_idemp (s : string) : Js.trimEnd (Js.trimEnd s) = Js.trimEnd s.
Proof.
  induction s as [|c s IH]; [reflexivity|].
  cbn [Js.trimEnd]. destruct (Js.blank (String c s)) eqn:Hblank; [reflexivity|].
  cbn [Js.trimEnd]. rewrite IH.
  destruct (Js.blank (String c (Js.trimEnd s))) eqn:Hcut; [|reflexivity].
  destruct (trimEnd_prefix s) as (w & Hs & Hw).
  rewrite Hs, <- append_cons, blank_app in Hblank; done.
Qed.

(** Trimming what is trimmed changes nothing. *)
Lemma trim_idemp (s : string) : Js.trim (Js.trim s) = Js.trim s.
Proof.
  unfold Js.trim.
  assert (Js.trimStart (Js.trimEnd (Js.trimStart s)) = Js.trimEnd (Js.trimStart s))
    as ->; [|apply trimEnd_idemp].
  pose proof (trimStart_fixed s) as Hfixed.
  destruct (trimEnd_prefix (Js.trimStart s)) as (w & Hs & Hw).
  rewrite trimStart_eq.
  destruct (Js.whiteSpaceAt (Js.trimEnd (Js.trimStart s))) as [r|] eqn:Hat;
    [|reflexivity].
  apply (whiteSpaceAt_app _ _ w) in Hat. rewrite <- Hs in Hat. congruence.
Qed.

Lemma lastByte_app (s t : string) :
  t ≠ EmptyString → Js.lastByte (s +:+ t) = Js.lastByte t.
Proof.
  intros Ht. induction s as [|c s IH]; [reflexivity|].
  rewrite append_cons. cbn [Js.lastByte]. rewrite IH.
  destruct t as [|d t]; [done|]. cbn [Js.lastByte]. by destruct (Js.lastByte t).
Qed.

(** A text that is white space ends as a white space character does. *)
Lemma blank_lastByte (s : string) (c : ascii) :
  Js.blank s = true → Js.lastByte s = Some c → Js.endsWhiteSpace c = true.
Proof.
  induction s as [s IH] using whiteSpace_ind. intros Hblank Hlast.
  apply blank_trimStart in Hblank. rewrite trimStart_eq in Hblank.
  destruct (Js.whiteSpaceAt s) as [r|] eqn:Hat;
    [|subst s; discriminate Hlast].
  destruct (whiteSpaceAt_split _ _ Hat) as (w & Hw & ->).
  destruct r as [|d r].
  - rewrite append_nil_r in Hlast. apply bool_decide_eq_true_2.
    rewrite <- Hlast. apply bool_decide_eq_true_1 in Hw.
    by apply list_elem_of_fmap_2.
  - rewrite lastByte_app in Hlast by done.
    apply (IH _ eq_refl); [by apply blank_trimStart | done].
Qed.

(** A text whose last byte does not end a white space character has
    nothing for [trimEnd] to remove. *)
Lemma trimEnd_keep (s : string) (c : ascii) :
  Js.lastByte s = Some c → Js.endsWhiteSpace c = false → Js.trimEnd s = s.
Proof.
  intros Hlast Hc. induction s as [|d s IH]; [reflexivity|].
  cbn [Js.trimEnd]. destruct (Js.blank (String d s)) eqn:Hblank.
  - by rewrite (blank_lastByte _ _ Hblank Hlast) in Hc.
  - destruct s as [|e s]; [reflexivity|]. rewrite IH; [reflexivity|].
    cbn [Js.lastByte] in Hlast |- *. by destruct (Js.lastByte s).
Qed.

Lemma includes_app (c : ascii) (s t : string) :
  Js.includes c (s +:+ t) = Js.includes c s || Js.includes c t.
Proof.
  induction s as [|d s IH]; [reflexivity|].
  rewrite append_cons. cbn [Js.includes]. by rewrite IH, orb_assoc.
Qed.

Lemma includes_trimStart (c : ascii) (s : string) :
  Js.includes c s = false → Js.includes c (Js.trimStart s) = false.
Proof.
  destruct (trimStart_suffix s) as (w & Hs & _). rewrite Hs at 1.
  rewrite includes_app. by intros [_ ?]%orb_false_elim.
Qed.

Lemma includes_trimEnd (c : ascii) (s : string) :
  Js.includes c s = false → Js.includes c (Js.trimEnd s) = false.
Proof.
  destruct (trimEnd_prefix s) as (w & Hs & _). rewrite Hs at 1.
  rewrite includes_app. by intros [? _]%orb_false_elim.
Qed.

Lemma trimStart_table (s : string) : Js.trimStart ("| " +:+ s) = "| " +:+ s.
Proof.
  rewrite trimStart_eq.
  assert (Js.whiteSpaceAt ("| " +:+ s) = None) as ->; [|reflexivity].
  destruct s as [|c s]; [reflexivity|].
  change ("| " +:+ String c s) with (String "|" (String " " (String c s))).
  cbn [Js.whiteSpaceAt].
  change (Js.isWhiteSpace (Js.chr "|")) with false.
  change (Js.isWhiteSpace (String "|" (Js.chr " "))) with false.
  cbn match.
  assert (Js.isWhiteSpace (String "|" (String " " (Js.chr c))) = false) as ->;
    [|reflexivity].
  apply bool_decide_eq_false_2.
  unfold Js.whiteSpace. cbn [map]. rewrite !elem_of_cons, elem_of_nil.
  intros H. repeat (destruct H as [H|H]; [discriminate H|]). done.
Qed.

End WhiteSpace.

(** ** The orchestrator *)

Section Orchestrator.
Context `{Host}.
Variable config : ParserConfig.

Lemma parseWithAI_success u fname kind :
  success (Parser.parseWithAI config u fname kind) = true.
Proof.
  unfold Parser.parseWithAI.
  destruct (ai config) as [aiConfig|]; [|reflexivity].
  by destruct (fst _).
Qed.

Lemma parseWithAI_url u fname kind :
  url (Parser.parseWithAI config u fname kind) = u.
Proof.
  unfold Parser.parseWithAI.
  destruct (ai config) as [aiConfig|]; [|reflexivity].
  by destruct (fst _).
Qed.

Lemma parseWithAI_fallback u fname kind :
  Reading.aiUnavailable config u kind →
  content (Parser.parseWithAI config u fname kind)
  = Parser.linkHint kind fname u.
Proof.
  unfold Reading.aiUnavailable, Parser.parseWithAI.
  destruct (ai config) as [aiConfig|]; [|reflexivity].
  by destruct (fst _).
Qed.

Lemma linkHint_cites_url kind fname u :
  Js.occursIn u (Parser.linkHint kind fname u).
Proof.
  unfold Parser.linkHint.
  exists ("[" +:+ Parser.labels kind +:+ "] " +:+ fname
            +:+ Js.chr Js.newline +:+ "文件链接: "),
         (Js.chr Js.newline +:+ "（需要配置 AI 才能解析此类型文件）").
  by rewrite !append_assoc.
Qed.

(** What the [try] block of [parse] returns when it returns. *)
Lemma parse_try_failed u fname fileType file :
  Parser.parse_try config u fname fileType = Return file →
  success file = false →
  fileType = unknown ∧
  file = {| fileName := fname; url := u; type := unknown;
            content := "[未知格式] " +:+ fname;
            success := false; error := Some Parser.unsupported;
            rawData := None; metadata := None |}.
Proof.
  intros Htry Hfail.
  destruct fileType; cbn in Htry;
    try (injection Htry as <-; first
           [ by rewrite parseWithAI_success in Hfail | done ]);
    unfold mbind, Outcome_bind in Htry;
    destruct (Parser.downloadFile u) as [buffer|]; try discriminate Htry;
    repeat match type of Htry with
      | context [match ?o with Return _ => _ | Throw _ => _ end] =>
          destruct o as [[? ?]|]
      | context [match ?o with Return _ => _ | Throw _ => _ end] =>
          destruct o
      end;
    try discriminate Htry;
    injection Htry as <-;
    first [ by rewrite parseWithAI_success in Hfail | discriminate Hfail ].
Qed.

Lemma parse_try_url u fname fileType file :
  Parser.parse_try config u fname fileType = Return file →
  url file = u.
Proof.
  intros Htry.
  destruct fileType; cbn in Htry;
    try (injection Htry as <-; first
           [ by rewrite parseWithAI_url | done ]);
    unfold mbind, Outcome_bind in Htry;
    destruct (Parser.downloadFile u) as [buffer|]; try discriminate Htry;
    repeat match type of Htry with
      | context [match ?o with Return _ => _ | Throw _ => _ end] =>
          destruct o as [[? ?]|]
      | context [match ?o with Return _ => _ | Throw _ => _ end] =>
          destruct o
      end;
    try discriminate Htry;
    injection Htry as <-;
    first [ by rewrite parseWithAI_url | reflexivity ].
Qed.

Lemma parse_url u : url (Parser.parse config u) = u.
Proof.
  unfold Parser.parse.
  destruct (Parser.parse_try _ _ _ _) eqn:E; [|reflexivity].
  by eapply parse_try_url.
Qed.

End Orchestrator.

(** ** Failed records (C1) *)

(** C1, as amended.  Every record that [parse] returns with
    [success = false] has its [error] set; its content is the empty
    string unless the file is of unknown type, and the record of a file
    of unknown type has [success = false], the non-empty error
    [unsupported] and the content ["[未知格式] " + fileName]. *)
Theorem C1_failed_record `{Host} (config : ParserConfig) (u : string) :
  let file := Parser.parse config u in
  (success file = false →
     is_Some (error file) ∧
     (content file = EmptyString ∨
      type file = unknown ∧
      content file = "[未知格式] " +:+ Parser.extractFileName u)) ∧
  (Parser.detectFileType (Parser.extractFileName u) = unknown →
     success file = false ∧
     error file = Some Parser.unsupported ∧
     Parser.unsupported ≠ EmptyString ∧
     content file = "[未知格式] " +:+ Parser.extractFileName u).
Proof.
  cbn zeta. split.
  - unfold Parser.parse.
    destruct (Parser.parse_try _ _ _ _) as [file|message] eqn:Htry.
    + intros Hfail.
      destruct (parse_try_failed _ _ _ _ _ Htry Hfail) as [_ ->].
      split; [by eexists | right; by split].
    + intros _. split; [by eexists | by left].
  - intros Hunknown. unfold Parser.parse. rewrite Hunknown. cbn.
    by repeat split.
Qed.

Lemma C1_failed_record_witness :
  let file := @Parser.parse Sample.offline Sample.noAI "http://x.com/a/b.xyz?x=1" in
  success file = false ∧
  error file = Some Parser.unsupported ∧
  content file = "[未知格式] b.xyz".
Proof.
  cbn zeta.
  destruct (@C1_failed_record Sample.offline Sample.noAI "http://x.com/a/b.xyz?x=1")
    as [_ Hunknown].
  destruct Hunknown as (Hs & He & _ & Hc); [reflexivity|].
  split; [exact Hs | split; [exact He | exact Hc]].
Defined.

(** C1, as stated, fails: the record of a file of unknown type is
    unsuccessful and its content is not the empty string. *)
Lemma C1_unknown_content :
  let file := @Parser.parse Sample.offline Sample.noAI "http://x.com/a/b.xyz?x=1" in
  Parser.detectFileType (H := Sample.offline)
    (Parser.extractFileName (H := Sample.offline) "http://x.com/a/b.xyz?x=1")
  = unknown ∧
  success file = false ∧ content file ≠ EmptyString.
Proof. cbn zeta. split; [reflexivity|]. split; [reflexivity|]. vm_compute. discriminate. Qed.

(** ** Degrading to a link (C8) *)

(** C8.  The record of an image, audio or video file is successful
    whatever the provider does; without a provider, or when the call of
    the provider fails, its content is the link placeholder, in which
    the URL occurs as it was given. *)
Theorem C8_placeholder `{Host} (config : ParserConfig) (u : string)
    (kind : Parser.AIKind) :
  kind ≠ Parser.ai_pdf →
  Parser.detectFileType (Parser.extractFileName u) = Parser.kindType kind →
  let file := Parser.parse config u in
  success file = true ∧
  (Reading.aiUnavailable config u kind →
     content file = Parser.linkHint kind (Parser.extractFileName u) u ∧
     Js.occursIn u (content file)).
Proof.
  intros Hkind Htype. cbn zeta. unfold Parser.parse. rewrite Htype.
  destruct kind; [| | |done]; cbn; (split; [apply parseWithAI_success|]);
    intros Hai; rewrite (parseWithAI_fallback _ _ _ _ Hai);
    (split; [reflexivity | apply linkHint_cites_url]).
Qed.

Lemma C8_placeholder_witness :
  let file := @Parser.parse Sample.offline Sample.noAI "http://x.com/a/b.PNG?x=1" in
  success file = true ∧
  Js.occursIn "http://x.com/a/b.PNG?x=1" (content file).
Proof.
  cbn zeta.
  destruct (@C8_placeholder Sample.offline Sample.noAI "http://x.com/a/b.PNG?x=1"
              Parser.ai_image) as [Hs Hc]; [discriminate | reflexivity |].
  split; [exact Hs|]. by apply Hc.
Defined.

(** ** Joining the records (C9) *)

Section Format.
Variables includeTitle includeUrl : bool.

Local Abbreviation from := (Parser.format_from includeTitle includeUrl).
Local Abbreviation block := (Parser.block includeTitle includeUrl).

Lemma format_from_skip files parts :
  from skip files parts
  = Return (parts ++ map block (filter (λ f, success f = true) files)).
Proof.
  revert parts. induction files as [|file rest IH]; intros parts.
  - cbn. by rewrite app_nil_r.
  - cbn [Parser.format_from]. rewrite filter_cons.
    destruct (success file); cbn [negb]; rewrite IH.
    + rewrite decide_True by done. cbn. by rewrite <- app_assoc.
    + by rewrite decide_False by done.
Qed.

Lemma format_from_include files parts :
  from include files parts
  = Return (parts ++ map (λ f, if success f then block f
                               else Parser.failureNote f) files).
Proof.
  revert parts. induction files as [|file rest IH]; intros parts; cbn.
  - by rewrite app_nil_r.
  - destruct (success file); cbn; rewrite IH; by rewrite <- app_assoc.
Qed.

Lemma format_from_error_ok files parts :
  Forall (λ f, success f = true) files →
  from error_ files parts = Return (parts ++ map block files).
Proof.
  intros Hall. revert parts.
  induction Hall as [|file rest Hok _ IH]; intros parts; cbn.
  - by rewrite app_nil_r.
  - rewrite Hok. cbn. rewrite IH. by rewrite <- app_assoc.
Qed.

Lemma format_from_error_abort pre file post parts :
  Forall (λ f, success f = true) pre →
  success file = false →
  from error_ (pre ++ file :: post) parts = Throw (Parser.abortMessage file).
Proof.
  intros Hpre Hfail. revert parts.
  induction Hpre as [|f rest Hok _ IH]; intros parts; cbn.
  - by rewrite Hfail.
  - rewrite Hok. cbn. apply IH.
Qed.

End Format.

(** C9.  With [onError = "error"], [format] throws at the first record
    in input order that is not successful, with a message made of its
    file name and its error, and returns no text; it returns the joined
    blocks when there is none.  With ["skip"], the unsuccessful records
    are left out and the blocks of the others are joined with
    ["\n<separator>\n"].  With ["include"], an unsuccessful record gives
    the note of its failure in place of a block. *)
Theorem C9_format_policies (files : list ParsedFile)
    (options : option FormatOptions) :
  (Reading.policy options = error_ →
     (∀ pre file post,
        files = pre ++ file :: post →
        Forall (λ f, success f = true) pre →
        success file = false →
        Parser.format files options
        = Throw ("文件解析失败: " +:+ fileName file +:+ " - "
                   +:+ default "undefined"%string (error file))) ∧
     (Forall (λ f, success f = true) files →
        Parser.format files options
        = Return (Reading.glue options (map (Reading.blockOf options) files)))) ∧
  (Reading.policy options = skip →
     Parser.format files options
     = Return (Reading.glue options
                 (map (Reading.blockOf options)
                    (filter (λ f, success f = true) files)))) ∧
  (Reading.policy options = include →
     Parser.format files options
     = Return (Reading.glue options
                 (map (λ f, if success f then Reading.blockOf options f
                            else "【" +:+ fileName f +:+ "】解析失败: "
                                   +:+ default "undefined"%string (error f))
                    files))).
Proof.
  unfold Reading.policy, Parser.format. split; [|split].
  - intros Hpolicy. rewrite Hpolicy. split.
    + intros pre file post -> Hpre Hfail.
      by rewrite (format_from_error_abort _ _ _ _ _ _ Hpre Hfail).
    + intros Hall. by rewrite (format_from_error_ok _ _ _ _ Hall).
  - intros ->. by rewrite format_from_skip.
  - intros ->. by rewrite format_from_include.
Qed.

Lemma C9_format_policies_witness :
  let files := [Sample.record "a.txt" true; Sample.record "b.txt" false;
                Sample.record "c.txt" true; Sample.record "d.txt" false] in
  Parser.format files (Sample.onlyPolicy error_)
  = Throw "文件解析失败: b.txt - timeout"%string ∧
  Parser.format files (Sample.onlyPolicy skip)
  = Return ("【文本】a.txt" +:+ Js.chr Js.newline +:+ "content of a.txt"
              +:+ Js.chr Js.newline +:+ "---" +:+ Js.chr Js.newline
              +:+ "【文本】c.txt" +:+ Js.chr Js.newline +:+ "content of c.txt") ∧
  Parser.format files (Sample.onlyPolicy include)
  = Return ("【文本】a.txt" +:+ Js.chr Js.newline +:+ "content of a.txt"
              +:+ Js.chr Js.newline +:+ "---" +:+ Js.chr Js.newline
              +:+ "【b.txt】解析失败: timeout"
              +:+ Js.chr Js.newline +:+ "---" +:+ Js.chr Js.newline
              +:+ "【文本】c.txt" +:+ Js.chr Js.newline +:+ "content of c.txt"
              +:+ Js.chr Js.newline +:+ "---" +:+ Js.chr Js.newline
              +:+ "【d.txt】解析失败: timeout").
Proof.
  cbn zeta.
  split; [|split].
  - destruct (C9_format_policies
                [Sample.record "a.txt" true; Sample.record "b.txt" false;
                 Sample.record "c.txt" true; Sample.record "d.txt" false]
                (Sample.onlyPolicy error_)) as [Herror _].
    destruct (Herror eq_refl) as [Habort _].
    apply (Habort [Sample.record "a.txt" true] (Sample.record "b.txt" false)
             [Sample.record "c.txt" true; Sample.record "d.txt" false]);
      [reflexivity | by repeat constructor | reflexivity].
  - destruct (C9_format_policies
                [Sample.record "a.txt" true; Sample.record "b.txt" false;
                 Sample.record "c.txt" true; Sample.record "d.txt" false]
                (Sample.onlyPolicy skip)) as (_ & Hskip & _).
    exact (Hskip eq_refl).
  - destruct (C9_format_policies
                [Sample.record "a.txt" true; Sample.record "b.txt" false;
                 Sample.record "c.txt" true; Sample.record "d.txt" false]
                (Sample.onlyPolicy include)) as (_ & _ & Hinclude).
    exact (Hinclude eq_refl).
Defined.

(** ** Integers among the numbers *)

Section Digits.

Lemma digits2_pos_bounds (p : positive) :
  2 ^ (Z.pos (SpecFloat.digits2_pos p) - 1) ≤ Z.pos p
  < 2 ^ Z.pos (SpecFloat.digits2_pos p).
Proof.
  induction p as [p IH|p IH|]; cbn [SpecFloat.digits2_pos]; [| |cbn; lia].
  - rewrite Pos2Z.inj_succ.
    replace (Z.succ (Z.pos (SpecFloat.digits2_pos p)) - 1)
      with (Z.succ (Z.pos (SpecFloat.digits2_pos p) - 1)) by lia.
    rewrite !Z.pow_succ_r by lia. lia.
  - rewrite Pos2Z.inj_succ.
    replace (Z.succ (Z.pos (SpecFloat.digits2_pos p)) - 1)
      with (Z.succ (Z.pos (SpecFloat.digits2_pos p) - 1)) by lia.
    rewrite !Z.pow_succ_r by lia. lia.
Qed.

Lemma digits2_pos_unique (p : positive) (d : Z) :
  2 ^ (d - 1) ≤ Z.pos p < 2 ^ d → Z.pos (SpecFloat.digits2_pos p) = d.
Proof.
  intros [Hlo Hhi]. pose proof (digits2_pos_bounds p) as [Hlo' Hhi'].
  assert (0 < d).
  { destruct (decide (0 < d)); [done|].
    rewrite (Z.pow_neg_r 2 (d - 1)) in Hlo by lia.
    assert (d = 0 ∨ d < 0) as [->|?] by lia; [cbn in Hhi; lia|].
    rewrite Z.pow_neg_r in Hhi by lia. lia. }
  destruct (Z.lt_trichotomy (Z.pos (SpecFloat.digits2_pos p)) d) as [Hlt|[Heq|Hgt]];
    [|done|].
  - assert (2 ^ Z.pos (SpecFloat.digits2_pos p) ≤ 2 ^ (d - 1))
      by (apply Z.pow_le_mono_r; lia). lia.
  - assert (2 ^ d ≤ 2 ^ (Z.pos (SpecFloat.digits2_pos p) - 1))
      by (apply Z.pow_le_mono_r; lia). lia.
Qed.

End Digits.

Section Rounding.

Lemma iter_pos_nat {A} (f : A → A) (p : positive) (x : A) :
  SpecFloat.iter_pos f p x = Nat.iter (Pos.to_nat p) f x.
Proof.
  revert x. induction p as [p IH|p IH|]; intros x; cbn [SpecFloat.iter_pos].
  - rewrite !IH, Pos2Nat.inj_xI.
    replace (S (2 * Pos.to_nat p)) with (Pos.to_nat p + (Pos.to_nat p + 1))%nat by lia.
    rewrite !Nat.iter_add. reflexivity.
  - rewrite !IH, Pos2Nat.inj_xO.
    replace (2 * Pos.to_nat p)%nat with (Pos.to_nat p + Pos.to_nat p)%nat by lia.
    by rewrite Nat.iter_add.
  - reflexivity.
Qed.

Lemma shr_1_even (q : Z) :
  0 < q →
  SpecFloat.shr_1 (SpecFloat.Build_shr_record (2 * q) false false)
  = SpecFloat.Build_shr_record q false false.
Proof. intros Hq. destruct q as [|q|q]; try lia. reflexivity. Qed.

Lemma iter_shr_1 (n : nat) (q : Z) :
  0 < q →
  Nat.iter n SpecFloat.shr_1
    (SpecFloat.Build_shr_record (q * 2 ^ Z.of_nat n) false false)
  = SpecFloat.Build_shr_record q false false.
Proof.
  intros Hq. induction n as [|n IH].
  - change (Z.of_nat 0) with 0. rewrite Z.pow_0_r, Z.mul_1_r. reflexivity.
  - rewrite Nat.iter_succ_r. rewrite Nat2Z.inj_succ, Z.pow_succ_r by lia.
    replace (q * (2 * 2 ^ Z.of_nat n)) with (2 * (q * 2 ^ Z.of_nat n)) by lia.
    rewrite shr_1_even; [exact IH|].
    apply Z.mul_pos_pos; [done|]. apply Z.pow_pos_nonneg; lia.
Qed.

(** Shifting out zeros is exact. *)
Lemma shr_exact (q e n : Z) :
  0 < q → 0 ≤ n →
  SpecFloat.shr (SpecFloat.Build_shr_record (q * 2 ^ n) false false) e n
  = (SpecFloat.Build_shr_record q false false, e + n).
Proof.
  intros Hq Hn. unfold SpecFloat.shr. destruct n as [|p|p]; [| |lia].
  - f_equal; [|lia]. f_equal. cbn. lia.
  - rewrite iter_pos_nat. f_equal.
    rewrite <- (positive_nat_Z p). by apply iter_shr_1.
Qed.

Lemma iter_xO (p d : positive) :
  Z.pos (Pos.iter xO p d) = Z.pos p * 2 ^ Z.pos d.
Proof.
  rewrite Pos2Nat.inj_iter, <- (positive_nat_Z d).
  induction (Pos.to_nat d) as [|n IH]; [cbn; lia|].
  cbn [nat_rect]. rewrite Pos2Z.inj_xO, IH.
  rewrite Nat2Z.inj_succ, Z.pow_succ_r by lia. lia.
Qed.

Lemma digits_scaled (p m : positive) (n : Z) :
  0 ≤ n → Z.pos m = Z.pos p * 2 ^ n →
  Z.pos (SpecFloat.digits2_pos m) = Z.pos (SpecFloat.digits2_pos p) + n.
Proof.
  intros Hn Hm. apply digits2_pos_unique. rewrite Hm.
  pose proof (digits2_pos_bounds p) as [Hlo Hhi].
  assert (0 < 2 ^ n) by (apply Z.pow_pos_nonneg; lia).
  replace (Z.pos (SpecFloat.digits2_pos p) + n - 1)
    with (Z.pos (SpecFloat.digits2_pos p) - 1 + n) by lia.
  rewrite !Z.pow_add_r by lia. nia.
Qed.

(** An integer below [2 ^ 53] is rounded to itself. *)
Lemma binary_round_integer (M : positive) (ez k : Z) :
  ez ≤ 0 → 0 < k < 2 ^ 53 → Z.pos M = k * 2 ^ (- ez) →
  Reading.integer (SpecFloat.binary_round Number.prec Number.emax false M ez) k.
Proof.
  intros Hez Hk HM. destruct k as [|kp|kp]; try lia.
  set (D := Z.pos (SpecFloat.digits2_pos kp)).
  pose proof (digits2_pos_bounds kp) as [Hlo Hhi]. fold D in Hlo, Hhi.
  assert (1 ≤ D ≤ 53) as HD.
  { split; [unfold D; lia|].
    destruct (decide (D ≤ 53)); [done|].
    assert (2 ^ 53 ≤ 2 ^ (D - 1)) by (apply Z.pow_le_mono_r; lia). lia. }
  assert (Z.pos (SpecFloat.digits2_pos M) = D - ez) as HdM.
  { rewrite (digits_scaled kp M (- ez)) by (lia || done). fold D. lia. }
  unfold SpecFloat.binary_round.
  rewrite HdM. replace (D - ez + ez) with D by lia.
  assert (SpecFloat.fexp Number.prec Number.emax D = D - 53) as ->
    by (unfold SpecFloat.fexp, SpecFloat.emin, Number.prec, Number.emax; lia).
  set (E := D - 53).
  (* after the alignment: a mantissa [mz] of [k * 2 ^ (- ez')], [ez' <= E] *)
  assert (∃ mz ez', SpecFloat.shl_align M ez E = (mz, ez') ∧ ez' ≤ E ∧
                    Z.pos mz = Z.pos kp * 2 ^ (- ez')) as (mz & ez' & -> & Hez' & Hmz).
  { unfold SpecFloat.shl_align. destruct (E - ez) as [|d|d] eqn:Hd.
    - exists M, ez. repeat split; [lia|done].
    - exists M, ez. repeat split; [lia|done].
    - exists (Pos.iter xO M d), E. repeat split; [lia|].
      rewrite iter_xO, HM, <- Z.mul_assoc, <- Z.pow_add_r by lia.
      do 2 f_equal. lia. }
  assert (Z.pos (SpecFloat.digits2_pos mz) = D - ez') as Hdmz.
  { rewrite (digits_scaled kp mz (- ez')) by (lia || done). fold D. lia. }
  unfold SpecFloat.binary_round_aux, SpecFloat.shr_fexp.
  cbn [SpecFloat.Zdigits2 SpecFloat.shr_record_of_loc].
  rewrite Hdmz. replace (D - ez' + ez') with D by lia.
  assert (SpecFloat.fexp Number.prec Number.emax D = E) as ->
    by (unfold SpecFloat.fexp, SpecFloat.emin, Number.prec, Number.emax; lia).
  remember (Z.pos kp * 2 ^ (- E)) as q eqn:Hqdef.
  assert (0 < q) as Hq.
  { subst q. apply Z.mul_pos_pos; [done|]. apply Z.pow_pos_nonneg; lia. }
  assert (Z.pos mz = q * 2 ^ (E - ez')) as ->.
  { subst q. rewrite Hmz, <- Z.mul_assoc, <- Z.pow_add_r by lia.
    do 2 f_equal. lia. }
  rewrite shr_exact by lia. replace (ez' + (E - ez')) with E by lia.
  cbn [SpecFloat.shr_m SpecFloat.loc_of_shr_record SpecFloat.round_nearest_even].
  destruct q as [|qp|qp]; try lia.
  assert (Z.pos (SpecFloat.digits2_pos qp) = 53) as Hdq.
  { rewrite (digits_scaled kp qp (- E)) by (done || unfold E; lia). fold D.
    unfold E. lia. }
  cbn [SpecFloat.Zdigits2]. rewrite Hdq.
  assert (SpecFloat.fexp Number.prec Number.emax (53 + E) - E = 0) as ->
    by (unfold SpecFloat.fexp, SpecFloat.emin, Number.prec, Number.emax, E; lia).
  cbn [SpecFloat.shr SpecFloat.shr_m].
  assert ((E <=? Number.emax - Number.prec) = true) as ->
    by (apply Z.leb_le; unfold Number.emax, Number.prec, E; lia).
  cbn [Reading.integer]. repeat split; [unfold E; lia | done | done].
Qed.

Lemma integer_nonneg (x : Number.number) (k : Z) : Reading.integer x k → 0 ≤ k.
Proof.
  destruct x as [[]|[]| |[] m e]; cbn; try done; [lia|].
  intros (He & _ & Hm).
  assert (0 < 2 ^ (- e)) by (apply Z.pow_pos_nonneg; lia). nia.
Qed.

Lemma ofZ_integer (k : Z) : 0 ≤ k < 2 ^ 53 → Reading.integer (Number.ofZ k) k.
Proof.
  intros Hk. destruct k as [|p|p]; [reflexivity| |lia].
  apply binary_round_integer; [lia|lia|]. cbn. lia.
Qed.

Lemma add_integer (x y : Number.number) (a b : Z) :
  Reading.integer x a → Reading.integer y b → a + b < 2 ^ 53 →
  Reading.integer (Number.add x y) (a + b).
Proof.
  intros Hx Hy Hsum.
  pose proof (integer_nonneg _ _ Hx) as Ha. pose proof (integer_nonneg _ _ Hy) as Hb.
  destruct x as [[]|[]| |[] mx ex]; try done;
    destruct y as [[]|[]| |[] my ey]; try done; cbn in Hx, Hy.
  - by subst.
  - by subst.
  - subst b. by rewrite Z.add_0_r.
  - destruct Hx as (Hex & Hdx & Hmx), Hy as (Hey & Hdy & Hmy).
    unfold Number.add, SpecFloat.SFadd. cbn [SpecFloat.cond_Zopp].
    set (ez := Z.min ex ey).
    assert (0 < 2 ^ (- ex)) by (apply Z.pow_pos_nonneg; lia).
    assert (0 < 2 ^ (- ey)) by (apply Z.pow_pos_nonneg; lia).
    assert (∀ m e k, e ≤ 0 → ez ≤ e → Z.pos m = k * 2 ^ (- e) →
              Z.pos (SpecFloat.shl_align m e ez).1 = k * 2 ^ (- ez)) as Halign.
    { intros m e k He Hez Hm. unfold SpecFloat.shl_align.
      destruct (ez - e) as [|d|d] eqn:Hd; cbn [fst].
      - assert (ez = e) as -> by lia. done.
      - lia.
      - rewrite iter_xO, Hm, <- Z.mul_assoc, <- Z.pow_add_r by lia.
        do 2 f_equal. lia. }
    rewrite (Halign mx ex a), (Halign my ey b) by (done || lia).
    rewrite <- Z.mul_add_distr_r.
    assert (0 < 2 ^ (- ez)) by (apply Z.pow_pos_nonneg; lia).
    destruct ((a + b) * 2 ^ (- ez)) as [|M|M] eqn:HM; [nia| |nia].
    unfold SpecFloat.binary_normalize.
    apply binary_round_integer; [lia|nia|done].
Qed.

Lemma ltb_integer (x y : Number.number) (a b : Z) :
  Reading.integer x a → Reading.integer y b →
  Number.ltb x y = bool_decide (a < b).
Proof.
  intros Hx Hy.
  destruct x as [[]|[]| |[] mx ex]; try done;
    destruct y as [[]|[]| |[] my ey]; try done; cbn in Hx, Hy.
  - subst. by rewrite bool_decide_eq_false_2 by lia.
  - destruct Hy as (Hey & Hdy & Hmy). subst a.
    assert (0 < 2 ^ (- ey)) by (apply Z.pow_pos_nonneg; lia).
    rewrite bool_decide_eq_true_2 by nia. reflexivity.
  - destruct Hx as (Hex & Hdx & Hmx). subst b.
    assert (0 < 2 ^ (- ex)) by (apply Z.pow_pos_nonneg; lia).
    rewrite bool_decide_eq_false_2 by nia. reflexivity.
  - destruct Hx as (Hex & Hdx & Hmx), Hy as (Hey & Hdy & Hmy).
    pose proof (digits2_pos_bounds mx) as [Hlox Hhix].
    pose proof (digits2_pos_bounds my) as [Hloy Hhiy].
    rewrite Hdx in Hlox, Hhix. rewrite Hdy in Hloy, Hhiy.
    assert (0 < 2 ^ (- ex)) by (apply Z.pow_pos_nonneg; lia).
    assert (0 < 2 ^ (- ey)) by (apply Z.pow_pos_nonneg; lia).
    unfold Number.ltb, SpecFloat.SFltb, SpecFloat.SFcompare.
    destruct (Z.compare_spec ex ey) as [->|Hlt|Hgt].
    + rewrite Pos.compare_cont_spec. cbn [Pos.switch_Eq].
      change (Pos.compare mx my) with (Z.compare (Z.pos mx) (Z.pos my)).
      destruct (Z.compare_spec (Z.pos mx) (Z.pos my)) as [Heq|Hlt|Hgt].
      * rewrite bool_decide_eq_false_2 by nia. reflexivity.
      * rewrite bool_decide_eq_true_2 by nia. reflexivity.
      * rewrite bool_decide_eq_false_2 by nia. reflexivity.
    + rewrite bool_decide_eq_true_2; [reflexivity|].
      assert (2 ^ (- ex) = 2 ^ (- ey) * 2 ^ (ey - ex)) as Hpow
        by (rewrite <- Z.pow_add_r by lia; f_equal; lia).
      assert (2 ≤ 2 ^ (ey - ex))
        by (change 2 with (2 ^ 1) at 1; apply Z.pow_le_mono_r; lia).
      change (2 ^ 53) with (2 * 2 ^ 52) in *. change (53 - 1) with 52 in *.
      nia.
    + rewrite bool_decide_eq_false_2; [reflexivity|].
      assert (2 ^ (- ey) = 2 ^ (- ex) * 2 ^ (ex - ey)) as Hpow
        by (rewrite <- Z.pow_add_r by lia; f_equal; lia).
      assert (2 ≤ 2 ^ (ex - ey))
        by (change 2 with (2 ^ 1) at 1; apply Z.pow_le_mono_r; lia).
      change (2 ^ 53) with (2 * 2 ^ 52) in *. change (53 - 1) with 52 in *.
      nia.
Qed.

Lemma sliceIndex_integer (len : nat) (x : Number.number) (k : Z) :
  Reading.integer x k → Number.sliceIndex len x = (Z.to_nat k `min` len)%nat.
Proof.
  destruct x as [[]|[]| |[] m e]; cbn; try done; [by intros ->|].
  intros (He & _ & Hm).
  assert (0 < 2 ^ (- e)) by (apply Z.pow_pos_nonneg; lia).
  rewrite <- (Z.opp_involutive e) at 1.
  rewrite Z.shiftl_opp_r, Z.shiftr_div_pow2 by lia.
  rewrite Hm, Z.div_mul by lia. nia.
Qed.

End Rounding.

(** ** The batch scheduler (C7, C10) *)

Section Chunks.
Context {A : Type}.
Local Open Scope nat_scope.

Lemma chunks_fuel_nil fuel c : Reading.chunks_fuel fuel c (@nil A) = [].
Proof. by destruct fuel. Qed.

Lemma chunks_fuel_concat fuel c (l : list A) :
  1 ≤ c → length l ≤ fuel → concat (Reading.chunks_fuel fuel c l) = l.
Proof.
  intros Hc. revert l.
  induction fuel as [|fuel IH]; intros l Hlen.
  - destruct l; [reflexivity | cbn in Hlen; lia].
  - destruct l as [|x l]; [reflexivity|].
    cbn [Reading.chunks_fuel concat]. rewrite IH.
    + apply take_drop.
    + rewrite length_drop. cbn [length] in *. lia.
Qed.

Lemma chunks_fuel_sizes fuel c (l : list A) :
  1 ≤ c →
  Forall (λ b, 1 ≤ length b ≤ c) (Reading.chunks_fuel fuel c l).
Proof.
  intros Hc. revert l.
  induction fuel as [|fuel IH]; intros l; [constructor|].
  destruct l as [|x l]; [constructor|].
  cbn [Reading.chunks_fuel]. constructor; [|apply IH].
  rewrite length_take. cbn [length]. lia.
Qed.

(** The number of pieces is the ceiling of [length l / c]. *)
Lemma chunks_fuel_length fuel c (l : list A) :
  1 ≤ c → length l ≤ fuel →
  length (Reading.chunks_fuel fuel c l) = (length l + c - 1) / c.
Proof.
  intros Hc. revert l.
  induction fuel as [|fuel IH]; intros l Hlen.
  - destruct l; [|cbn in Hlen; lia].
    cbn. symmetry. apply Nat.div_small. lia.
  - destruct l as [|x l].
    + cbn. symmetry. apply Nat.div_small. lia.
    + cbn [Reading.chunks_fuel length]. rewrite IH.
      2:{ rewrite length_drop. cbn [length] in *. lia. }
      rewrite length_drop. cbn [length].
      destruct (decide (S (length l) ≤ c)) as [Hle|Hgt].
      * replace (S (length l) - c + c - 1) with (c - 1) by lia.
        rewrite (Nat.div_small (c - 1) c) by lia.
        apply (Nat.div_unique _ _ 1 (S (length l) - 1)); lia.
      * replace (S (length l) + c - 1) with (S (length l) - c + c - 1 + 1 * c) by lia.
        rewrite Nat.div_add by lia. lia.
Qed.

End Chunks.

Section Batch.
Context `{Host}.
Variable config : ParserConfig.
Local Open Scope nat_scope.

Local Abbreviation parseFn := (λ u : string, Return (Parser.parse config u)).

Lemma Promise_all_guarded continueOnError batch :
  Parser.Promise_all (map (Parser.guarded parseFn continueOnError) batch)
  = Return (map (Parser.parse config) batch).
Proof.
  induction batch as [|u batch IH]; [reflexivity|].
  cbn. by rewrite IH.
Qed.

Lemma foldl_settle report total st batchResults :
  foldl (Parser.settle report total) st batchResults
  = {| Parser.results := Parser.results st ++ batchResults;
       Parser.completed := Parser.completed st + length batchResults;
       Parser.trace :=
         Parser.trace st ++
           if report
           then imap (λ k r, Parser.EvProgress (Parser.completed st + k + 1)
                               total r) batchResults
           else [] |}.
Proof.
  revert st. induction batchResults as [|r rs IH]; intros [res cnt tr].
  - cbn. destruct report; by rewrite !app_nil_r, Nat.add_0_r.
  - cbn [foldl]. rewrite IH. unfold Parser.settle. cbn.
    rewrite <- !app_assoc. f_equal; [lia|]. f_equal.
    destruct report; [|reflexivity]. cbn. f_equal.
    + f_equal. lia.
    + apply imap_ext. intros k r' _. cbn. f_equal. lia.
Qed.

Lemma parseMany_from_schedule urls c continueOnError report fuel i st :
  1 ≤ c → length urls ≤ fuel + i →
  Parser.parseMany_from parseFn urls c continueOnError report fuel i st
  = Some (Return (Parser.results st ++ map (Parser.parse config) (drop i urls)),
          Parser.trace st ++
            Reading.schedule (Parser.parse config) report (length urls)
              (Parser.completed st)
              (Reading.chunks_fuel fuel c (drop i urls))).
Proof.
  intros Hc. revert i st.
  induction fuel as [|fuel IH]; intros i st Hfuel.
  - cbn. rewrite bool_decide_eq_false_2 by lia.
    rewrite drop_ge by lia. cbn. by rewrite !app_nil_r.
  - cbn [Parser.parseMany_from]. case_bool_decide as Hi.
    + rewrite Promise_all_guarded, foldl_settle. cbn.
      rewrite IH by lia. cbn.
      destruct (drop i urls) as [|u rest] eqn:Hdrop.
      { apply drop_nil_inv in Hdrop. lia. }
      rewrite <- Hdrop. cbn [Reading.chunks_fuel Reading.schedule].
      rewrite <- (drop_drop urls c i), <- !app_assoc.
      rewrite <- map_app, take_drop, length_map.
      do 3 f_equal. cbn. f_equal. f_equal.
      destruct report; [|reflexivity].
      rewrite imap_fmap. apply imap_ext. by intros.
    + rewrite drop_ge by lia.
      rewrite chunks_fuel_nil. cbn. by rewrite !app_nil_r.
Qed.

Lemma progress_chunk batch tr :
  Parser.progress (Parser.EvChunk batch :: tr) = Parser.progress tr.
Proof. reflexivity. Qed.

Lemma progress_app tr1 tr2 :
  Parser.progress (tr1 ++ tr2) = Parser.progress tr1 ++ Parser.progress tr2.
Proof. apply omap_app. Qed.

Lemma progress_report c t r tr :
  Parser.progress (Parser.EvProgress c t r :: tr) = (c, t, r) :: Parser.progress tr.
Proof. reflexivity. Qed.

Lemma progress_reports (g : nat → nat) total batch :
  Parser.progress
    (imap (λ k u, Parser.EvProgress (g k) total (Parser.parse config u)) batch)
  = imap (λ k u, (g k, total, Parser.parse config u)) batch.
Proof.
  revert g. induction batch as [|u batch IH]; intros g; [reflexivity|].
  rewrite !imap_cons, progress_report. f_equal. apply (IH (g ∘ S)).
Qed.

Lemma chunks_chunk batch tr :
  Parser.chunks (Parser.EvChunk batch :: tr) = batch :: Parser.chunks tr.
Proof. reflexivity. Qed.

Lemma chunks_app tr1 tr2 :
  Parser.chunks (tr1 ++ tr2) = Parser.chunks tr1 ++ Parser.chunks tr2.
Proof. apply omap_app. Qed.

Lemma chunks_reports (f : nat → string → Parser.BatchEvent) batch :
  (∀ k u, Parser.chunks [f k u] = []) →
  Parser.chunks (imap f batch) = [].
Proof.
  revert f. induction batch as [|u batch IH]; intros f Hf; [reflexivity|].
  rewrite imap_cons.
  change (f 0 u :: ?l) with ([f 0 u] ++ l).
  rewrite chunks_app, Hf. apply IH. intros k u'. apply Hf.
Qed.

Lemma progress_schedule total cnt batches :
  Parser.progress (Reading.schedule (Parser.parse config) true total cnt batches)
  = imap (λ k u, (cnt + k + 1, total, Parser.parse config u)) (concat batches).
Proof.
  revert cnt. induction batches as [|batch rest IH]; intros cnt; [reflexivity|].
  cbn [Reading.schedule concat].
  rewrite progress_chunk, progress_app, IH, imap_app. f_equal.
  - apply (progress_reports (λ k, cnt + k + 1)).
  - apply imap_ext. intros k u _. cbn. do 2 f_equal. lia.
Qed.

Lemma progress_schedule_silent total cnt batches :
  Parser.progress (Reading.schedule (Parser.parse config) false total cnt batches)
  = [].
Proof.
  revert cnt. induction batches as [|batch rest IH]; intros cnt; [reflexivity|].
  cbn [Reading.schedule]. rewrite progress_chunk. apply IH.
Qed.

Lemma chunks_schedule report total cnt batches :
  Parser.chunks (Reading.schedule (Parser.parse config) report total cnt batches)
  = batches.
Proof.
  revert cnt. induction batches as [|batch rest IH]; intros cnt; [reflexivity|].
  cbn [Reading.schedule]. rewrite chunks_chunk, chunks_app, IH. f_equal.
  destruct report; [|reflexivity].
  by rewrite chunks_reports.
Qed.

Lemma parseMany_schedule urls options :
  1 ≤ Reading.chunkSize options →
  Parser.parseMany config urls options
  = Some (Return (map (Parser.parse config) urls),
          Reading.schedule (Parser.parse config) (Reading.reporting options)
            (length urls) 0
            (Reading.chunksOf (Reading.chunkSize options) urls)).
Proof.
  intros Hc. unfold Parser.parseMany, Parser.parseManyWith.
  rewrite parseMany_from_schedule by (done || lia).
  reflexivity.
Qed.

End Batch.

(** *** The loop on numbers *)

Section Numbers.
Context `{Host}.
Variable parseFn : string → Outcome ParsedFile.
Local Open Scope nat_scope.

(** [urls.slice(i, i + concurrency)] for integers. *)
Lemma slice_chunk (urls : list string) (i next : Number.number) (k c : nat) :
  Reading.integer i (Z.of_nat k) →
  Reading.integer next (Z.of_nat (k + c)) →
  k < length urls →
  Number.slice urls i next = take c (drop k urls).
Proof.
  intros Hi Hnext Hk. unfold Number.slice.
  rewrite (sliceIndex_integer _ _ _ Hi), (sliceIndex_integer _ _ _ Hnext).
  rewrite !Nat2Z.id, (Nat.min_l k) by lia.
  destruct (decide (k + c ≤ length urls)) as [Hle|Hgt].
  - rewrite Nat.min_l by lia. f_equal. lia.
  - rewrite Nat.min_r by lia.
    rewrite !take_ge; [done|rewrite length_drop; lia..].
Qed.

(** For a concurrency that is an integer, the loop on numbers is the
    loop on integers: below [2 ^ 53] the index is computed exactly. *)
Lemma parseMany_number_from_integer urls (c : nat) (x : Number.number)
    continueOnError report fuel (k : nat) (i : Number.number) st :
  Reading.integer x (Z.of_nat c) →
  (Z.of_nat (length urls) + Z.of_nat c < 2 ^ 53)%Z →
  Reading.integer i (Z.of_nat k) →
  Parser.parseMany_number_from parseFn urls x continueOnError report fuel i st
  = Parser.parseMany_from parseFn urls c continueOnError report fuel k st.
Proof.
  intros Hx Hbound. revert k i st.
  assert (∀ k i, Reading.integer i (Z.of_nat k) →
            Number.ltb i (Number.ofNat (length urls))
            = bool_decide (k < length urls)) as Hltb.
  { intros k i Hi.
    rewrite (ltb_integer i _ (Z.of_nat k) (Z.of_nat (length urls)) Hi)
      by (apply ofZ_integer; lia).
    apply bool_decide_ext. lia. }
  induction fuel as [|fuel IH]; intros k i st Hi;
    cbn [Parser.parseMany_number_from Parser.parseMany_from];
    rewrite (Hltb k i Hi); [reflexivity|].
  case_bool_decide as Hk; [|reflexivity].
  assert (Reading.integer (Number.add i x) (Z.of_nat (k + c))) as Hnext.
  { rewrite Nat2Z.inj_add. apply add_integer; [done|done|lia]. }
  rewrite (slice_chunk urls i _ k c Hi Hnext Hk).
  destruct (Parser.Promise_all _) as [batchResults|message]; [|reflexivity].
  by apply IH.
Qed.

End Numbers.

(** [parseMany] for a concurrency given as a number that is an integer
    is [parseMany] for that integer. *)
Lemma parseMany_number_integer `{Host} (config : ParserConfig)
    (urls : list string) (asked : option nat) (goOn : option bool)
    (report : bool) :
  Z.of_nat (length urls) + Z.of_nat (nullish asked 3%nat) < 2 ^ 53 →
  Parser.parseMany_number config urls (Number.ofNat <$> asked) goOn report
    (length urls)
  = Parser.parseMany config urls
      (Some {| concurrency := asked; continueOnError := goOn;
               onProgress := report |}).
Proof.
  intros Hbound.
  unfold Parser.parseMany_number, Parser.parseMany, Parser.parseManyWith.
  apply parseMany_number_from_integer; [|exact Hbound|reflexivity].
  destruct asked as [c|].
  - change (Reading.integer (Number.ofZ (Z.of_nat c)) (Z.of_nat c)).
    change (nullish (Some c) 3%nat) with c in Hbound.
    apply ofZ_integer. lia.
  - change (Reading.integer (Number.ofZ 3) 3). by apply ofZ_integer.
Qed.

(** C7, as amended.  For a list of [n] URLs and a concurrency that is
    an integer [c] of at least 1 (3 when none is given), the numbers
    being those of the runtime and [n + c] below [2 ^ 53]: [parseMany]
    returns [n] records.  It hands the URLs to [Promise.all] in
    [ceil(n / c)] consecutive chunks of at most [c] URLs, one chunk
    after the other: the records of a chunk are all reported before the
    next chunk is started.  When [onProgress] is supplied it is called
    [n] times, the [k]-th time with [completed = k] and [total = n]; it
    is not called otherwise. *)
Theorem C7_batch_schedule `{Host} (config : ParserConfig)
    (urls : list string) (asked : option nat) (goOn : option bool)
    (report : bool) :
  let n := length urls in
  let c := nullish asked 3%nat in
  (1 ≤ c)%nat →
  Z.of_nat n + Z.of_nat c < 2 ^ 53 →
  ∃ rs tr,
    Parser.parseMany_number config urls (Number.ofNat <$> asked) goOn report n
    = Some (Return rs, tr) ∧
    length rs = n ∧
    length (Parser.chunks tr) = ((n + c - 1) / c)%nat ∧
    Forall (λ batch, (1 ≤ length batch ≤ c)%nat) (Parser.chunks tr) ∧
    concat (Parser.chunks tr) = urls ∧
    tr = Reading.schedule (Parser.parse config) report n 0 (Parser.chunks tr) ∧
    fst <$> Parser.progress tr
    = if report then (λ k, (k, n)) <$> seq 1 n else [].
Proof.
  intros n c Hc Hbound.
  eexists _, _. split.
  { rewrite parseMany_number_integer by done. by apply parseMany_schedule. }
  rewrite chunks_schedule. unfold Reading.chunksOf.
  change (Reading.chunkSize _) with c.
  change (Reading.reporting _) with report. fold n.
  split; [by rewrite length_map|].
  split; [by apply chunks_fuel_length|].
  split; [by apply chunks_fuel_sizes|].
  split; [by apply chunks_fuel_concat|].
  split; [reflexivity|].
  destruct report.
  - rewrite progress_schedule, chunks_fuel_concat by done.
    rewrite fmap_imap.
    transitivity (imap (λ k (_ : string), (S k, n)) urls).
    { apply imap_ext. intros k u _. cbn. f_equal. lia. }
    rewrite (imap_seq_0 urls (λ k, (S k, n))). fold n.
    by rewrite <- fmap_S_seq, <- list_fmap_compose.
  - by rewrite progress_schedule_silent.
Qed.

Lemma C7_batch_schedule_witness :
  ∃ rs tr,
    @Parser.parseMany_number Sample.offline Sample.noAI Sample.fiveUrls
      (Some (Number.ofNat 2)) None true 5 = Some (Return rs, tr) ∧
    length rs = 5%nat ∧
    Parser.chunks tr = [["a.png"; "b.xyz"]; ["c.csv"; "d.png"]; ["e.png"]]%string ∧
    fst <$> Parser.progress tr
    = [(1, 5); (2, 5); (3, 5); (4, 5); (5, 5)]%nat.
Proof.
  destruct (@C7_batch_schedule Sample.offline Sample.noAI Sample.fiveUrls
              (Some 2%nat) None true)
    as (rs & tr & Hrun & Hlen & _ & _ & _ & _ & Hprogress);
    [cbn; lia | cbn; lia |].
  exists rs, tr.
  split; [exact Hrun|]. split; [exact Hlen|]. split; [|exact Hprogress].
  vm_compute in Hrun. injection Hrun as _ <-. reflexivity.
Defined.

(** C7, as stated, fails for a concurrency that is not an integer: with
    a concurrency of 2.5, which is at least 1, the loop takes [i] from
    0 to 2.5 and to 5, and five URLs are handed over as
    [urls.slice(0, 2.5)], two URLs, then [urls.slice(2.5, 5)], three
    URLs, which is more than the concurrency. *)
Lemma C7_fractional_concurrency :
  let c := Number.make 5 (-1) in
  Number.ltb (Number.ofZ 1) c = true ∧
  Number.add c c = Number.ofZ 5 ∧
  ∃ rs tr,
    @Parser.parseMany_number Sample.offline Sample.noAI Sample.fiveUrls
      (Some c) None true 5 = Some (Return rs, tr) ∧
    Parser.chunks tr = [["a.png"; "b.xyz"]; ["c.csv"; "d.png"; "e.png"]]%string ∧
    Exists (λ batch, Number.ltb c (Number.ofNat (length batch)) = true)
      (Parser.chunks tr).
Proof.
  cbn zeta. split; [reflexivity|]. split; [reflexivity|].
  eexists _, _. split; [by vm_compute|].
  split; [reflexivity|]. right. by left.
Qed.

(** C10.  The records that [parseMany] returns are in the order of the
    URLs: the record at index [i] is the record of [urls[i]], and its
    [url] is [urls[i]]. *)
Theorem C10_input_order `{Host} (config : ParserConfig)
    (urls : list string) (options : option BatchParseOptions) :
  (1 ≤ Reading.chunkSize options)%nat →
  ∃ rs tr,
    Parser.parseMany config urls options = Some (Return rs, tr) ∧
    url <$> rs = urls ∧
    ∀ (i : nat) (u : string),
      urls !! i = Some u →
      rs !! i = Some (Parser.parse config u) ∧
      url (Parser.parse config u) = u.
Proof.
  intros Hc. eexists _, _. split; [by apply parseMany_schedule|]. split.
  - rewrite <- list_fmap_compose. rewrite <- (list_fmap_id urls) at 2.
    apply list_fmap_ext. intros i u _. cbn. apply parse_url.
  - intros i u Hu. split; [|apply parse_url].
    by rewrite list_lookup_fmap, Hu.
Qed.

Lemma C10_input_order_witness :
  ∃ rs tr,
    @Parser.parseMany Sample.offline Sample.noAI Sample.fiveUrls
      (Sample.inChunksOf 2 false) = Some (Return rs, tr) ∧
    url <$> rs = Sample.fiveUrls.
Proof.
  destruct (@C10_input_order Sample.offline Sample.noAI Sample.fiveUrls
              (Sample.inChunksOf 2 false))
    as (rs & tr & Hrun & Hurls & _); [cbn; lia|].
  exists rs, tr. split; [exact Hrun | exact Hurls].
Defined.

(** ** The retry loop of the providers (C6) *)

Section Retry.
Variable post : Z → Reply.
Variable n : Z.

Local Abbreviation eventsFrom := Provider.attemptsFrom.

Lemma eventsFrom_cons a k :
  a < k →
  eventsFrom a k
  = Provider.EvPost a :: Provider.EvSleep (500 * a) :: eventsFrom (a + 1) k.
Proof.
  intros Hak. unfold Provider.attemptsFrom.
  rewrite (seqZ_cons a) by lia. cbn [flat_map].
  rewrite bool_decide_eq_true_2 by done.
  replace (Z.pred (k - a + 1)) with (k - (a + 1) + 1) by lia.
  by replace (Z.succ a) with (a + 1) by lia.
Qed.

Lemma eventsFrom_last k : eventsFrom k k = [Provider.EvPost k].
Proof.
  unfold Provider.attemptsFrom. replace (k - k + 1) with 1 by lia.
  rewrite seqZ_cons by lia. rewrite seqZ_nil by lia. cbn [flat_map].
  by rewrite bool_decide_eq_false_2 by lia.
Qed.

Lemma eventsFrom_none a k : k < a → eventsFrom a k = [].
Proof. intros Hka. unfold Provider.attemptsFrom. by rewrite seqZ_nil by lia. Qed.

Lemma attemptLoop_failed a rest lastError message :
  Provider.attemptFailure (post a) = Some message →
  Provider.attemptLoop post n (a :: rest) lastError
  = let '(result, trace) :=
      Provider.attemptLoop post n rest (Some message) in
    (result,
     Provider.EvPost a ::
       (if bool_decide (a < n) then [Provider.EvSleep (500 * a)] else [])
       ++ trace).
Proof.
  intros Hfail. cbn [Provider.attemptLoop].
  unfold Provider.attemptFailure in Hfail.
  destruct (post a) as [m|t].
  - by injection Hfail as <-.
  - destruct (Js.truthy t); [discriminate Hfail|]. by injection Hfail as <-.
Qed.

Lemma attemptLoop_posts_bound attempts lastError :
  (length (Provider.posts (Provider.attemptLoop post n attempts lastError).2)
   ≤ length attempts)%nat.
Proof.
  revert lastError. induction attempts as [|a rest IH]; intros lastError.
  - cbn. lia.
  - destruct (Provider.attemptFailure (post a)) as [message|] eqn:Hfail.
    + rewrite (attemptLoop_failed _ _ _ _ Hfail).
      specialize (IH (Some message)).
      destruct (Provider.attemptLoop post n rest (Some message)) as [result trace].
      unfold Provider.posts in *. cbn [snd] in *.
      case_bool_decide; cbn; lia.
    + cbn [Provider.attemptLoop]. unfold Provider.attemptFailure in Hfail.
      destruct (post a) as [m|t]; [discriminate Hfail|].
      destruct (Js.truthy t); [cbn; lia | discriminate Hfail].
Qed.

Lemma attemptLoop_success (d : nat) a k lastError t :
  k = a + Z.of_nat d → k ≤ n →
  (∀ j, a ≤ j < k → Provider.attemptFailure (post j) ≠ None) →
  post k = ReplyText t → t ≠ EmptyString →
  Provider.attemptLoop post n (seqZ a (n - a + 1)) lastError
  = (Return t, eventsFrom a k).
Proof.
  revert a lastError.
  induction d as [|d IH]; intros a lastError Hk Hkn Hfails Hpost Ht.
  - assert (k = a) as -> by lia.
    rewrite seqZ_cons by lia. cbn [Provider.attemptLoop].
    rewrite Hpost, eventsFrom_last.
    by destruct t.
  - rewrite seqZ_cons by lia.
    destruct (Provider.attemptFailure (post a)) as [message|] eqn:Hfail;
      [|by destruct (Hfails a ltac:(lia))].
    rewrite (attemptLoop_failed _ _ _ _ Hfail).
    replace (Z.pred (n - a + 1)) with (n - Z.succ a + 1) by lia.
    rewrite (IH (Z.succ a) (Some message)); [|lia|done| |done|done].
    + rewrite bool_decide_eq_true_2 by lia.
      rewrite (eventsFrom_cons a k) by lia.
      by replace (a + 1) with (Z.succ a) by lia.
    + intros j Hj. apply Hfails. lia.
Qed.

Lemma attemptLoop_exhausted (d : nat) a lastError :
  Z.of_nat d = n - a + 1 →
  (∀ j, a ≤ j ≤ n → Provider.attemptFailure (post j) ≠ None) →
  Provider.attemptLoop post n (seqZ a (n - a + 1)) lastError
  = (Throw (Provider.failureMessage
              (if bool_decide (a ≤ n) then Provider.attemptFailure (post n)
               else lastError)),
     eventsFrom a n).
Proof.
  revert a lastError.
  induction d as [|d IH]; intros a lastError Hd Hfails.
  - rewrite seqZ_nil by lia. rewrite eventsFrom_none by lia.
    by rewrite bool_decide_eq_false_2 by lia.
  - rewrite seqZ_cons by lia.
    destruct (Provider.attemptFailure (post a)) as [message|] eqn:Hfail;
      [|by destruct (Hfails a ltac:(lia))].
    rewrite (attemptLoop_failed _ _ _ _ Hfail).
    replace (Z.pred (n - a + 1)) with (n - Z.succ a + 1) by lia.
    rewrite (IH (Z.succ a) (Some message)); [|lia|intros j Hj; apply Hfails; lia].
    rewrite (bool_decide_eq_true_2 (a ≤ n)) by lia.
    destruct (decide (a = n)) as [->|Hne].
    + rewrite !bool_decide_eq_false_2 by lia.
      rewrite Hfail, eventsFrom_last, eventsFrom_none by lia. reflexivity.
    + rewrite !bool_decide_eq_true_2 by lia.
      rewrite (eventsFrom_cons a n) by lia.
      by replace (a + 1) with (Z.succ a) by lia.
Qed.

End Retry.

Section Providers.
Context `{Host}.
Variables (config : AIConfig) (request : Provider.VisionRequest).

Lemma analyzeImage_retry image :
  Reading.imageReady config request image →
  Provider.analyzeImage config request
  = let '(result, trace) :=
      Provider.retry (provider config) config image in
    (result, Reading.preamble config request ++ trace).
Proof.
  unfold Reading.imageReady, Reading.preamble, Provider.analyzeImage.
  unfold Provider.OpenAIProvider_analyzeImage,
    Provider.GeminiProvider_analyzeImage,
    Provider.AnthropicProvider_analyzeImage, Provider.withImage.
  destruct (provider config) eqn:Hkind; intros Hready;
    try (rewrite Hready; by destruct (Provider.retry _ config image));
    destruct Hready as [Hget ->];
    by destruct (axios_get_image _).
Qed.

(** An OpenAI provider that cannot encode the URL of the image throws
    what [encodeURI] threw, and makes no attempt. *)
Lemma analyzeImage_bad_url message :
  provider config = openai ∨ provider config = custom →
  encodeURI (Provider.imageUrl request) = Throw message →
  Provider.analyzeImage config request = (Throw message, []).
Proof.
  unfold Provider.analyzeImage, Provider.OpenAIProvider_analyzeImage.
  by intros [-> | ->] ->.
Qed.

(** A provider that cannot download the image throws what the
    download threw, and makes no attempt. *)
Lemma analyzeImage_no_image message :
  provider config = gemini ∨ provider config = anthropic →
  axios_get_image (Provider.imageUrl request) = Throw message →
  Provider.analyzeImage config request
  = (Throw message, [Provider.EvGetImage (Provider.imageUrl request)]).
Proof.
  unfold Provider.analyzeImage, Provider.GeminiProvider_analyzeImage,
    Provider.AnthropicProvider_analyzeImage, Provider.withImage.
  by intros [-> | ->] ->.
Qed.

End Providers.

(** C6, as amended.  For every provider and every configured
    [maxRetries = n] with [n >= 1] (a [maxRetries] of 0 counts as not
    configured and gives 3), once what the provider does with the image
    before the loop has succeeded, which is [encodeURI] of its URL for
    OpenAI and the download of the image for Gemini and Anthropic:
    [analyzeImage] makes at most [n] attempts; a reply without text fails an attempt as an error does;
    when attempt [k <= n] is the first to yield text, the call returns
    that text after [k] attempts with a sleep of [500 * attempt] after
    each of the attempts before; when all [n] attempts fail, the call
    throws ["图片识别失败: "] followed by the message of the last error
    (["未知错误"] when that message is empty), again with a sleep of
    [500 * attempt] between two consecutive attempts. *)
Theorem C6_retry `{Host} (config : AIConfig)
    (request : Provider.VisionRequest) (image : string) (n : Z) :
  maxRetries config = Some n → 1 ≤ n →
  Reading.imageReady config request image →
  let post := client_post (provider config) image in
  let outcome := (Provider.analyzeImage config request).1 in
  let trace := (Provider.analyzeImage config request).2 in
  Z.of_nat (length (Provider.posts trace)) ≤ n ∧
  (∀ k t,
     1 ≤ k ≤ n →
     (∀ j, 1 ≤ j < k → Provider.attemptFailure (post j) ≠ None) →
     post k = ReplyText t → t ≠ EmptyString →
     outcome = Return t ∧
     trace = Reading.preamble config request ++ Provider.attemptsUpTo k) ∧
  ((∀ j, 1 ≤ j ≤ n → Provider.attemptFailure (post j) ≠ None) →
     outcome
     = Throw ("图片识别失败: "
                +:+ Js.orElse (default EmptyString (Provider.attemptFailure (post n)))
                      "未知错误") ∧
     trace = Reading.preamble config request ++ Provider.attemptsUpTo n).
Proof.
  intros Hn Hpos Hready post outcome trace. subst outcome trace.
  rewrite (analyzeImage_retry _ _ _ Hready).
  unfold Provider.retry, Provider.effectiveRetries. rewrite Hn.
  rewrite bool_decide_eq_false_2 by lia. fold post.
  split; [|split].
  - pose proof (attemptLoop_posts_bound post n (seqZ 1 n) None) as Hbound.
    destruct (Provider.attemptLoop post n (seqZ 1 n) None) as [result trace].
    cbn [snd] in *. rewrite length_seqZ in Hbound.
    unfold Provider.posts in *. rewrite omap_app.
    assert (omap (λ e, match e with Provider.EvPost a => Some a | _ => None end)
              (Reading.preamble config request) = []) as ->.
    { unfold Reading.preamble. by destruct (provider config). }
    cbn [app]. lia.
  - intros k t Hk Hfails Hpost Ht.
    replace (seqZ 1 n) with (seqZ 1 (n - 1 + 1)) by (f_equal; lia).
    by rewrite (attemptLoop_success post n (Z.to_nat (k - 1)) 1 k None t)
      by (done || lia).
  - intros Hfails.
    replace (seqZ 1 n) with (seqZ 1 (n - 1 + 1)) by (f_equal; lia).
    rewrite (attemptLoop_exhausted post n (Z.to_nat n) 1 None)
      by (done || lia).
    by rewrite bool_decide_eq_true_2 by lia.
Qed.

Lemma C6_retry_witness :
  (@Provider.analyzeImage (Sample.answering (Sample.okAt 3))
     (Sample.retries gemini 3) Sample.request).1 = Return "ok"%string ∧
  (@Provider.analyzeImage (Sample.answering (Sample.okAt 3))
     (Sample.retries openai 2) Sample.request).1
  = Throw "图片识别失败: 503"%string.
Proof.
  split.
  - destruct (@C6_retry (Sample.answering (Sample.okAt 3))
                (Sample.retries gemini 3) Sample.request "http://x.com/a.png" 3)
      as (_ & Hfirst & _); [reflexivity | lia | by split |].
    destruct (Hfirst 3 "ok"%string) as [Hout _];
      [lia | | reflexivity | discriminate | exact Hout].
    intros j Hj. unfold Sample.answering, Sample.okAt. cbn.
    by rewrite bool_decide_eq_false_2 by lia.
  - destruct (@C6_retry (Sample.answering (Sample.okAt 3))
                (Sample.retries openai 2) Sample.request "http://x.com/a.png" 2)
      as (_ & _ & Hall); [reflexivity | lia | reflexivity |].
    destruct Hall as [Hout _]; [|exact Hout].
    intros j Hj. unfold Sample.answering, Sample.okAt. cbn.
    by rewrite bool_decide_eq_false_2 by lia.
Defined.

(** C6, as stated, fails: with [maxRetries = 0] configured, a provider
    whose requests all fail makes three attempts. *)
Lemma C6_zero_retries :
  let trace :=
    (@Provider.analyzeImage (Sample.answering (Sample.okAt 9))
       (Sample.retries openai 0) Sample.request).2 in
  Provider.posts trace = [1; 2; 3] ∧
  ¬ (Z.of_nat (length (Provider.posts trace)) ≤ 0).
Proof. cbn zeta. split; [reflexivity|]. vm_compute. by intros Hle; apply Hle. Qed.

(** ** The tabular extractors (C2, C3, C4, C5) *)

Section Excel.
Context `{Host}.
Variables (workbook : Workbook) (maxRows : Z) (outputFormat : OutputFormat).

(** A sheet with more rows than a positive [maxRows]. *)
Local Abbreviation over := (λ sheetName : option string,
  bool_decide (maxRows > 0)
  && bool_decide (Z.of_nat (length (Excel.sheet_to_json workbook sheetName))
                  > maxRows)).

Local Abbreviation step := (Excel.sheetStep workbook maxRows outputFormat).

Lemma sheetStep_truncated st sheetName :
  Excel.st_truncated (step st sheetName)
  = Excel.st_truncated st || over sheetName.
Proof.
  unfold Excel.sheetStep. case_bool_decide as Hempty.
  - case_bool_decide as Hpos; cbn [andb]; [|by rewrite orb_false_r].
    rewrite bool_decide_eq_false_2 by lia. by rewrite orb_false_r.
  - destruct (bool_decide (maxRows > 0) && _);
      destruct outputFormat; cbn;
      by rewrite ?orb_true_r, ?orb_false_r.
Qed.

Lemma foldl_sheetStep_truncated st sheetNames :
  Excel.st_truncated (foldl step st sheetNames)
  = Excel.st_truncated st || existsb over sheetNames.
Proof.
  revert st. induction sheetNames as [|sheetName rest IH]; intros st; cbn [foldl existsb].
  - by rewrite orb_false_r.
  - by rewrite IH, sheetStep_truncated, orb_assoc.
Qed.

Lemma foldl_sheetStep_rawSheets st sheetNames :
  outputFormat = FmtRaw →
  Excel.st_rawSheets (foldl step st sheetNames)
  = Excel.st_rawSheets st
      ++ flat_map (Reading.rawSheetOf workbook maxRows) sheetNames.
Proof.
  intros Hraw. revert st.
  induction sheetNames as [|sheetName rest IH]; intros st; cbn [foldl flat_map].
  - by rewrite app_nil_r.
  - rewrite IH, app_assoc. f_equal.
    unfold Excel.sheetStep, Reading.rawSheetOf. rewrite Hraw.
    case_bool_decide; [by rewrite app_nil_r | reflexivity].
Qed.

End Excel.

(** C5.  For a workbook processed with [maxRows > 0], the [truncated]
    flag that [parseExcel] returns is true exactly when one of the
    sheets it went through has more than [maxRows] rows; and no
    iteration of the loop over the sheets lowers the flag: whatever the
    sheet, it is true after the iteration when it was true before. *)
Theorem C5_truncated_sticky `{Host} (workbook : Workbook)
    (config : option ExcelConfig) (maxRows : Z) :
  config ≫= excel_maxRows = Some maxRows → maxRows > 0 →
  (Excel.truncated (Excel.metadata (Excel.parseWorkbook workbook config)) = true
   ↔ ∃ sheetName,
       sheetName ∈ Reading.processed workbook config ∧
       Z.of_nat (length (Excel.sheet_to_json workbook sheetName)) > maxRows) ∧
  (∀ outputFormat st sheetName,
     Excel.st_truncated st = true →
     Excel.st_truncated
       (Excel.sheetStep workbook maxRows outputFormat st sheetName) = true).
Proof.
  intros Hmax Hpos. split.
  - unfold Excel.parseWorkbook, Reading.processed. rewrite Hmax.
    cbn [Excel.metadata Excel.truncated nullish default].
    rewrite foldl_sheetStep_truncated. cbn [Excel.initialState Excel.st_truncated orb].
    rewrite existsb_exists. split.
    + intros (sheetName & Hin & Hover). exists sheetName.
      apply andb_prop in Hover as [_ Hover].
      apply bool_decide_eq_true_1 in Hover.
      split; [by apply list_elem_of_In | done].
    + intros (sheetName & Hin & Hover). exists sheetName.
      split; [by apply list_elem_of_In|].
      by rewrite !bool_decide_eq_true_2.
  - intros outputFormat st sheetName Hset.
    by rewrite sheetStep_truncated, Hset.
Qed.

Lemma C5_truncated_sticky_witness :
  Excel.truncated
    (Excel.metadata
       (@Excel.parseWorkbook Sample.offline Sample.threeSheets
          (Sample.excelConfig 3 FmtMarkdown))) = true.
Proof.
  destruct (@C5_truncated_sticky Sample.offline Sample.threeSheets
              (Sample.excelConfig 3 FmtMarkdown) 3) as [[_ Hflag] _];
    [reflexivity | lia |].
  apply Hflag. exists (Some "S2"%string).
  split; [|vm_compute; reflexivity].
  apply list_elem_of_In. vm_compute. tauto.
Defined.

(** The structured sheets of a workbook in raw format: one per sheet
    that has rows, with the number of rows of the sheet as [totalRows]
    and [min(total, maxRows > 0 ? maxRows : total)] rows in [rows]. *)
Lemma parseWorkbook_raw_counts `{Host} (workbook : Workbook)
    (config : option ExcelConfig) :
  config ≫= excel_outputFormat = Some FmtRaw →
  let maxRows := nullish (config ≫= excel_maxRows) (-1) in
  ∃ rawSheets,
    Excel.rawData (Excel.parseWorkbook workbook config)
    = Some {| sheets := rawSheets |} ∧
    rawSheets
    = flat_map (Reading.rawSheetOf workbook maxRows)
        (Reading.processed workbook config) ∧
    Forall (λ sheet,
              ∃ sheetName,
                sheetName ∈ Reading.processed workbook config ∧
                let total :=
                  Z.of_nat (length (Excel.sheet_to_json workbook sheetName)) in
                totalRows sheet = total ∧
                Z.of_nat (length (rows sheet)) = Reading.included total maxRows)
      rawSheets.
Proof.
  intros Hraw maxRows. eexists. split; [|split; [reflexivity|]].
  - unfold Excel.parseWorkbook. rewrite Hraw.
    cbn [nullish default Excel.rawData].
    by rewrite foldl_sheetStep_rawSheets.
  - apply List.Forall_forall. intros sheet Hin.
    apply in_flat_map in Hin as (sheetName & Hin & Hsheet).
    exists sheetName. split; [by apply list_elem_of_In|].
    unfold Reading.rawSheetOf in Hsheet.
    case_bool_decide as Hempty; [by destruct Hsheet|].
    destruct Hsheet as [<-|[]]. cbn [totalRows rows]. split; [reflexivity|].
    rewrite length_map, length_take. unfold Reading.included.
    case_bool_decide; lia.
Qed.

Section Csv.
Context `{Host}.
Variables (buffer fileName : string) (config : option CsvConfig).

Local Abbreviation delimiter := (nullish (config ≫= csv_delimiter) ","%string).
Local Abbreviation maxRows := (nullish (config ≫= csv_maxRows) (-1)).
Local Abbreviation total := (Z.of_nat (length (Reading.sourceRows buffer))).

(** The rows [parseCSV] parses. *)
Local Abbreviation parsedRows :=
  (map (λ line, Csv.parseCSVLine line delimiter)
     (take (Z.to_nat (Reading.included total maxRows))
        (Reading.sourceRows buffer))).

Lemma included_bounds (n m : Z) :
  1 ≤ n → 1 ≤ Reading.included n m ≤ n.
Proof. intros Hn. unfold Reading.included. case_bool_decide; lia. Qed.

Lemma length_parsedRows :
  Reading.sourceRows buffer ≠ [] →
  Z.of_nat (length parsedRows) = Reading.included total maxRows.
Proof.
  intros Hrows. rewrite length_map, length_take.
  assert (1 ≤ total) by (destruct (Reading.sourceRows buffer); [done | cbn; lia]).
  pose proof (included_bounds total maxRows). lia.
Qed.

(** The structured sheet of a text in raw format: the first row that
    is kept is set apart as [headers], and [rows] and [totalRows]
    count the rows kept after it. *)
Lemma parseCSV_raw_counts :
  config ≫= csv_outputFormat = Some FmtRaw →
  Reading.sourceRows buffer ≠ [] →
  ∃ sheet,
    Csv.rawData (Csv.parseCSV buffer fileName config)
    = Some {| sheets := [sheet] |} ∧
    Some (headers sheet) = parsedRows !! 0%nat ∧
    rows sheet = map (map CString) (drop 1 parsedRows) ∧
    totalRows sheet = Reading.included total maxRows - 1 ∧
    Z.of_nat (length (rows sheet)) = Reading.included total maxRows - 1.
Proof.
  intros Hraw Hrows. pose proof (length_parsedRows Hrows) as Hlen.
  unfold Csv.parseCSV. fold (Reading.sourceRows buffer). rewrite Hraw.
  rewrite bool_decide_eq_false_2
    by (destruct (Reading.sourceRows buffer); [done | discriminate]).
  cbn [nullish default Csv.rawData]. eexists. split; [reflexivity|].
  cbn [headers rows totalRows]. fold (Reading.included total maxRows).
  assert (1 ≤ Reading.included total maxRows) as Hlo.
  { apply included_bounds.
    destruct (Reading.sourceRows buffer); [done | cbn; lia]. }
  rewrite length_map, length_drop.
  destruct parsedRows as [|row0 body]; [cbn in Hlen; lia|].
  cbn [length] in *. repeat split; lia.
Qed.

End Csv.

(** C2 at a text of three rows read in raw format with [maxRows = 2]:
    the source has 3 rows and [min(3, 2) = 2] of them are kept, but the
    structured sheet has one row in [rows], the first row being set
    apart as [headers], and its [totalRows] is 1. *)
Theorem C2_csv_raw_total `{Host} :
  let result := Csv.parseCSV Sample.threeRows "f.csv" (Sample.csvConfig 2 FmtRaw) in
  length (Reading.sourceRows Sample.threeRows) = 3%nat ∧
  Reading.included 3 2 = 2 ∧
  Csv.rawData result
  = Some {| sheets :=
              [ {| name := "CSV";
                   headers := ["a"; "b"]%string;
                   rows := [[CString "1"; CString "2"]];
                   totalRows := 1 |} ] |}.
Proof. cbn zeta. split; [reflexivity|]. split; reflexivity. Qed.

(** The field [formatAsCSV] writes for a cell of a workbook whose text
    has a comma, a quote or a line feed: the text between quotes, its
    quotes doubled. *)
Lemma csvField_quoted (s : string) :
  Js.includes Js.comma s || Js.includes Js.dquote s
    || Js.includes Js.newline s = true →
  Excel.csvField (CString s)
  = Js.chr Js.dquote
      +:+ Js.replaceAll Js.dquote (Js.chr Js.dquote +:+ Js.chr Js.dquote) s
      +:+ Js.chr Js.dquote.
Proof. intros Hspecial. unfold Excel.csvField. cbn. by rewrite Hspecial. Qed.

(** C3 at a line of a CSV file whose second cell is written between
    quotes, with a comma and two doubled quotes inside, the file being
    written back in csv format: the cell is read with its comma and
    with single quotes for the doubled ones, and it is written as it
    was read, without quotes around it and with its quotes not doubled;
    the workbook extractor writes the same cell between quotes with its
    quotes doubled. *)
Theorem C3_csv_cell_unquoted `{Host} :
  let cell := "He said " +:+ Js.chr Js.dquote +:+ "hi" +:+ Js.chr Js.dquote
                +:+ ", ok" in
  Csv.parseCSVLine Sample.quotedLine "," = ["x"%string; cell] ∧
  Js.includes Js.comma cell = true ∧
  Js.includes Js.dquote cell = true ∧
  Csv.content (Csv.parseCSV Sample.quotedLine "f.csv" (Sample.csvConfig (-1) FmtCsv))
  = "x," +:+ cell ∧
  Excel.csvField (CString cell)
  = Js.chr Js.dquote +:+ "He said " +:+ Js.chr Js.dquote +:+ Js.chr Js.dquote
      +:+ "hi" +:+ Js.chr Js.dquote +:+ Js.chr Js.dquote +:+ ", ok"
      +:+ Js.chr Js.dquote.
Proof. cbn zeta. repeat (split; [reflexivity|]). reflexivity. Qed.

Section Markdown.
Context `{Host}.

(** The footer ends with a character that is not white space. *)
Lemma trimEnd_omitted (s : string) (n : Z) :
  Js.trimEnd (s +:+ Reading.omitted n) = s +:+ Reading.omitted n.
Proof.
  apply (trimEnd_keep _ (ascii_of_nat 174)); [|reflexivity].
  unfold Reading.omitted. rewrite <- !append_assoc.
  by rewrite lastByte_app by discriminate.
Qed.

Lemma formatAsMarkdown_cons (row0 : list string) (body : list (list string)) :
  Csv.formatAsMarkdown (row0 :: body)
  = "| " +:+ (Js.join " | " (map Csv.escapeCell row0) +:+ " |"
                +:+ Js.chr Js.newline
                +:+ Csv.tableLine (map (λ _, "---"%string)
                                     (map Csv.escapeCell row0))
                +:+ String.concat EmptyString
                      (map (λ row, Csv.tableLine (map Csv.escapeCell row)) body)).
Proof.
  cbn [Csv.formatAsMarkdown]. unfold Csv.tableLine at 1.
  by rewrite !append_assoc.
Qed.

(** A text with more rows than a positive [maxRows], in markdown: the
    table of the first [maxRows] rows, then the footer. *)
Lemma parseCSV_markdown_truncated (buffer fileName : string)
    (config : option CsvConfig) (maxRows : Z) :
  config ≫= csv_maxRows = Some maxRows →
  nullish (config ≫= csv_outputFormat) FmtMarkdown = FmtMarkdown →
  0 < maxRows < Z.of_nat (length (Reading.sourceRows buffer)) →
  let result := Csv.parseCSV buffer fileName config in
  Csv.truncated (Csv.metadata result) = true ∧
  Csv.rowCount (Csv.metadata result) = maxRows ∧
  Csv.content result
  = Csv.formatAsMarkdown
      (map (λ line, Csv.parseCSVLine line (nullish (config ≫= csv_delimiter) ","%string))
         (take (Z.to_nat maxRows) (Reading.sourceRows buffer)))
      +:+ Reading.omitted (Z.of_nat (length (Reading.sourceRows buffer)) - maxRows).
Proof.
  intros Hmax Hfmt Hrows. cbn zeta.
  unfold Csv.parseCSV. fold (Reading.sourceRows buffer).
  rewrite Hmax, Hfmt. cbn [nullish default from_option id].
  rewrite bool_decide_eq_false_2 by lia.
  rewrite !(bool_decide_eq_true_2 (maxRows > 0)) by lia.
  rewrite bool_decide_eq_true_2 by lia.
  rewrite Z.min_r by lia.
  cbn [andb Csv.metadata Csv.truncated Csv.rowCount Csv.content].
  split; [reflexivity|]. split; [reflexivity|].
  fold (Reading.omitted (Z.of_nat (length (Reading.sourceRows buffer)) - maxRows)).
  destruct (take (Z.to_nat maxRows) (Reading.sourceRows buffer))
    as [|line0 rest] eqn:Htake.
  { apply (f_equal length) in Htake. rewrite length_take in Htake.
    cbn in Htake. lia. }
  cbn [map]. rewrite formatAsMarkdown_cons.
  unfold Js.trim. rewrite append_assoc, trimStart_table, <- append_assoc.
  apply trimEnd_omitted.
Qed.

End Markdown.

(** C4, as amended.  For a CSV text of 10 rows that are not blank, read
    with [maxRows = 5] in markdown: [truncated] is true, [rowCount] is
    5, and the content is the table of the first 5 rows, that is a
    header line made of the first row, the separator line and exactly 4
    data lines, followed by the footer that tells 5 rows were left
    out. *)
Theorem C4_ten_rows_max_five `{Host} (buffer fileName : string)
    (config : option CsvConfig) :
  config ≫= csv_maxRows = Some 5 →
  nullish (config ≫= csv_outputFormat) FmtMarkdown = FmtMarkdown →
  length (Reading.sourceRows buffer) = 10%nat →
  let result := Csv.parseCSV buffer fileName config in
  let delimiter := nullish (config ≫= csv_delimiter) ","%string in
  Csv.truncated (Csv.metadata result) = true ∧
  Csv.rowCount (Csv.metadata result) = 5 ∧
  ∃ header body,
    map (λ line, Csv.parseCSVLine line delimiter)
      (take 5 (Reading.sourceRows buffer)) = header :: body ∧
    length body = 4%nat ∧
    Csv.content result
    = Csv.tableLine (map Csv.escapeCell header)
        +:+ Csv.tableLine (map (λ _, "---"%string) header)
        +:+ String.concat EmptyString
              (map (λ row, Csv.tableLine (map Csv.escapeCell row)) body)
        +:+ Js.chr Js.newline +:+ Js.chr Js.newline
        +:+ "... 省略了 5 行数据".
Proof.
  intros Hmax Hfmt Hrows result delimiter.
  destruct (parseCSV_markdown_truncated buffer fileName config 5 Hmax Hfmt)
    as (Htruncated & Hcount & Hcontent); [lia|].
  split; [exact Htruncated|]. split; [exact Hcount|].
  subst result. rewrite Hcontent, Hrows. clear Hcontent.
  change (Z.to_nat 5) with 5%nat. fold delimiter.
  destruct (Reading.sourceRows buffer)
    as [|l1 [|l2 [|l3 [|l4 [|l5 rest]]]]]; try discriminate Hrows.
  eexists _, _. split; [reflexivity|]. split; [reflexivity|].
  cbn [take firstn map Csv.formatAsMarkdown].
  rewrite map_map, !append_assoc. reflexivity.
Qed.

Lemma C4_ten_rows_max_five_witness :
  let result :=
    @Csv.parseCSV Sample.offline Sample.tenRows "f.csv"
      (Sample.csvConfig 5 FmtMarkdown) in
  Csv.truncated (Csv.metadata result) = true ∧
  Csv.rowCount (Csv.metadata result) = 5 ∧
  Csv.content result
  = Sample.lines ["| r1 |"; "| --- |"; "| r2 |"; "| r3 |"; "| r4 |"; "| r5 |";
                  EmptyString; EmptyString; "... 省略了 5 行数据"]%string.
Proof.
  cbn zeta.
  destruct (@C4_ten_rows_max_five Sample.offline Sample.tenRows "f.csv"
              (Sample.csvConfig 5 FmtMarkdown))
    as (Htruncated & Hcount & header & body & Hparsed & _ & Hcontent);
    [reflexivity | reflexivity | reflexivity |].
  split; [exact Htruncated|]. split; [exact Hcount|].
  vm_compute in Hparsed. injection Hparsed as <- <-.
  rewrite Hcontent. reflexivity.
Defined.

(** C4, as stated, fails: of the 10 rows of the text, the table has the
    first as its header and 4, not 5, as its data rows. *)
Lemma C4_four_data_rows :
  let result :=
    @Csv.parseCSV Sample.offline Sample.tenRows "f.csv"
      (Sample.csvConfig 5 FmtMarkdown) in
  length (Reading.sourceRows Sample.tenRows) = 10%nat ∧
  Reading.dataRows (Csv.content result)
  = ["| r2 |"; "| r3 |"; "| r4 |"; "| r5 |"]%string ∧
  length (Reading.dataRows (Csv.content result)) ≠ 5%nat.
Proof.
  cbn zeta. split; [reflexivity|]. split; [reflexivity|].
  vm_compute. discriminate.
Qed.

(** Of ten lines, one that holds an ideographic space only is no row:
    the text has nine rows, and with [maxRows = 5] the footer tells
    that 4 rows were left out. *)
Lemma parseCSV_ideographic_line :
  let buffer :=
    Sample.lines ["r1"; "r2"; Js.utf8 0x3000; "r4"; "r5"; "r6"; "r7"; "r8";
                  "r9"; "r10"]%string in
  let result :=
    @Csv.parseCSV Sample.offline buffer "f.csv"
      (Sample.csvConfig 5 FmtMarkdown) in
  length (Reading.sourceRows buffer) = 9%nat ∧
  Csv.rowCount (Csv.metadata result) = 5 ∧
  Csv.content result
  = Sample.lines ["| r1 |"; "| --- |"; "| r2 |"; "| r4 |"; "| r5 |"; "| r6 |";
                  EmptyString; EmptyString; "... 省略了 4 行数据"]%string.
Proof. cbn zeta. split; [reflexivity|]. split; reflexivity. Qed.

(** * Further properties *)

(** ** The records of [parse] *)

Section Records.
Context `{Host}.
Variable config : ParserConfig.

Lemma parseWithAI_fields u fname kind :
  let file := Parser.parseWithAI config u fname kind in
  fileName file = fname ∧ type file = Parser.kindType kind ∧
  error file = None ∧ rawData file = None.
Proof.
  cbn zeta. unfold Parser.parseWithAI.
  destruct (ai config) as [aiConfig|]; [|done].
  by destruct (fst _).
Qed.

(** What the [try] block of [parse] returns, when it returns. *)
Lemma parse_try_fields u fname fileType file :
  Parser.parse_try config u fname fileType = Return file →
  fileName file = fname ∧ type file = fileType ∧ rawData file = None ∧
  (success file = true ↔ error file = None).
Proof.
  intros Htry.
  destruct fileType; cbn in Htry;
    try (injection Htry as <-;
         first [ destruct (parseWithAI_fields u fname Parser.ai_image) as (? & ? & ? & ?);
                 by rewrite parseWithAI_success
               | destruct (parseWithAI_fields u fname Parser.ai_audio) as (? & ? & ? & ?);
                 by rewrite parseWithAI_success
               | destruct (parseWithAI_fields u fname Parser.ai_video) as (? & ? & ? & ?);
                 by rewrite parseWithAI_success
               | done ]);
    unfold mbind, Outcome_bind in Htry;
    destruct (Parser.downloadFile u) as [buffer|]; try discriminate Htry;
    repeat match type of Htry with
      | context [match ?o with Return _ => _ | Throw _ => _ end] =>
          destruct o as [[? ?]|]
      | context [match ?o with Return _ => _ | Throw _ => _ end] =>
          destruct o
      end;
    try discriminate Htry;
    injection Htry as <-;
    first [ destruct (parseWithAI_fields u fname Parser.ai_pdf) as (? & ? & ? & ?);
            by rewrite parseWithAI_success
          | done ].
Qed.

End Records.

(** X1.  The record of a URL carries the file name taken from the URL, the
    URL itself and the type the file name is classified as, on every
    path of [parse]. *)
Theorem parse_identifies_file `{Host} (config : ParserConfig) (u : string) :
  let file := Parser.parse config u in
  fileName file = Parser.extractFileName u ∧
  url file = u ∧
  type file = Parser.detectFileType (Parser.extractFileName u).
Proof.
  cbn zeta. split; [|split; [apply parse_url|]]; unfold Parser.parse;
    destruct (Parser.parse_try _ _ _ _) as [file|message] eqn:Htry;
    try reflexivity;
    by destruct (parse_try_fields _ _ _ _ _ Htry) as (? & ? & ? & ?).
Qed.

(** X2.  A record of [parse] is successful exactly when it has no error. *)
Theorem parse_success_iff_no_error `{Host} (config : ParserConfig) (u : string) :
  success (Parser.parse config u) = true ↔ error (Parser.parse config u) = None.
Proof.
  unfold Parser.parse.
  destruct (Parser.parse_try _ _ _ _) as [file|message] eqn:Htry; [|done].
  by destruct (parse_try_fields _ _ _ _ _ Htry) as (? & ? & ? & ?).
Qed.

(** X3.  [parse] never hands over the structured table: the record it
    returns has no [rawData], whatever the output format of the
    tabular extractors. *)
Theorem parse_drops_rawData `{Host} (config : ParserConfig) (u : string) :
  rawData (Parser.parse config u) = None.
Proof.
  unfold Parser.parse.
  destruct (Parser.parse_try _ _ _ _) as [file|message] eqn:Htry; [|done].
  by destruct (parse_try_fields _ _ _ _ _ Htry) as (? & ? & ? & ?).
Qed.


(** ** The routes of [parse] *)

(** X4.  When the download of a file that is read locally fails, the record
    is unsuccessful, with the message of the download as its error and
    no content. *)
Theorem parse_download_failure `{Host} (config : ParserConfig)
    (u message : string) :
  let fname := Parser.extractFileName u in
  let fileType := Parser.detectFileType fname in
  Routes.readLocally fileType = true →
  axios_download u = Throw message →
  Parser.parse config u = Routes.failed fname u fileType message.
Proof.
  intros fname fileType Hlocal Hdownload. unfold Parser.parse.
  fold fname. fold fileType.
  destruct fileType; try discriminate Hlocal;
    cbn; unfold Parser.downloadFile; by rewrite Hdownload.
Qed.

Lemma parse_download_failure_witness :
  @Parser.parse Sample.offline Sample.noAI "http://x.com/a/b.csv"
  = Routes.failed "b.csv" "http://x.com/a/b.csv" csv "Network Error".
Proof.
  apply (@parse_download_failure Sample.offline Sample.noAI
           "http://x.com/a/b.csv" "Network Error"); reflexivity.
Defined.

(** X5.  When the decoder of a downloaded file throws, the record is
    unsuccessful with the message of the decoder, for every type that
    is read locally but PDF. *)
Theorem parse_decoder_failure `{Host} (config : ParserConfig)
    (u buffer message : string) :
  let fname := Parser.extractFileName u in
  let fileType := Parser.detectFileType fname in
  fileType ≠ pdf →
  axios_download u = Return buffer →
  Parser.localDecoder config fileType buffer fname = Some (Throw message) →
  Parser.parse config u = Routes.failed fname u fileType message.
Proof.
  intros fname fileType Hpdf Hdownload Hdecoder. unfold Parser.parse.
  fold fname. fold fileType.
  destruct fileType; try discriminate Hdecoder; try done;
    cbn; unfold Parser.downloadFile; rewrite Hdownload; cbn;
    cbn in Hdecoder; injection Hdecoder as Hdecoder;
    by rewrite Hdecoder.
Qed.

Lemma parse_decoder_failure_witness :
  @Parser.parse (Sample.serving "PK") Sample.noAI "http://x.com/a/b.xlsx"
  = Routes.failed "b.xlsx" "http://x.com/a/b.xlsx" excel "no workbook".
Proof.
  apply (@parse_decoder_failure (Sample.serving "PK") Sample.noAI
           "http://x.com/a/b.xlsx" "PK" "no workbook");
    [discriminate | reflexivity | reflexivity].
Defined.

(** X6.  When the local decoder of a downloaded PDF throws, the record is
    the one [parseWithAI] gives for the URL: it is successful, and
    without a provider its content is the link placeholder. *)
Theorem parse_pdf_fallback `{Host} (config : ParserConfig)
    (u buffer message : string) :
  let fname := Parser.extractFileName u in
  Parser.detectFileType fname = pdf →
  axios_download u = Return buffer →
  parsePDF buffer fname = Throw message →
  Parser.parse config u = Parser.parseWithAI config u fname Parser.ai_pdf ∧
  success (Parser.parse config u) = true ∧
  (ai config = None →
   content (Parser.parse config u) = Parser.linkHint Parser.ai_pdf fname u).
Proof.
  intros fname Htype Hdownload Hdecoder.
  assert (Parser.parse config u
          = Parser.parseWithAI config u fname Parser.ai_pdf) as ->.
  { unfold Parser.parse. fold fname. rewrite Htype. cbn.
    unfold Parser.downloadFile. rewrite Hdownload. cbn. by rewrite Hdecoder. }
  split; [reflexivity|]. split; [apply parseWithAI_success|].
  intros Hai. apply parseWithAI_fallback.
  unfold Reading.aiUnavailable. by rewrite Hai.
Qed.

(** A downloaded PDF whose local decoder returns gives the content of
    the decoder, and the provider is not consulted. *)
Theorem parse_pdf_local `{Host} (config : ParserConfig)
    (u buffer text_ : string) (metadata : Metadata) :
  let fname := Parser.extractFileName u in
  Parser.detectFileType fname = pdf →
  axios_download u = Return buffer →
  parsePDF buffer fname = Return (text_, metadata) →
  Parser.parse config u = Routes.decoded fname u pdf buffer text_ metadata.
Proof.
  intros fname Htype Hdownload Hdecoder.
  unfold Parser.parse. fold fname. rewrite Htype. cbn.
  unfold Parser.downloadFile. rewrite Hdownload. cbn. by rewrite Hdecoder.
Qed.

Lemma parse_pdf_fallback_witness :
  let h := Hosts.withLocal Sample.offline (λ _, Return "%PDF"%string)
             (λ _, Throw "no workbook"%string)
             (λ _ _, Throw "bad xref"%string) in
  success (@Parser.parse h Sample.noAI "http://x.com/a/b.pdf") = true ∧
  content (@Parser.parse h Sample.noAI "http://x.com/a/b.pdf")
  = Parser.linkHint Parser.ai_pdf "b.pdf" "http://x.com/a/b.pdf".
Proof.
  cbn zeta.
  destruct (@parse_pdf_fallback
              (Hosts.withLocal Sample.offline (λ _, Return "%PDF"%string)
                 (λ _, Throw "no workbook"%string)
                 (λ _ _, Throw "bad xref"%string))
              Sample.noAI "http://x.com/a/b.pdf" "%PDF" "bad xref")
    as (_ & Hok & Hlink); [reflexivity | reflexivity | reflexivity |].
  split; [exact Hok | exact (Hlink eq_refl)].
Defined.

Lemma parse_pdf_local_witness :
  @Parser.parse (Sample.serving "%PDF") Sample.noAI "http://x.com/a/b.pdf"
  = Routes.decoded "b.pdf" "http://x.com/a/b.pdf" pdf "%PDF" "%PDF" noMetadata.
Proof.
  apply (@parse_pdf_local (Sample.serving "%PDF") Sample.noAI
           "http://x.com/a/b.pdf" "%PDF" "%PDF" noMetadata); reflexivity.
Defined.

(** X7.  The record of an image, audio or video file, and of a file of
    unknown type, does not depend on the byte fetcher nor on the local
    decoders: [parse] downloads nothing for it. *)
Theorem parse_without_download (h : Host) (config : ParserConfig) (u : string)
    (download : string → Outcome string) (read : string → Outcome Workbook)
    (decode : string → string → Outcome (string * Metadata)) :
  Routes.readLocally
    (Parser.detectFileType (H := h) (Parser.extractFileName (H := h) u)) = false →
  @Parser.parse (Hosts.withLocal h download read decode) config u
  = @Parser.parse h config u.
Proof.
  intros Hroute. unfold Parser.parse.
  change (Parser.extractFileName (H := Hosts.withLocal h download read decode) u)
    with (Parser.extractFileName (H := h) u).
  change (Parser.detectFileType (H := Hosts.withLocal h download read decode)
            (Parser.extractFileName (H := h) u))
    with (Parser.detectFileType (H := h) (Parser.extractFileName (H := h) u)).
  destruct (Parser.detectFileType _); try discriminate Hroute; reflexivity.
Qed.

Lemma parse_without_download_witness :
  @Parser.parse (Sample.serving "bytes") Sample.noAI "http://x.com/a/b.png"
  = @Parser.parse Sample.offline Sample.noAI "http://x.com/a/b.png".
Proof.
  apply (parse_without_download Sample.offline Sample.noAI "http://x.com/a/b.png"
           (λ _, Return "bytes"%string) (λ _, Throw "no workbook"%string)
           Sample.noDecoder).
  reflexivity.
Defined.

(** A CSV file that could be downloaded always gives a successful
    record: its content is what [parseCSV] makes of the bytes, and its
    metadata are the size of the download, the number of rows kept and
    the truncation flag. *)
Theorem parse_csv_downloaded `{Host} (config : ParserConfig)
    (u buffer : string) :
  let fname := Parser.extractFileName u in
  let result := Csv.parseCSV buffer fname (csv_cfg config) in
  Parser.detectFileType fname = csv →
  axios_download u = Return buffer →
  Parser.parse config u
  = {| fileName := fname; url := u; type := csv;
       content := Csv.content result; success := true; error := None;
       rawData := None;
       metadata :=
         Some {| size := Some (String.length buffer); mimeType := None;
                 sheetNames := None;
                 rowCount := Some (Csv.rowCount (Csv.metadata result));
                 truncated := Some (Csv.truncated (Csv.metadata result)) |} |}.
Proof.
  intros fname result Htype Hdownload.
  unfold Parser.parse. fold fname. rewrite Htype. cbn.
  unfold Parser.downloadFile. by rewrite Hdownload.
Qed.

Lemma parse_csv_downloaded_witness :
  success (@Parser.parse (Sample.serving Sample.threeRows) Sample.noAI
             "http://x.com/a/b.csv") = true.
Proof.
  by rewrite (@parse_csv_downloaded (Sample.serving Sample.threeRows) Sample.noAI
                "http://x.com/a/b.csv" Sample.threeRows eq_refl eq_refl).
Defined.

(** ** File names *)

Lemma splitOn_pieces_free (c : ascii) (s : string) :
  Forall (λ p, Js.includes c p = false) (Js.splitOn c s).
Proof.
  induction s as [|d s IH]; cbn [Js.splitOn].
  - by repeat constructor.
  - destruct (Js.ceq d c) eqn:Hdc; [by constructor|].
    destruct (Js.splitOn c s) as [|p ps]; [repeat constructor; cbn; by rewrite Hdc|].
    inversion_clear IH as [|? ? Hp Hps]. constructor; [|done].
    cbn. by rewrite Hdc, Hp.
Qed.

Lemma splitOn_pieces_within (c d : ascii) (s : string) :
  Js.includes d s = false →
  Forall (λ p, Js.includes d p = false) (Js.splitOn c s).
Proof.
  induction s as [|e s IH]; cbn [Js.splitOn Js.includes]; intros Hfree.
  - by repeat constructor.
  - apply orb_false_elim in Hfree as [Hed Hs]. specialize (IH Hs).
    destruct (Js.ceq e c); [by constructor|].
    destruct (Js.splitOn c s) as [|p ps];
      [repeat constructor; cbn; by rewrite Hed|].
    inversion_clear IH as [|? ? Hp Hps]. constructor; [|done].
    cbn. by rewrite Hed, Hp.
Qed.

Lemma splitOn_nonempty (c : ascii) (s : string) : Js.splitOn c s ≠ [].
Proof.
  destruct s as [|d s]; cbn; [done|].
  destruct (Js.ceq d c); [done|]. by destruct (Js.splitOn c s).
Qed.

(** X8.  The file name taken from a URL is never empty and has neither a
    slash nor a question mark in it, whatever the URL, also when it
    cannot be decoded. *)
Theorem extractFileName_clean `{Host} (u : string) :
  let fname := Parser.extractFileName u in
  fname ≠ EmptyString ∧
  Js.includes Js.slash fname = false ∧
  Js.includes Js.qmark fname = false.
Proof.
  cbn zeta. unfold Parser.extractFileName.
  destruct (decodeURIComponent u) as [decoded|]; [|by repeat split].
  pose proof (splitOn_pieces_free Js.slash decoded) as Hsegments.
  destruct (last (Js.splitOn Js.slash decoded)) as [segment|] eqn:Hlast;
    [|apply last_None in Hlast; by apply splitOn_nonempty in Hlast].
  assert (Js.includes Js.slash segment = false) as Hsegment.
  { apply last_Some_elem_of in Hlast.
    by apply (proj1 (Forall_forall _ _) Hsegments). }
  cbn [default from_option id].
  pose proof (splitOn_pieces_free Js.qmark segment) as Hq.
  pose proof (splitOn_pieces_within Js.qmark Js.slash segment Hsegment) as Hs.
  destruct (Js.splitOn Js.qmark segment) as [|piece pieces];
    [by repeat split|].
  cbn [head default from_option id].
  inversion_clear Hq. inversion_clear Hs.
  unfold Js.orElse. by destruct piece.
Qed.

(** ** The lines of a CSV text *)

Lemma ceq_refl (a : ascii) : Js.ceq a a = true.
Proof. unfold Js.ceq. by rewrite bool_decide_eq_true_2. Qed.

Lemma ceq_true (a b : ascii) : Js.ceq a b = true → a = b.
Proof. unfold Js.ceq. apply bool_decide_eq_true_1. Qed.

Lemma ceq_sym (a b : ascii) : Js.ceq a b = Js.ceq b a.
Proof. unfold Js.ceq. apply bool_decide_ext. by split. Qed.

(** [char === delimiter] for a delimiter of one byte. *)
Lemma unitAt_chr (d c : ascii) (rest : string) :
  Js.isUnit (Js.chr d) && Js.startsWith (Js.chr d) (String c rest)
  = Js.ceq c d.
Proof. cbn. by rewrite andb_true_r, ceq_sym. Qed.

Section Lines.
Local Open Scope nat_scope.




Lemma parseCSVLine_from_whole delimiter line result current inQuotes skip :
  Js.isUnit delimiter = false →
  length (Csv.parseCSVLine_from line delimiter result current inQuotes skip)
  = S (length result).
Proof.
  intros Hunit. revert result current inQuotes skip.
  induction line as [|c line IH]; intros result current inQuotes skip.
  - cbn. rewrite length_app. cbn. lia.
  - cbn [Csv.parseCSVLine_from]. rewrite Hunit. cbn [andb].
    destruct skip; [|apply IH].
    destruct inQuotes, (Js.ceq c Js.dquote); try apply IH.
    destruct line as [|c' line']; [apply IH|].
    destruct (Js.ceq c' Js.dquote); apply IH.
Qed.

(** X11.  A delimiter that is not one code unit never splits, be it
    empty, of several characters or a character outside the basic
    plane: every line gives one field, with or without quotes. *)
Theorem parseCSVLine_long_delimiter (delimiter line : string) :
  Js.isUnit delimiter = false →
  length (Csv.parseCSVLine line delimiter) = 1.
Proof.
  intros Hunit. unfold Csv.parseCSVLine.
  by rewrite parseCSVLine_from_whole.
Qed.

Lemma parseCSVLine_long_delimiter_witness :
  length (Csv.parseCSVLine "a::b::c" "::") = 1.
Proof. by apply parseCSVLine_long_delimiter. Defined.

(** A delimiter of several bytes that is one code unit splits: here the
    full-width semicolon, U+FF1B. *)
Lemma parseCSVLine_fullwidth_delimiter :
  Csv.parseCSVLine ("a" +:+ Js.utf8 0xFF1B +:+ " b " +:+ Js.utf8 0xFF1B +:+ "c")
    (Js.utf8 0xFF1B)
  = ["a"; "b"; "c"]%string.
Proof. reflexivity. Qed.

End Lines.

Section Trim.

Lemma parseCSVLine_from_trimmed line delimiter result current inQuotes skip :
  Forall (λ field, Js.trim field = field) result →
  Forall (λ field, Js.trim field = field)
    (Csv.parseCSVLine_from line delimiter result current inQuotes skip).
Proof.
  revert result current inQuotes skip.
  induction line as [|c line IH]; intros result current inQuotes skip Hresult.
  - cbn. apply Forall_app. split; [done|]. repeat constructor. apply trim_idemp.
  - cbn [Csv.parseCSVLine_from].
    assert (Forall (λ field, Js.trim field = field) (result ++ [Js.trim current]))
      as Hpush.
    { apply Forall_app. split; [done|]. repeat constructor. apply trim_idemp. }
    destruct skip; [|by apply IH].
    destruct inQuotes, (Js.ceq c Js.dquote); try (by apply IH).
    + destruct line as [|c' line']; [by apply IH|].
      destruct (Js.ceq c' Js.dquote); by apply IH.
    + destruct (Js.isUnit delimiter && Js.startsWith delimiter (String c line));
        by apply IH.
Qed.

(** X12.  Every field of a line comes out trimmed of the white space of
    ECMAScript, the no-break space, the ideographic space and the byte
    order mark included: trimming it again changes nothing, whatever
    the line and the delimiter. *)
Theorem parseCSVLine_fields_trimmed (line delimiter : string) :
  Forall (λ field, Js.trim field = field) (Csv.parseCSVLine line delimiter).
Proof. unfold Csv.parseCSVLine. by apply parseCSVLine_from_trimmed. Qed.

(** The white space [trim] removes from a field is not that of the
    ASCII range only. *)
Lemma parseCSVLine_unicode_spaces :
  Csv.parseCSVLine
    (Js.utf8 0xFEFF +:+ "a" +:+ Js.utf8 0x00A0 +:+ "," +:+ Js.utf8 0x3000
       +:+ "b c" +:+ Js.utf8 0x2003) ","
  = ["a"; "b c"]%string.
Proof. reflexivity. Qed.

End Trim.

(** ** Reading back what the workbook extractor writes *)

Section RoundTrip.

Local Abbreviation q := Js.dquote.
Local Abbreviation loop := Csv.parseCSVLine_from.

(** What may follow a field on its line: nothing, or a comma. *)
Local Abbreviation ends := (λ rest : string,
  rest = EmptyString ∨ ∃ rest', rest = String Js.comma rest').

Lemma chr_append (c : ascii) (s : string) : Js.chr c +:+ s = String c s.
Proof. reflexivity. Qed.

Lemma loop_quoted s rest result current :
  ends rest →
  loop (Js.replaceAll q (Js.chr q +:+ Js.chr q) s +:+ Js.chr q +:+ rest)
    "," result current true 0
  = loop rest "," result (current +:+ s) false 0.
Proof.
  intros Hrest. revert current.
  induction s as [|c s IH]; intros current.
  - cbn [Js.replaceAll]. rewrite append_nil_l, chr_append, append_nil_r.
    cbn [Csv.parseCSVLine_from]. rewrite ceq_refl.
    destruct Hrest as [->|[rest' ->]]; [reflexivity|].
    by replace (Js.ceq Js.comma q) with false by reflexivity.
  - cbn [Js.replaceAll]. destruct (Js.ceq c q) eqn:Hc.
    + apply ceq_true in Hc as ->.
      rewrite !append_assoc, !chr_append.
      cbn [Csv.parseCSVLine_from]. rewrite !ceq_refl.
      rewrite IH. f_equal. by rewrite append_assoc.
    + rewrite append_cons. cbn [Csv.parseCSVLine_from]. rewrite Hc.
      rewrite IH. f_equal. by rewrite append_assoc.
Qed.

Lemma loop_bare s rest result current :
  Js.includes Js.comma s = false →
  Js.includes q s = false →
  loop (s +:+ rest) "," result current false 0
  = loop rest "," result (current +:+ s) false 0.
Proof.
  revert current. induction s as [|c s IH]; intros current Hcomma Hquote.
  - by rewrite append_nil_l, append_nil_r.
  - cbn [Js.includes] in *.
    apply orb_false_elim in Hcomma as [Hc1 Hs1].
    apply orb_false_elim in Hquote as [Hc2 Hs2].
    rewrite append_cons. cbn [Csv.parseCSVLine_from]. rewrite Hc2.
    change ","%string with (Js.chr Js.comma). rewrite unitAt_chr, Hc1.
    change (Js.chr Js.comma) with ","%string.
    rewrite IH by done. f_equal. by rewrite append_assoc.
Qed.

Lemma loop_field cell rest result :
  ends rest →
  loop (Excel.csvField cell +:+ rest) "," result EmptyString false 0
  = loop rest "," result (Text.ofCell cell) false 0.
Proof.
  intros Hrest. unfold Excel.csvField, Text.ofCell.
  destruct (Excel.present cell); [|by rewrite append_nil_l].
  destruct (Js.includes Js.comma (Excel.String_ cell)) eqn:Hcomma;
    [|destruct (Js.includes q (Excel.String_ cell)) eqn:Hquote];
    cbn [orb].
  - rewrite !append_assoc, chr_append. cbn [Csv.parseCSVLine_from].
    rewrite ceq_refl. by rewrite loop_quoted.
  - rewrite !append_assoc, chr_append. cbn [Csv.parseCSVLine_from].
    rewrite ceq_refl. by rewrite loop_quoted.
  - destruct (Js.includes Js.newline (Excel.String_ cell)).
    + rewrite !append_assoc, chr_append. cbn [Csv.parseCSVLine_from].
      rewrite ceq_refl. by rewrite loop_quoted.
    + by rewrite loop_bare.
Qed.

Lemma join_cons_cons (sep a b : string) (l : list string) :
  Js.join sep (a :: b :: l) = a +:+ sep +:+ Js.join sep (b :: l).
Proof. reflexivity. Qed.

Lemma loop_row cell cells result :
  loop (Js.join "," (map Excel.csvField (cell :: cells))) "," result
    EmptyString false 0
  = result ++ map (λ c, Js.trim (Text.ofCell c)) (cell :: cells).
Proof.
  revert cell result. induction cells as [|cell' cells IH]; intros cell result.
  - change (Js.join "," (map Excel.csvField [cell])) with (Excel.csvField cell).
    rewrite <- (append_nil_r (Excel.csvField cell)).
    rewrite loop_field by (by left). reflexivity.
  - cbn [map]. rewrite join_cons_cons.
    rewrite loop_field by (right; by eexists).
    change ("," +:+ ?b) with (String Js.comma b).
    cbn [Csv.parseCSVLine_from].
    replace (Js.ceq Js.comma q) with false by reflexivity.
    change ","%string with (Js.chr Js.comma) at 1 2. rewrite unitAt_chr, ceq_refl.
    change (Js.chr Js.comma) with ","%string.
    change (String.length "," - 1)%nat with 0%nat.
    cbn [map] in IH. rewrite IH. by rewrite <- app_assoc.
Qed.

(** X14.  A row written by [formatAsCSV] is read back by [parseCSVLine] cell
    by cell: every cell comes back as its text, trimmed, also when the
    text has commas, quotes or line feeds in it. *)
Theorem parseCSVLine_formatAsCSV (cells : list Cell) :
  cells ≠ [] →
  Csv.parseCSVLine (Js.join "," (map Excel.csvField cells)) ","
  = map (λ cell, Js.trim (Text.ofCell cell)) cells.
Proof.
  intros Hcells. destruct cells as [|cell cells]; [done|].
  unfold Csv.parseCSVLine. by rewrite loop_row.
Qed.

Lemma parseCSVLine_formatAsCSV_witness :
  Csv.parseCSVLine
    (Js.join "," (map Excel.csvField
                    [CString "x"; CString ("He said " +:+ Js.chr Js.dquote +:+ "hi"
                                            +:+ Js.chr Js.dquote +:+ ", ok");
                     CNull; CNumber 42])) ","
  = ["x"; "He said " +:+ Js.chr Js.dquote +:+ "hi" +:+ Js.chr Js.dquote +:+ ", ok";
     EmptyString; "42"]%string.
Proof.
  by rewrite parseCSVLine_formatAsCSV.
Defined.

End RoundTrip.

(** ** The lines of a Markdown table *)

Section Pipes.
Local Open Scope nat_scope.

Lemma barePipes_escapeCell (b : bool) (cell rest : string) :
  Text.barePipes_after b (Csv.escapeCell cell +:+ String " " rest)
  = Text.barePipes_after false rest.
Proof.
  revert b. unfold Csv.escapeCell.
  induction cell as [|c cell IH]; intros b.
  - reflexivity.
  - cbn [Js.replaceAll]. destruct (Js.ceq c Js.pipe) eqn:Hc.
    + rewrite !append_assoc, !chr_append.
      cbn [Text.barePipes_after].
      replace (Js.ceq Js.backslash Js.pipe) with false by reflexivity.
      rewrite !ceq_refl. cbn [andb negb]. by rewrite IH.
    + rewrite append_cons. cbn [Text.barePipes_after].
      rewrite Hc. cbn [andb]. by rewrite IH.
Qed.

Lemma barePipes_cells (b : bool) (cell : string) (cells : list string) :
  Text.barePipes_after b
    (Js.join " | " (map Csv.escapeCell (cell :: cells)) +:+ " |"
       +:+ Js.chr Js.newline)
  = S (length cells).
Proof.
  revert b cell. induction cells as [|cell' cells IH]; intros b cell.
  - change (Js.join " | " (map Csv.escapeCell [cell])) with (Csv.escapeCell cell).
    change (" |" +:+ Js.chr Js.newline) with (String " " ("|" +:+ Js.chr Js.newline)).
    by rewrite barePipes_escapeCell.
  - cbn [map]. rewrite join_cons_cons, !append_assoc.
    change (" | " +:+ ?r) with (String " " ("| " +:+ r)).
    rewrite barePipes_escapeCell.
    change ("| " +:+ ?r) with (String Js.pipe (String " " r)).
    cbn [Text.barePipes_after].
    rewrite ceq_refl.
    replace (Js.ceq Js.pipe Js.backslash) with false by reflexivity.
    replace (Js.ceq " " Js.pipe) with false by reflexivity.
    replace (Js.ceq " " Js.backslash) with false by reflexivity.
    cbn [andb negb].
    cbn [map] in IH. rewrite (IH false cell'). cbn [length]. lia.
Qed.

Lemma tableLine_escaped (row : list string) :
  row ≠ [] →
  Text.barePipes (Csv.tableLine (map Csv.escapeCell row)) = S (length row).
Proof.
  intros Hrow. destruct row as [|cell cells]; [done|].
  unfold Text.barePipes, Csv.tableLine.
  change ("| " +:+ ?r) with (String Js.pipe (String " " r)).
  cbn [Text.barePipes_after]. rewrite ceq_refl.
  replace (Js.ceq Js.pipe Js.backslash) with false by reflexivity.
  replace (Js.ceq " " Js.pipe) with false by reflexivity.
  replace (Js.ceq " " Js.backslash) with false by reflexivity.
  cbn [andb negb]. rewrite barePipes_cells. cbn [length]. lia.
Qed.

(** X15.  In the tables of both extractors, the line of a row has one pipe
    more than the row has cells that does not come right after a
    backslash, whatever the cells hold: each pipe inside a cell gets a
    backslash of its own. *)
Theorem tableLine_bare_pipes (row : list string) (cells : list Cell) :
  (row ≠ [] →
   Text.barePipes (Csv.tableLine (map Csv.escapeCell row)) = S (length row)) ∧
  (cells ≠ [] →
   Text.barePipes (Csv.tableLine (map Excel.markdownCell cells))
   = S (length cells)).
Proof.
  split; [apply tableLine_escaped|].
  intros Hcells.
  assert (map Excel.markdownCell cells
          = map Csv.escapeCell
              (map (λ cell, if Excel.present cell
                            then Js.trim (Excel.String_ cell)
                            else EmptyString) cells)) as ->.
  { rewrite map_map. apply map_ext. intros cell.
    unfold Excel.markdownCell. by destruct (Excel.present cell). }
  rewrite tableLine_escaped by (by destruct cells).
  by rewrite length_map.
Qed.

Lemma tableLine_bare_pipes_witness :
  Text.barePipes (Csv.tableLine (map Csv.escapeCell ["a|b"; "|"; "c"]%string)) = 4 ∧
  Text.barePipes
    (Csv.tableLine (map Excel.markdownCell [CString "x|y"; CNull; CNumber 3])) = 4.
Proof.
  destruct (tableLine_bare_pipes ["a|b"; "|"; "c"]%string
              [CString "x|y"; CNull; CNumber 3]) as [Hcsv Hexcel].
  split; [by apply Hcsv | by apply Hexcel].
Defined.

End Pipes.

(** ** Rows kept and rows left out *)

Section Blank.

Lemma trim_blank (s : string) : Js.blank s = true → Js.trim s = EmptyString.
Proof. intros Hblank%blank_trimStart. unfold Js.trim. by rewrite Hblank. Qed.

Lemma splitLines_nonempty (s : string) : Js.splitLines s ≠ [].
Proof.
  induction s as [|d s IH]; [done|]. cbn [Js.splitLines].
  destruct (Js.ceq d Js.newline); [done|].
  destruct s as [|e s']; [done|].
  destruct (Js.ceq d Js.creturn && Js.ceq e Js.newline); [done|].
  by destruct (Js.splitLines (String e s')).
Qed.

(** A text that has no line break in it goes to the first line of what
    follows it. *)
Lemma splitLines_prepend (w r : string) :
  Js.includes Js.newline w = false → Js.includes Js.creturn w = false →
  Js.splitLines (w +:+ r)
  = match Js.splitLines r with
    | p :: ps => (w +:+ p) :: ps
    | [] => [w]
    end.
Proof.
  induction w as [|d w IH]; intros Hn Hr.
  - rewrite append_nil_l. pose proof (splitLines_nonempty r).
    by destruct (Js.splitLines r).
  - cbn [Js.includes] in Hn, Hr.
    apply orb_false_elim in Hn as [Hdn Hn].
    apply orb_false_elim in Hr as [Hdr Hr].
    specialize (IH Hn Hr). pose proof (splitLines_nonempty r) as Hne.
    rewrite append_cons. cbn [Js.splitLines]. rewrite Hdn, Hdr. cbn [andb].
    destruct (w +:+ r) as [|e s'] eqn:Hwr.
    + destruct (Js.splitLines r) as [|p ps]; [done|].
      cbn in IH. injection IH as Hp Hps. subst ps.
      destruct w; [|discriminate Hwr]. rewrite append_nil_l in Hp. by subst p.
    + rewrite IH. by destruct (Js.splitLines r).
Qed.

Lemma whiteSpace_kinds (w : string) :
  Js.isWhiteSpace w = true →
  w = Js.chr Js.newline ∨ w = Js.chr Js.creturn ∨
  Js.includes Js.newline w = false ∧ Js.includes Js.creturn w = false.
Proof.
  apply (whiteSpace_forall
           (λ w, w = Js.chr Js.newline ∨ w = Js.chr Js.creturn ∨
                 Js.includes Js.newline w = false
                 ∧ Js.includes Js.creturn w = false)).
  unfold Js.whiteSpace. cbn [map].
  repeat (constructor;
          [first [ by left | by (right; left) | by (right; right) ]|]).
  constructor.
Qed.

(** The lines of a text of white space are of white space. *)
Lemma splitLines_blank (s : string) :
  Js.blank s = true →
  Forall (λ line, Js.blank line = true) (Js.splitLines s).
Proof.
  induction s as [s IH] using whiteSpace_ind. intros Hblank.
  apply blank_trimStart in Hblank. rewrite trimStart_eq in Hblank.
  destruct (Js.whiteSpaceAt s) as [r|] eqn:Hat;
    [|subst s; by repeat constructor].
  destruct (whiteSpaceAt_split _ _ Hat) as (w & Hw & ->).
  apply blank_trimStart in Hblank. specialize (IH r eq_refl Hblank).
  destruct (whiteSpace_kinds w Hw) as [->|[->|[Hn Hr]]].
  - by constructor.
  - change (Js.chr Js.creturn +:+ r) with (String Js.creturn r).
    destruct r as [|e r']; [by repeat constructor|].
    cbn [Js.splitLines] in IH |- *.
    change (Js.ceq Js.creturn Js.newline) with false.
    change (Js.ceq Js.creturn Js.creturn) with true. cbn [andb] in *.
    destruct (Js.ceq e Js.newline); [done|].
    destruct r' as [|e' r''].
    + inversion_clear IH as [|? ? Hp _]. repeat constructor.
      by apply (blank_app (Js.chr Js.creturn)).
    + destruct (Js.ceq e Js.creturn && Js.ceq e' Js.newline).
      * inversion_clear IH. constructor; [|done]. done.
      * destruct (Js.splitLines (String e' r'')) as [|p ps];
          inversion_clear IH as [|? ? Hp Hps];
          (constructor; [by apply (blank_app (Js.chr Js.creturn))|done]).
  - rewrite splitLines_prepend by done.
    destruct (Js.splitLines r) as [|p ps].
    + repeat constructor. by apply blank_whiteSpace.
    + inversion_clear IH as [|? ? Hp Hps]. constructor; [|done].
      apply blank_app; [by apply blank_whiteSpace | done].
Qed.

(** White space is decoded as it is. *)
Lemma decode_whiteSpace (w r : string) :
  Js.isWhiteSpace w = true →
  Js.decode Js.idle (w +:+ r) = w +:+ Js.decode Js.idle r.
Proof.
  intros Hw. revert r.
  apply (whiteSpace_forall
           (λ w, ∀ r, Js.decode Js.idle (w +:+ r) = w +:+ Js.decode Js.idle r));
    [|exact Hw].
  unfold Js.whiteSpace. cbn [map].
  repeat (constructor; [intros r; reflexivity|]). constructor.
Qed.

Lemma toString_blank (s : string) : Js.blank s = true → Js.toString s = s.
Proof.
  unfold Js.toString.
  induction s as [s IH] using whiteSpace_ind. intros Hblank.
  apply blank_trimStart in Hblank. rewrite trimStart_eq in Hblank.
  destruct (Js.whiteSpaceAt s) as [r|] eqn:Hat; [|by subst s].
  destruct (whiteSpaceAt_split _ _ Hat) as (w & Hw & ->).
  rewrite decode_whiteSpace by done.
  by rewrite (IH r eq_refl) by (by apply blank_trimStart).
Qed.

Lemma sourceRows_blank (buffer : string) :
  Js.blank buffer = true → Reading.sourceRows buffer = [].
Proof.
  intros Hblank. unfold Reading.sourceRows. rewrite toString_blank by done.
  pose proof (splitLines_blank buffer Hblank) as Hlines.
  induction Hlines as [|line lines Hline _ IH]; [reflexivity|].
  rewrite filter_cons, decide_False; [exact IH|].
  by rewrite (trim_blank line Hline).
Qed.

End Blank.

(** X16.  A text with nothing but white space in it is an empty file
    for [parseCSV], in every output format: the content says so, no row
    is counted, and there is no structured table, also in raw format.
    The white space is that of [trim]: spaces, tabs and line breaks,
    and also the no-break space, the ideographic space, the byte order
    mark and the other space characters of Unicode. *)
Theorem parseCSV_blank `{Host} (buffer fname : string) (config : option CsvConfig) :
  Js.blank buffer = true →
  Csv.parseCSV buffer fname config
  = {| Csv.content := "空文件"; Csv.rawData := None;
       Csv.metadata := {| Csv.rowCount := 0; Csv.truncated := false |} |}.
Proof.
  intros Hblank. unfold Csv.parseCSV. fold (Reading.sourceRows buffer).
  by rewrite (sourceRows_blank buffer Hblank).
Qed.

Lemma parseCSV_blank_witness :
  Csv.content
    (@Csv.parseCSV Sample.offline
       (Sample.lines [Js.utf8 0xFEFF; Js.utf8 0x3000 +:+ " "; EmptyString;
                      Js.utf8 0x00A0 +:+ Js.utf8 0x0009])
       "f.csv" (Sample.csvConfig 5 FmtRaw))
  = "空文件"%string.
Proof.
  exact (f_equal Csv.content
           (@parseCSV_blank Sample.offline
              (Sample.lines [Js.utf8 0xFEFF; Js.utf8 0x3000 +:+ " "; EmptyString;
                             Js.utf8 0x00A0 +:+ Js.utf8 0x0009])
              "f.csv" (Sample.csvConfig 5 FmtRaw) eq_refl)).
Defined.

(** A line of white space that is not of the ASCII range is no row. *)
Lemma sourceRows_unicode_blank :
  Reading.sourceRows
    (Sample.lines ["r1"; Js.utf8 0x3000; "r2"; Js.utf8 0x00A0 +:+ Js.utf8 0xFEFF;
                   "r3"]%string)
  = ["r1"; "r2"; "r3"]%string.
Proof. reflexivity. Qed.

(** X17.  In every output format, [parseCSV] keeps no more rows than the
    text has and, under a positive [maxRows], no more than [maxRows];
    it keeps them all when [maxRows] is not positive; and it reports
    [truncated] exactly when it kept fewer rows than the text has.  The
    rows of the text are its lines that [trim] does not empty, those of
    white space of any kind left out. *)
Theorem parseCSV_counts `{Host} (buffer fname : string) (config : option CsvConfig) :
  let maxRows := nullish (config ≫= csv_maxRows) (-1) in
  let total := Z.of_nat (length (Reading.sourceRows buffer)) in
  let result := Csv.parseCSV buffer fname config in
  let kept := Csv.rowCount (Csv.metadata result) in
  0 ≤ kept ≤ total ∧
  (0 < maxRows → kept ≤ maxRows) ∧
  (maxRows ≤ 0 → kept = total) ∧
  (Csv.truncated (Csv.metadata result) = true ↔ kept < total).
Proof.
  cbn zeta. unfold Csv.parseCSV. fold (Reading.sourceRows buffer).
  set (maxRows := nullish (config ≫= csv_maxRows) (-1)).
  set (total := Z.of_nat (length (Reading.sourceRows buffer))).
  case_bool_decide as Hempty.
  - cbn. unfold total. rewrite Hempty. cbn. repeat split; try lia; done.
  - assert (1 ≤ total) as Htotal
      by (unfold total; destruct (Reading.sourceRows buffer); [done|cbn; lia]).
    destruct (nullish (config ≫= csv_outputFormat) FmtMarkdown);
      cbn [Csv.metadata Csv.rowCount Csv.truncated];
      (case_bool_decide as Hpos; cbn [andb];
       [ case_bool_decide as Hover | ];
       repeat split; intros; try lia; try done).
Qed.

Section ExcelCounts.
Context `{Host}.
Variables (workbook : Workbook) (maxRows : Z) (outputFormat : OutputFormat).

Lemma sheetStep_totalRows st sheetName :
  Excel.st_totalRows
    (Excel.sheetStep workbook maxRows outputFormat st sheetName)
  = Excel.st_totalRows st
    + Reading.included
        (Z.of_nat (length (Excel.sheet_to_json workbook sheetName))) maxRows.
Proof.
  unfold Excel.sheetStep, Reading.included. case_bool_decide as Hempty.
  - rewrite Hempty. cbn. case_bool_decide; lia.
  - by destruct outputFormat.
Qed.

Lemma foldl_sheetStep_totalRows st sheetNames :
  Excel.st_totalRows
    (foldl (Excel.sheetStep workbook maxRows outputFormat) st sheetNames)
  = Excel.st_totalRows st + Counts.keptRows workbook maxRows sheetNames.
Proof.
  revert st. induction sheetNames as [|sheetName rest IH]; intros st.
  - cbn. lia.
  - cbn [foldl Counts.keptRows foldr]. rewrite IH, sheetStep_totalRows.
    unfold Counts.keptRows. lia.
Qed.

Lemma keptRows_le sheetNames :
  0 ≤ Counts.keptRows workbook maxRows sheetNames
    ≤ Counts.sourceRows workbook sheetNames.
Proof.
  induction sheetNames as [|sheetName rest IH]; cbn; [lia|].
  fold (Counts.keptRows workbook maxRows rest).
  fold (Counts.sourceRows workbook rest).
  unfold Reading.included. case_bool_decide; lia.
Qed.

Lemma keptRows_lt sheetNames :
  existsb (λ sheetName,
             bool_decide (maxRows > 0)
             && bool_decide
                  (Z.of_nat (length (Excel.sheet_to_json workbook sheetName))
                   > maxRows)) sheetNames = true
  ↔ Counts.keptRows workbook maxRows sheetNames
    < Counts.sourceRows workbook sheetNames.
Proof.
  induction sheetNames as [|sheetName rest IH]; cbn [existsb]; [cbn; split; [done|lia]|].
  pose proof (keptRows_le rest) as Hle.
  cbn [Counts.keptRows Counts.sourceRows foldr].
  fold (Counts.keptRows workbook maxRows rest).
  fold (Counts.sourceRows workbook rest).
  rewrite orb_true_iff, IH, andb_true_iff, !bool_decide_eq_true.
  unfold Reading.included. case_bool_decide; lia.
Qed.

End ExcelCounts.

(** X18.  The [rowCount] that [parseExcel] returns is the number of rows it
    kept over the sheets it went through, [min(rows, maxRows > 0 ?
    maxRows : rows)] for each; it is never more than these sheets have
    rows, and [truncated] is reported exactly when it is less. *)
Theorem parseWorkbook_counts `{Host} (workbook : Workbook)
    (config : option ExcelConfig) :
  let maxRows := nullish (config ≫= excel_maxRows) (-1) in
  let sheetNames := Reading.processed workbook config in
  let result := Excel.parseWorkbook workbook config in
  Excel.rowCount (Excel.metadata result)
  = Counts.keptRows workbook maxRows sheetNames ∧
  0 ≤ Excel.rowCount (Excel.metadata result)
    ≤ Counts.sourceRows workbook sheetNames ∧
  (Excel.truncated (Excel.metadata result) = true
   ↔ Excel.rowCount (Excel.metadata result)
     < Counts.sourceRows workbook sheetNames).
Proof.
  cbn zeta. unfold Excel.parseWorkbook, Reading.processed.
  cbn [Excel.metadata Excel.rowCount Excel.truncated].
  rewrite foldl_sheetStep_totalRows, foldl_sheetStep_truncated.
  cbn [Excel.initialState Excel.st_totalRows Excel.st_truncated orb].
  rewrite Z.add_0_l. split; [reflexivity|]. split; [apply keptRows_le|].
  apply keptRows_lt.
Qed.

(** ** What a call of a provider costs *)

Section Shape.
Variable post : Z → Reply.
Variable n : Z.

Local Abbreviation eventsFrom := Provider.attemptsFrom.




End Shape.



(** X20.  With a negative [maxRetries], a provider that got through what
    it does with the image before the loop, [encodeURI] of its URL for
    OpenAI and its download for Gemini and Anthropic, sends no request
    at all and throws, with no error to report. *)
Theorem analyzeImage_negative_retries `{Host} (config : AIConfig)
    (request : Provider.VisionRequest) (image : string) (n : Z) :
  maxRetries config = Some n → n < 0 →
  Reading.imageReady config request image →
  (Provider.analyzeImage config request).1 = Throw "图片识别失败: 未知错误"%string ∧
  Provider.posts (Provider.analyzeImage config request).2 = [].
Proof.
  intros Hn Hneg Hready. rewrite (analyzeImage_retry _ _ _ Hready).
  unfold Provider.retry, Provider.effectiveRetries. rewrite Hn.
  rewrite bool_decide_eq_false_2 by lia. rewrite seqZ_nil by lia.
  cbn. split; [reflexivity|].
  unfold Reading.preamble. by destruct (provider config).
Qed.

Lemma analyzeImage_negative_retries_witness :
  (@Provider.analyzeImage (Sample.answering (Sample.okAt 1))
     (Sample.retries openai (-1)) Sample.request).1
  = Throw "图片识别失败: 未知错误"%string.
Proof.
  by destruct (@analyzeImage_negative_retries (Sample.answering (Sample.okAt 1))
                 (Sample.retries openai (-1)) Sample.request
                 "http://x.com/a.png" (-1) eq_refl ltac:(lia) eq_refl).
Defined.

(** X21.  A Gemini or Anthropic provider that cannot download the image
    throws the error of the download as it is, without the prefix of a
    failed recognition, and sends no request. *)
Theorem analyzeImage_image_failure `{Host} (config : AIConfig)
    (request : Provider.VisionRequest) (message : string) :
  provider config = gemini ∨ provider config = anthropic →
  axios_get_image (Provider.imageUrl request) = Throw message →
  (Provider.analyzeImage config request).1 = Throw message ∧
  Provider.posts (Provider.analyzeImage config request).2 = [] ∧
  Provider.sleeps (Provider.analyzeImage config request).2 = [].
Proof.
  intros Hkind Himage.
  by rewrite (analyzeImage_no_image config request message Hkind Himage).
Qed.

Lemma analyzeImage_image_failure_witness :
  (@Provider.analyzeImage Sample.offline (Sample.retries gemini 3)
     Sample.request).1 = Throw "Network Error"%string.
Proof.
  by destruct (@analyzeImage_image_failure Sample.offline (Sample.retries gemini 3)
                 Sample.request "Network Error" (or_introl eq_refl) eq_refl).
Defined.

(** ** Batches *)

Section AnyParser.
Context `{Host}.
Local Open Scope nat_scope.
Variable parseFn : string → Outcome ParsedFile.
Variable continueOnError : bool.
Variable f : string → ParsedFile.
Hypothesis guarded_f :
  ∀ u, Parser.guarded parseFn continueOnError u = Return (f u).

Lemma Promise_all_total batch :
  Parser.Promise_all (map (Parser.guarded parseFn continueOnError) batch)
  = Return (map f batch).
Proof.
  induction batch as [|u batch IH]; [reflexivity|].
  cbn [map Parser.Promise_all]. rewrite guarded_f, IH. reflexivity.
Qed.

Lemma parseMany_from_total urls c report fuel i st :
  1 ≤ c → length urls ≤ fuel + i →
  ∃ tr,
    Parser.parseMany_from parseFn urls c continueOnError report fuel i st
    = Some (Return (Parser.results st ++ map f (drop i urls)), tr).
Proof.
  intros Hc. revert i st.
  induction fuel as [|fuel IH]; intros i st Hfuel.
  - cbn. rewrite bool_decide_eq_false_2 by lia.
    rewrite drop_ge by lia. cbn. rewrite app_nil_r. by eexists.
  - cbn [Parser.parseMany_from]. case_bool_decide as Hi.
    + rewrite Promise_all_total, foldl_settle.
      match goal with
      | |- ∃ tr, Parser.parseMany_from _ _ _ _ _ _ ?i' ?st' = _ =>
          destruct (IH i' st') as [tr Htr]; [lia|]
      end.
      rewrite Htr. cbn [Parser.results]. exists tr. do 2 f_equal.
      rewrite <- app_assoc, <- map_app, <- (drop_drop urls c i).
      by rewrite take_drop.
    + rewrite drop_ge by lia. cbn. rewrite app_nil_r. by eexists.
Qed.

End AnyParser.

(** X24.  When it goes on after errors, which is the default, [parseMany]
    returns one record per URL, in the order of the URLs, whatever the
    function that parses a URL does: the record of a URL whose parsing
    threw is an unsuccessful record of unknown type, with no content
    and the message of the exception. *)
Theorem parseManyWith_continue `{Host} (parseFn : string → Outcome ParsedFile)
    (urls : list string) (options : option BatchParseOptions) :
  (1 ≤ Reading.chunkSize options)%nat →
  nullish (options ≫= continueOnError) true = true →
  ∃ tr,
    Parser.parseManyWith parseFn urls options
    = Some (Return (map (Rescue.orConverted parseFn) urls), tr).
Proof.
  intros Hc Hcontinue. unfold Parser.parseManyWith. rewrite Hcontinue.
  destruct (parseMany_from_total parseFn true (Rescue.orConverted parseFn)
              (λ u, ltac:(unfold Parser.guarded, Rescue.orConverted;
                          by destruct (parseFn u)))
              urls (Reading.chunkSize options)
              (default false (onProgress <$> options)) (length urls) 0%nat
              {| Parser.results := []; Parser.completed := 0%nat;
                 Parser.trace := [] |}) as [tr Htr]; [done|lia|].
  exists tr. exact Htr.
Qed.

Lemma parseManyWith_continue_witness :
  ∃ tr,
    @Parser.parseManyWith Sample.offline
      (λ u, if bool_decide (u = "b"%string) then Throw "boom"%string
            else Return (Sample.record u true))
      ["a"; "b"; "c"]%string None
    = Some (Return [Sample.record "a" true;
                    @Rescue.converted Sample.offline "b" "boom";
                    Sample.record "c" true], tr).
Proof.
  destruct (@parseManyWith_continue Sample.offline
              (λ u, if bool_decide (u = "b"%string) then Throw "boom"%string
                    else Return (Sample.record u true))
              ["a"; "b"; "c"]%string None) as [tr Htr];
    [cbn; lia | reflexivity |].
  exists tr. exact Htr.
Defined.

(** X26.  [continueOnError] changes nothing for [parseMany]: [parse] turns
    every failure into a record, so the batch returns the same records
    and reports the same progress whether it is set or not. *)
Theorem parseMany_ignores_continueOnError `{Host} (config : ParserConfig)
    (urls : list string) (c : option nat) (report : bool) (b b' : option bool) :
  (1 ≤ nullish c 3)%nat →
  Parser.parseMany config urls
    (Some {| concurrency := c; continueOnError := b; onProgress := report |})
  = Parser.parseMany config urls
      (Some {| concurrency := c; continueOnError := b'; onProgress := report |}) ∧
  ∃ rs tr,
    Parser.parseMany config urls
      (Some {| concurrency := c; continueOnError := b; onProgress := report |})
    = Some (Return rs, tr).
Proof.
  intros Hc.
  rewrite !parseMany_schedule by done.
  split; [reflexivity|]. by eexists _, _.
Qed.

Lemma parseMany_ignores_continueOnError_witness :
  @Parser.parseMany Sample.offline Sample.noAI Sample.fiveUrls
    (Some {| concurrency := Some 2%nat; continueOnError := Some false;
             onProgress := true |})
  = @Parser.parseMany Sample.offline Sample.noAI Sample.fiveUrls
      (Some {| concurrency := Some 2%nat; continueOnError := Some true;
               onProgress := true |}).
Proof.
  by destruct (@parseMany_ignores_continueOnError Sample.offline Sample.noAI
                 Sample.fiveUrls (Some 2%nat) true (Some false) (Some true)
                 ltac:(cbn; lia)).
Defined.

Lemma Promise_all_rejects `{Host} (parseFn : string → Outcome ParsedFile)
    (batch : list string) :
  Exists (λ u, isReturn (parseFn u) = false) batch →
  ∃ u message,
    u ∈ batch ∧ parseFn u = Throw message ∧
    Parser.Promise_all (map (Parser.guarded parseFn false) batch)
    = Throw message.
Proof.
  induction batch as [|u batch IH]; intros Hex; [by inversion Hex|].
  change (Parser.Promise_all (map (Parser.guarded parseFn false) (u :: batch)))
    with (a ← Parser.guarded parseFn false u;
          as_ ← Parser.Promise_all (map (Parser.guarded parseFn false) batch);
          mret (a :: as_)).
  destruct (parseFn u) as [file|message] eqn:Hu.
  - inversion_clear Hex as [? ? Hhere|? ? Hlater];
      [by rewrite Hu in Hhere|].
    destruct (IH Hlater) as (u' & message & Hin & Hthrow & Hall).
    exists u', message. split; [by right|]. split; [done|].
    assert (Parser.guarded parseFn false u = Return file) as ->
      by (unfold Parser.guarded; by rewrite Hu).
    cbn [mbind Outcome_bind]. by rewrite Hall.
  - exists u, message. split; [by left|]. split; [done|].
    assert (Parser.guarded parseFn false u = Throw message) as ->
      by (unfold Parser.guarded; by rewrite Hu).
    reflexivity.
Qed.

(** X25.  When it must not go on after errors and the parsing of a URL of
    the first chunk throws, [parseMany] throws what one of the URLs of
    that chunk threw, and [onProgress] has not been called: not even
    for the URLs of the chunk that were parsed. *)
Theorem parseManyWith_abort `{Host} (parseFn : string → Outcome ParsedFile)
    (urls : list string) (options : option BatchParseOptions) :
  options ≫= continueOnError = Some false →
  Exists (λ u, isReturn (parseFn u) = false)
    (take (Reading.chunkSize options) urls) →
  ∃ u message tr,
    u ∈ take (Reading.chunkSize options) urls ∧
    parseFn u = Throw message ∧
    Parser.parseManyWith parseFn urls options = Some (Throw message, tr) ∧
    Parser.progress tr = [].
Proof.
  intros Hstop Hex. unfold Parser.parseManyWith. rewrite Hstop.
  cbn [nullish default from_option id].
  fold (Reading.chunkSize options).
  destruct (Promise_all_rejects parseFn _ Hex) as (u & message & Hin & Hthrow & Hall).
  exists u, message. eexists. split; [done|]. split; [done|].
  destruct urls as [|u0 urls'].
  { rewrite take_nil in Hin. by apply elem_of_nil in Hin. }
  cbn [length Parser.parseMany_from].
  rewrite bool_decide_eq_true_2 by (cbn; lia).
  rewrite drop_0, Hall. split; reflexivity.
Qed.

Lemma parseManyWith_abort_witness :
  ∃ tr,
    @Parser.parseManyWith Sample.offline
      (λ u, if bool_decide (u = "b"%string) then Throw "boom"%string
            else Return (Sample.record u true))
      ["a"; "b"; "c"]%string
      (Some {| concurrency := None; continueOnError := Some false;
               onProgress := true |})
    = Some (Throw "boom"%string, tr) ∧ Parser.progress tr = [].
Proof.
  destruct (@parseManyWith_abort Sample.offline
              (λ u, if bool_decide (u = "b"%string) then Throw "boom"%string
                    else Return (Sample.record u true))
              ["a"; "b"; "c"]%string
              (Some {| concurrency := None; continueOnError := Some false;
                       onProgress := true |}))
    as (u & message & tr & _ & _ & Hrun & Hsilent);
    [reflexivity | right; left; reflexivity |].
  exists tr. split; [|exact Hsilent].
  rewrite Hrun. vm_compute in Hrun. by injection Hrun as <- _.
Defined.

(** ** Formatting a batch *)

Lemma format_from_error_returns includeTitle includeUrl files parts :
  isReturn (Parser.format_from includeTitle includeUrl error_ files parts)
  = forallb success files.
Proof.
  revert parts. induction files as [|file rest IH]; intros parts; [reflexivity|].
  cbn [Parser.format_from forallb]. destruct (success file); cbn; [apply IH|done].
Qed.

Lemma some_unsuccessful (files : list ParsedFile) :
  forallb success files = false →
  ∃ file, file ∈ files ∧ success file = false.
Proof.
  induction files as [|file rest IH]; [done|].
  cbn [forallb]. destruct (success file) eqn:Hfile; cbn [andb].
  - intros (f & Hin & Hf)%IH. exists f. split; [by right|done].
  - intros _. exists file. split; [by left|done].
Qed.

(** X27.  [format] throws exactly when the policy is ["error"] and one of
    the records is unsuccessful; under ["skip"] and ["include"] it
    always returns a text. *)
Theorem format_throws_iff (files : list ParsedFile)
    (options : option FormatOptions) :
  isReturn (Parser.format files options) = false
  ↔ Reading.policy options = error_ ∧
    ∃ file, file ∈ files ∧ success file = false.
Proof.
  unfold Parser.format, Reading.policy.
  destruct (nullish (options ≫= onError) skip) eqn:Hpolicy.
  - rewrite format_from_skip. cbn. split; [done|]. by intros [? _].
  - rewrite format_from_include. cbn. split; [done|]. by intros [? _].
  - pose proof (format_from_error_returns
                  (nullish (options ≫= includeTitle) true)
                  (nullish (options ≫= includeUrl) false) files []) as Hret.
    destruct (Parser.format_from _ _ error_ files []) as [parts|message];
      cbn in Hret |- *.
    + split; [done|]. intros [_ (file & Hin & Hfail)].
      symmetry in Hret. rewrite forallb_forall in Hret.
      apply list_elem_of_In in Hin. rewrite (Hret file Hin) in Hfail. done.
    + split; [|done]. intros _. split; [done|].
      by apply some_unsuccessful.
Qed.

(** X28.  [parseAndFormat] parses the URLs with the default batch options and
    formats the records of the URLs in their order: its text is that of
    [format] for the list of the records [parse] gives, with the parser
    of the call or the default one; it never stops on a URL. *)
Theorem parseAndFormat_composes `{Host} (urls : list string)
    (formatOptions : option FormatOptions) (config : option ParserConfig)
    (st : Index.State) :
  let parser := (Index.parserFor config st).1 in
  Index.parseAndFormat urls formatOptions config st
  = (Some (Parser.format (map (Parser.parse parser) urls) formatOptions),
     (Index.parserFor config st).2).
Proof.
  cbn zeta. unfold Index.parseAndFormat.
  destruct (Index.parserFor config st) as [parser st'].
  by rewrite parseMany_schedule by (cbn; lia).
Qed.

(** ** The client of the Gemini provider *)

Section GeminiURL.

Lemma endsWith_append (suffix s : string) :
  Gemini.endsWith suffix (s +:+ suffix) = true.
Proof.
  induction s as [|c s IH].
  - rewrite append_nil_l. destruct suffix; cbn; unfold Js.seq;
      by rewrite bool_decide_eq_true_2.
  - rewrite append_cons. cbn [Gemini.endsWith]. rewrite IH. apply orb_true_r.
Qed.

Lemma endsWith_inv (suffix s : string) :
  Gemini.endsWith suffix s = true → ∃ pre, s = pre +:+ suffix.
Proof.
  induction s as [|c s IH]; cbn [Gemini.endsWith].
  - rewrite orb_false_r. unfold Js.seq. intros <-%bool_decide_eq_true_1.
    by exists EmptyString.
  - intros [Heq|Hlater]%orb_prop.
    + apply bool_decide_eq_true_1 in Heq as <-. by exists EmptyString.
    + destruct (IH Hlater) as [pre ->]. by exists (String c pre).
Qed.

Lemma dropTrailing_append (c : ascii) (s t : string) :
  t ≠ EmptyString → Gemini.dropTrailing c t = t →
  Gemini.dropTrailing c (s +:+ t) = s +:+ t.
Proof.
  intros Hne Ht. induction s as [|d s IH]; [exact Ht|].
  rewrite append_cons. cbn [Gemini.dropTrailing]. rewrite IH.
  destruct (s +:+ t) eqn:E; [|reflexivity].
  destruct s; [rewrite append_nil_l in E; contradiction | discriminate E].
Qed.

(** X29.  Whatever base URL is configured, the client of the Gemini provider
    gets one that ends with [/v1beta]; configuring the URL it got gives
    it again. *)
Theorem gemini_baseURL_normal (configured : option string) :
  Gemini.endsWith "/v1beta" (Gemini.baseURL configured) = true ∧
  Gemini.baseURL (Some (Gemini.baseURL configured)) = Gemini.baseURL configured.
Proof.
  assert (Gemini.endsWith "/v1beta" (Gemini.baseURL configured) = true) as Hends.
  { unfold Gemini.baseURL.
    destruct (Gemini.endsWith "/v1beta" (Gemini.dropTrailing _ _)) eqn:E;
      cbn [negb]; [exact E | apply endsWith_append]. }
  split; [exact Hends|].
  destruct (endsWith_inv _ _ Hends) as [pre Hpre].
  set (url := Gemini.baseURL configured) in *.
  unfold Gemini.baseURL at 1. cbn [default from_option id].
  assert (Js.orElse url Gemini.defaultBaseURL = url) as ->.
  { rewrite Hpre. by destruct pre. }
  assert (Gemini.dropTrailing Js.slash url = url) as ->.
  { rewrite Hpre. by apply dropTrailing_append. }
  by rewrite Hends.
Qed.

(** X30.  The MIME type inferred for an image never has a semicolon in it,
    whatever the [content-type] header says, and it is [image/jpeg]
    when there is no header or an empty one. *)
Theorem mimeType_no_parameter (contentType : option string) :
  Js.includes Gemini.semicolon (Gemini.mimeType contentType) = false ∧
  (default EmptyString contentType = EmptyString →
   Gemini.mimeType contentType = "image/jpeg"%string).
Proof.
  split.
  - unfold Gemini.mimeType.
    destruct (Js.includes Gemini.semicolon (Js.orElse _ _)) eqn:E; [|exact E].
    pose proof (splitOn_pieces_free Gemini.semicolon
                  (Js.orElse (default EmptyString contentType) "image/jpeg"))
      as Hpieces.
    destruct (Js.splitOn _ _) as [|piece pieces]; [reflexivity|].
    inversion_clear Hpieces. cbn [head default from_option id].
    unfold Js.trim. by apply includes_trimEnd, includes_trimStart.
  - intros Hnone. unfold Gemini.mimeType. by rewrite Hnone.
Qed.

End GeminiURL.

(** ** The supported formats *)

Lemma EXTENSION_MAP_entries :
  Parser.EXTENSION_MAP = list_to_map Formats.EXTENSION_ENTRIES.
Proof. reflexivity. Qed.

Lemma EXTENSION_ENTRIES_NoDup : NoDup (Formats.EXTENSION_ENTRIES.*1).
Proof. apply (bool_decide_unpack _). by vm_compute. Qed.

Lemma EXTENSION_MAP_lookup (ext : string) (type : FileType) :
  Parser.EXTENSION_MAP !! ext = Some type
  ↔ (ext, type) ∈ Formats.EXTENSION_ENTRIES.
Proof.
  rewrite EXTENSION_MAP_entries. symmetry.
  apply elem_of_list_to_map, EXTENSION_ENTRIES_NoDup.
Qed.

Lemma EXTENSION_ENTRIES_known :
  Forall (λ entry, entry.2 ≠ unknown) Formats.EXTENSION_ENTRIES.
Proof. apply (bool_decide_unpack _). by vm_compute. Qed.

Lemma method_routes (type : FileType) :
  type ≠ unknown →
  (Formats.method type = "AI 识别"%string ↔ Routes.readLocally type = false) ∧
  (Formats.method type = "本地解析 / AI 降级"%string ↔ type = pdf).
Proof. by destruct type. Qed.

(** X9.  The list of the supported formats and the classification agree: a
    file is classified as a type other than unknown exactly when its
    extension, in lower case, is listed, and then as the type listed
    with it; no entry lists the unknown type; the method listed is the
    AI one exactly for the types that [parse] does not read from a
    download, and the mixed one exactly for PDF. *)
Theorem getSupportedFormats_agree `{Host} (filename : string) (type : FileType) :
  let ext := toLowerCase (path_extname filename) in
  (Parser.detectFileType filename = type ∧ type ≠ unknown
   ↔ ∃ format,
       format ∈ Formats.getSupportedFormats ∧
       Formats.extension format = ext ∧ Formats.type_ format = type) ∧
  Forall (λ format,
            Formats.type_ format ≠ unknown ∧
            (Formats.method_ format = "AI 识别"%string
             ↔ Routes.readLocally (Formats.type_ format) = false) ∧
            (Formats.method_ format = "本地解析 / AI 降级"%string
             ↔ Formats.type_ format = pdf))
    Formats.getSupportedFormats.
Proof.
  cbn zeta. pose proof EXTENSION_ENTRIES_known as Hknown.
  rewrite Forall_forall in Hknown. split.
  - unfold Parser.detectFileType, Formats.getSupportedFormats. split.
    + intros [Hdetect Htype].
      destruct (Parser.EXTENSION_MAP !! toLowerCase (path_extname filename))
        as [t|] eqn:Hlookup; cbn in Hdetect; [subst t|congruence].
      apply EXTENSION_MAP_lookup in Hlookup.
      exists {| Formats.extension := toLowerCase (path_extname filename);
                Formats.type_ := type;
                Formats.method_ := Formats.method type |}.
      split; [|by split].
      apply list_elem_of_fmap.
      by exists (toLowerCase (path_extname filename), type).
    + intros (format & Hin & Hext & Htype).
      apply list_elem_of_fmap in Hin as ([ext t] & -> & Hin).
      cbn in Hext, Htype. subst ext t.
      split; [|exact (Hknown _ Hin)].
      apply EXTENSION_MAP_lookup in Hin. by rewrite Hin.
  - apply Forall_forall. intros format Hin.
    apply list_elem_of_fmap in Hin as ([ext t] & -> & Hin).
    cbn. specialize (Hknown _ Hin). cbn in Hknown.
    split; [done|]. by apply method_routes.
Qed.

(** ** Quotes that are not closed *)

Lemma loop_unclosed (s delimiter : string) result current :
  Js.includes Js.dquote s = false →
  Csv.parseCSVLine_from s delimiter result current true 0
  = result ++ [Js.trim (current +:+ s)].
Proof.
  revert current. induction s as [|c s IH]; intros current Hfree.
  - cbn. by rewrite append_nil_r.
  - cbn [Js.includes] in Hfree. apply orb_false_elim in Hfree as [Hc Hs].
    cbn [Csv.parseCSVLine_from]. rewrite Hc, IH by done.
    by rewrite append_assoc.
Qed.

(** X13.  A quote that opens a line and is never closed takes the rest of
    the line into one field, delimiters included: the line is read
    without an error. *)
Theorem parseCSVLine_unclosed_quote (s delimiter : string) :
  Js.includes Js.dquote s = false →
  Csv.parseCSVLine (String Js.dquote s) delimiter = [Js.trim s].
Proof.
  intros Hfree. unfold Csv.parseCSVLine. cbn [Csv.parseCSVLine_from].
  rewrite ceq_refl. by rewrite loop_unclosed.
Qed.

Lemma parseCSVLine_unclosed_quote_witness :
  Csv.parseCSVLine (String Js.dquote "a, b ,c ") "," = ["a, b ,c"%string].
Proof. by apply parseCSVLine_unclosed_quote. Defined.

(** ** The text of a provider *)

Lemma attemptLoop_returns_text (post : Z → Reply) (n : Z) attempts lastError t :
  (Provider.attemptLoop post n attempts lastError).1 = Return t →
  t ≠ EmptyString.
Proof.
  revert lastError. induction attempts as [|a rest IH]; intros lastError.
  - discriminate.
  - destruct (Provider.attemptFailure (post a)) as [message|] eqn:Hfail.
    + rewrite (attemptLoop_failed _ _ _ _ _ _ Hfail).
      specialize (IH (Some message)).
      by destruct (Provider.attemptLoop post n rest (Some message)).
    + cbn [Provider.attemptLoop]. unfold Provider.attemptFailure in Hfail.
      destruct (post a) as [m|t']; [discriminate Hfail|].
      destruct t'; [discriminate Hfail|]. cbn. by intros [= <-].
Qed.

Lemma analyzeImage_text `{Host} (config : AIConfig)
    (request : Provider.VisionRequest) (t : string) :
  (Provider.analyzeImage config request).1 = Return t → t ≠ EmptyString.
Proof.
  assert (∀ kind image,
            (Provider.retry kind config image).1 = Return t → t ≠ EmptyString)
    as Hretry by (intros kind image; apply attemptLoop_returns_text).
  unfold Provider.analyzeImage, Provider.OpenAIProvider_analyzeImage,
    Provider.GeminiProvider_analyzeImage, Provider.AnthropicProvider_analyzeImage,
    Provider.withImage.
  destruct (provider config);
    first [ destruct (encodeURI (Provider.imageUrl request)) as [image|];
            [apply Hretry | discriminate]
          | destruct (axios_get_image (Provider.imageUrl request));
            [|discriminate];
            match goal with
            | |- context [Provider.retry ?kind config ?image] =>
                specialize (Hretry kind image);
                by destruct (Provider.retry kind config image)
            end ].
Qed.

(** X22.  The text [analyzeImage] returns is never empty, whatever the
    provider and the replies. *)
Theorem analyzeImage_returns_text `{Host} (config : AIConfig)
    (request : Provider.VisionRequest) (t : string) :
  (Provider.analyzeImage config request).1 = Return t → t ≠ EmptyString.
Proof. apply analyzeImage_text. Qed.

Lemma analyzeImage_returns_text_witness :
  (@Provider.analyzeImage (Sample.answering (Sample.okAt 2))
     (Sample.retries openai 3) Sample.request).1 = Return "ok"%string ∧
  "ok"%string ≠ EmptyString.
Proof.
  split; [reflexivity|].
  apply (@analyzeImage_returns_text (Sample.answering (Sample.okAt 2))
           (Sample.retries openai 3) Sample.request "ok").
  reflexivity.
Defined.

(** X23.  The record of an image, audio or video file always has a content:
    the text of the provider, which is never empty, or the link
    placeholder. *)
Theorem parse_ai_content `{Host} (config : ParserConfig) (u : string) :
  Parser.detectFileType (Parser.extractFileName u) ∈ [image; audio; video] →
  content (Parser.parse config u) ≠ EmptyString.
Proof.
  intros Htype.
  assert (∀ kind, content (Parser.parseWithAI config u (Parser.extractFileName u) kind)
                  ≠ EmptyString) as Hcontent.
  { intros kind. unfold Parser.parseWithAI.
    destruct (ai config) as [aiConfig|]; [|done].
    destruct (Provider.analyzeImage aiConfig (Parser.aiRequest u kind)).1
      as [t|] eqn:Hcall; [|done].
    cbn. by eapply analyzeImage_text. }
  unfold Parser.parse.
  rewrite !elem_of_cons, elem_of_nil in Htype.
  destruct Htype as [->|[->|[->|[]]]]; cbn; apply Hcontent.
Qed.

Lemma parse_ai_content_witness :
  content (@Parser.parse (Sample.answering (Sample.okAt 2))
             (Sample.withAI gemini (Some 3)) "http://x.com/a/b.mp3") ≠ EmptyString.
Proof.
  apply (@parse_ai_content (Sample.answering (Sample.okAt 2))
           (Sample.withAI gemini (Some 3)) "http://x.com/a/b.mp3").
  right. left.
Defined.
